(** * ColorVision test creator: the pattern-generation engine

    A shallow embedding of the luminance classifier, the text fitter, the
    region classifier, the circle packing loop and the palette lookup of
    the generator, followed by the properties established about them.

    Modelling conventions.
    - A JavaScript number is read in two ways.  In the modules that come
      first it is a real number: arithmetic is exact, there is no
      rounding, no NaN and no infinity.  In the module [Binary64] it is
      the IEEE 754 double the code computes with: every operation rounds
      to nearest, ties to even, and comparisons are those of the
      doubles.  The invariants of the circle list, the contract of the
      region classifier and the luminance comparison, which depend on
      how a comparison of two computed numbers comes out, are proved
      over [Binary64].
    - Counters that only ever hold natural numbers are [nat] or [Z].
    - A string is a sequence of code units below 256.
    - [Math.random] is a stream [rnd] indexed by [nat]; the number of
      draws made so far is threaded through the code that draws.
    - A loop whose trip count is not structural takes a [fuel] argument and
      answers [OutOfFuel] when it is exhausted. *)

From Stdlib Require Import Reals Lra Lia ZArith List String Ascii Bool Psatz.
From Stdlib.Strings Require Import Byte.
From Stdlib Require Floats Uint63.
Import ListNotations.

Set Warnings "-inexact-float".

(** ** JavaScript values and outcomes *)

Module JS.

Local Open Scope R_scope.

(** [a < b], [a <= b], [a > b] on numbers. *)
Definition ltb (a b : R) : bool := if Rlt_dec a b then true else false.
Definition leb (a b : R) : bool := if Rle_dec a b then true else false.
Definition gtb (a b : R) : bool := if Rgt_dec a b then true else false.

(** The values a colour slot can hold. *)
Inductive value : Type :=
| VUndefined
| VNull
| VString (s : string).

(** Truthiness as tested by [if (color)]. *)
Definition truthy (v : value) : bool :=
  match v with
  | VString s => negb (String.eqb s EmptyString)
  | VUndefined | VNull => false
  end.

(** [a || b] where [a] is a number or undefined. *)
Definition orElse (a : option R) (b : R) : R :=
  match a with
  | Some v => if Req_dec_T v 0 then b else v
  | None => b
  end.

(** What a call does: it returns, it throws, or the fuel given to the
    model was too small to see it finish. *)
Inductive outcome (A : Type) : Type :=
| Returned (a : A)
| Throws
| OutOfFuel.

Arguments Returned {A} a.
Arguments Throws {A}.
Arguments OutOfFuel {A}.

Definition bind {A B : Type} (m : outcome A) (k : A -> outcome B) : outcome B :=
  match m with
  | Returned a => k a
  | Throws => Throws
  | OutOfFuel => OutOfFuel
  end.

(** Code units treated as white space by [trim] and by [\s]. *)
Definition isWhiteSpace (c : ascii) : bool :=
  let n := nat_of_ascii c in
  ((9 <=? n)%nat && (n <=? 13)%nat) || (n =? 32)%nat || (n =? 160)%nat.

(** [String.prototype.toLowerCase] on code units below 256. *)
Definition lowerChar (c : ascii) : ascii :=
  let n := nat_of_ascii c in
  if ((65 <=? n)%nat && (n <=? 90)%nat)
     || ((192 <=? n)%nat && (n <=? 222)%nat && negb (n =? 215)%nat)
  then ascii_of_nat (n + 32) else c.

Fixpoint toLowerCase (s : string) : string :=
  match s with
  | EmptyString => EmptyString
  | String c rest => String (lowerChar c) (toLowerCase rest)
  end.

Fixpoint trimStart (s : string) : string :=
  match s with
  | EmptyString => EmptyString
  | String c rest => if isWhiteSpace c then trimStart rest else s
  end.

Fixpoint rev_string (acc s : string) : string :=
  match s with
  | EmptyString => acc
  | String c rest => rev_string (String c acc) rest
  end.

Definition trim (s : string) : string :=
  rev_string EmptyString (trimStart (rev_string EmptyString (trimStart s))).

(** [s.split(/\s+/)]: [inSep] says that the previous code unit was white
    space, [cur] is the piece being read. *)
Fixpoint splitWhiteSpace (inSep : bool) (cur : string) (s : string) : list string :=
  match s with
  | EmptyString => [cur]
  | String c rest =>
      if isWhiteSpace c then
        if inSep then splitWhiteSpace true EmptyString rest
        else cur :: splitWhiteSpace true EmptyString rest
      else splitWhiteSpace false (cur ++ String c EmptyString) rest
  end.

End JS.

Import JS.

(** ** utils/luminance.js *)

Module Luminance.

Local Open Scope R_scope.

Definition sRGBtoLin (channel : R) : R :=
  if leb channel 0.04045 then channel / 12.92
  else Rpower ((channel + 0.055) / 1.055) 2.4.

Definition getLuminance (r g b : R) : R :=
  let vR := r / 255 in
  let vG := g / 255 in
  let vB := b / 255 in
  let Y := 0.2126 * sRGBtoLin vR + 0.7152 * sRGBtoLin vG + 0.0722 * sRGBtoLin vB in
  Y.

End Luminance.

(** ** utils/canvas-utils.js *)

Module CanvasUtils.

Local Open Scope R_scope.

(** A canvas as [createLuminanceMap] sees it: its dimensions and the RGBA
    bytes of [getImageData(0, 0, width, height).data]. *)
Record Canvas : Type := mkCanvas {
  width : nat;
  height : nat;
  data : list byte
}.

Definition byteValue (b : byte) : R := IZR (Z.of_N (Byte.to_N b)).

(** [getLuminance(r, g, b) < luminanceThreshold] on channels read from the
    buffer; a channel read past the end is undefined and the comparison
    is then false. *)
Definition isDark (r g b : option byte) (luminanceThreshold : R) : bool :=
  match r, g, b with
  | Some r, Some g, Some b =>
      ltb (Luminance.getLuminance (byteValue r) (byteValue g) (byteValue b))
          luminanceThreshold
  | _, _, _ => false
  end.

Definition createLuminanceMap (canvas : Canvas) (threshold : option R)
  : list (list bool) :=
  let luminanceThreshold := match threshold with Some t => t | None => 0.5 end in
  map (fun y =>
         map (fun x =>
                let idx := ((y * width canvas + x) * 4)%nat in
                let r := nth_error (data canvas) idx in
                let g := nth_error (data canvas) (idx + 1) in
                let b := nth_error (data canvas) (idx + 2) in
                isDark r g b luminanceThreshold)
             (seq 0 (width canvas)))
      (seq 0 (height canvas)).

End CanvasUtils.

(** ** utils/circle-placer.js *)

Module CirclePlacer.

Local Open Scope R_scope.

Record Constraints : Type := mkConstraints {
  width : R;
  height : R;
  margin : R;
  circular : bool;
  centerX : R;
  centerY : R;
  padding : R
}.

Record Circle : Type := mkCircle {
  x : R;
  y : R;
  radius : R;
  color : value
}.

Record ColorOptions : Type := mkColorOptions {
  tolerance : R;
  onColor : value;
  offColor : value;
  mapWidth : R;
  mapHeight : R
}.

(** The loop over [existingCircles]: [false] at the first circle that is
    too close, [true] when none is. *)
Fixpoint clearOfAll (x0 y0 radius0 padding0 : R) (existingCircles : list Circle) : bool :=
  match existingCircles with
  | [] => true
  | circle :: rest =>
      let dx := x0 - x circle in
      let dy := y0 - y circle in
      let distance := sqrt (dx * dx + dy * dy) in
      if ltb distance (radius0 + radius circle + padding0) then false
      else clearOfAll x0 y0 radius0 padding0 rest
  end.

Definition isValidPlacement (x0 y0 radius0 : R) (existingCircles : list Circle)
           (constraints : Constraints) : bool :=
  if ltb (x0 - radius0) (margin constraints)
     || gtb (x0 + radius0) (width constraints - margin constraints)
     || ltb (y0 - radius0) (margin constraints)
     || gtb (y0 + radius0) (height constraints - margin constraints)
  then false
  else
    if circular constraints
       && (let circleRadius :=
             Rmin (width constraints) (height constraints) / 2 - margin constraints in
           let distanceFromCenter :=
             sqrt ((x0 - centerX constraints) ^ 2 + (y0 - centerY constraints) ^ 2) in
           gtb (distanceFromCenter + radius0) circleRadius)
    then false
    else clearOfAll x0 y0 radius0 (padding constraints) existingCircles.

(** Two draws are made in either mode; the result is the position and the
    number of draws made after the call. *)
Definition generateRandomPosition (constraints : Constraints)
           (rnd : nat -> R) (drawn : nat) : (R * R) * nat :=
  if circular constraints then
    let circleRadius :=
      Rmin (width constraints) (height constraints) / 2 - margin constraints in
    let angle := rnd drawn * 2 * PI in
    let distance := rnd (S drawn) * circleRadius in
    ((centerX constraints + cos angle * distance,
      centerY constraints + sin angle * distance), S (S drawn))
  else
    let effectiveWidth := width constraints - margin constraints * 2 in
    let effectiveHeight := height constraints - margin constraints * 2 in
    ((margin constraints + rnd drawn * effectiveWidth,
      margin constraints + rnd (S drawn) * effectiveHeight), S (S drawn)).

Section Sampling.

Variables (x0 y0 radius0 : R).
Variable luminanceMap : list (list bool).
Variables (mapWidth0 mapHeight0 : R).

Definition samples : R := Rmax 8 radius0.

(** The body of the inner loop at offset [(dx, dy)]; the pair is
    [(inPixels, totalPixels)].  Reading a row that does not exist
    throws; reading past the end of a row gives undefined, which is
    falsy. *)
Definition samplePoint (dx dy : R) (counts : nat * nat) : outcome (nat * nat) :=
  if leb (dx * dx + dy * dy) (radius0 * radius0) then
    let px := Int_part (x0 + dx) in
    let py := Int_part (y0 + dy) in
    if (0 <=? px)%Z && ltb (IZR px) mapWidth0
       && (0 <=? py)%Z && ltb (IZR py) mapHeight0
    then
      let totalPixels := S (snd counts) in
      match nth_error luminanceMap (Z.to_nat py) with
      | None => Throws
      | Some row =>
          match nth_error row (Z.to_nat px) with
          | Some true => Returned (S (fst counts), totalPixels)
          | Some false | None => Returned (fst counts, totalPixels)
          end
      end
    else Returned counts
  else Returned counts.

(** [for (dx = ...; dx <= radius; dx += radius / samples)] *)
Fixpoint rowLoop (fuel : nat) (dy dx : R) (counts : nat * nat) : outcome (nat * nat) :=
  if leb dx radius0 then
    match fuel with
    | O => OutOfFuel
    | S fuel' =>
        bind (samplePoint dx dy counts)
             (rowLoop fuel' dy (dx + radius0 / samples))
    end
  else Returned counts.

(** [for (dy = ...; dy <= radius; dy += radius / samples)] *)
Fixpoint gridLoop (rowFuel fuel : nat) (dy : R) (counts : nat * nat) : outcome (nat * nat) :=
  if leb dy radius0 then
    match fuel with
    | O => OutOfFuel
    | S fuel' =>
        bind (rowLoop rowFuel dy (- radius0) counts)
             (gridLoop rowFuel fuel' (dy + radius0 / samples))
    end
  else Returned counts.

Definition sampleCircle (fuel : nat) : outcome (nat * nat) :=
  gridLoop fuel fuel (- radius0) (0%nat, 0%nat).

End Sampling.

(** The part of [determineCircleColor] after the sampling loops. *)
Definition classify (options : ColorOptions) (counts : nat * nat) : value :=
  let inPixels := fst counts in
  let totalPixels := snd counts in
  if (totalPixels =? 0)%nat then VNull
  else
    let inRatio := INR inPixels / INR totalPixels in
    if gtb inRatio (tolerance options) && ltb inRatio (1 - tolerance options)
    then VNull
    else if gtb inRatio 0.5 then onColor options else offColor options.

Definition determineCircleColor (fuel : nat) (x0 y0 radius0 : R)
           (luminanceMap : list (list bool)) (options : ColorOptions) : outcome value :=
  bind (sampleCircle x0 y0 radius0 luminanceMap
                     (mapWidth options) (mapHeight options) fuel)
       (fun counts => Returned (classify options counts)).

End CirclePlacer.

(** ** utils/text-processor.js *)

Module TextProcessor.

Local Open Scope R_scope.

(** What [measureText] reports; a bounding-box field the canvas does not
    provide is [None]. *)
Record TextMetrics : Type := mkTextMetrics {
  width : R;
  actualBoundingBoxAscent : option R;
  actualBoundingBoxDescent : option R
}.

Definition splitIntoWords (text : string) : list string :=
  splitWhiteSpace false EmptyString (trim text).

Definition isMultiLine (text : string) : bool :=
  (1 <? List.length (splitIntoWords text))%nat.

(** [Math.max(...widths)] for the widths of at least one word. *)
Fixpoint maxOf (widths : list R) : R :=
  match widths with
  | [] => 0
  | [w] => w
  | w :: rest => Rmax w (maxOf rest)
  end.

Section Fitting.

(** [measureText fontSize fontFamily s] is what the canvas context
    reports for [s] once its font has been set from the size and the
    family. *)
Variable measureText : R -> string -> string -> TextMetrics.
Variables (text : string) (maxWidth maxHeight : R) (fontFamily : string).

(** The text width and height computed in one pass of the loop. *)
Definition measure (adjustedFontSize : R) : R * R :=
  let words := splitIntoWords text in
  let isMultiLine := (1 <? List.length words)%nat in
  if isMultiLine then
    let textWidth :=
      maxOf (map (fun word => width (measureText adjustedFontSize fontFamily word)) words) in
    let lineHeight := adjustedFontSize * 1.2 in
    let textHeight := INR (List.length words) * lineHeight in
    (textWidth, textHeight)
  else
    let textMetrics := measureText adjustedFontSize fontFamily text in
    let textWidth := width textMetrics in
    let textHeight :=
      orElse (actualBoundingBoxAscent textMetrics) (adjustedFontSize * 0.7)
      + orElse (actualBoundingBoxDescent textMetrics) (adjustedFontSize * 0.3) in
    (textWidth, textHeight).

Definition fits (adjustedFontSize : R) : bool :=
  let '(textWidth, textHeight) := measure adjustedFontSize in
  leb textWidth maxWidth && leb textHeight maxHeight.

(** [do { ... } while (adjustedFontSize > 20)] *)
Fixpoint shrink (fuel : nat) (adjustedFontSize : R) : outcome R :=
  match fuel with
  | O => OutOfFuel
  | S fuel' =>
      if fits adjustedFontSize then Returned adjustedFontSize
      else
        let adjustedFontSize' := adjustedFontSize * 0.95 in
        if gtb adjustedFontSize' 20 then shrink fuel' adjustedFontSize'
        else Returned adjustedFontSize'
  end.

Definition calculateOptimalFontSize (fuel : nat) (initialFontSize : R) : outcome R :=
  shrink fuel initialFontSize.

End Fitting.

(** One call [ctx.fillText(text, x, y)]. *)
Record FillText : Type := mkFillText {
  fillText_text : string;
  fillText_x : R;
  fillText_y : R
}.

(** [l.forEach((a, index) => ...)] from the given index on, with the
    results of the callback collected in order. *)
Fixpoint forEachFrom {A B : Type} (f : A -> nat -> B) (index : nat) (l : list A) : list B :=
  match l with
  | [] => []
  | a :: rest => f a index :: forEachFrom f (S index) rest
  end.

(** [renderText], as the calls to [fillText] it makes on the context, in
    order. *)
Definition renderText (text : string) (centerX centerY fontSize : R) : list FillText :=
  let words := splitIntoWords text in
  if (List.length words =? 1)%nat then [mkFillText text centerX centerY]
  else
    let lineHeight := fontSize * 1.2 in
    let totalHeight := INR (List.length words) * lineHeight in
    let startY := centerY - totalHeight / 2 + lineHeight / 2 in
    forEachFrom (fun word index =>
                   let y := startY + INR index * lineHeight in
                   mkFillText word centerX y)
                0 words.

End TextProcessor.

(** ** utils/color-palettes.js *)

Module ColorPalettes.

Local Open Scope string_scope.

Record Palette : Type := mkPalette {
  name : string;
  description : string;
  onColor : string;
  offColor : string;
  targetDeficiency : string
}.

(** The object literal, in source order. *)
Definition COLOR_PALETTES : list (string * Palette) :=
  [ ("default",
     mkPalette "Default Orange/Cyan"
               "Good general contrast for most color vision types"
               "#FF6B35" "#4ECDC4" "general");
    ("protanopia",
     mkPalette "Protanopia (Red-blind) Test"
               "Optimized for testing red color blindness"
               "#8B0000" "#90EE90" "protanopia");
    ("deuteranopia",
     mkPalette "Deuteranopia (Green-blind) Test"
               "Optimized for testing green color blindness"
               "#D2691E" "#6B8E23" "deuteranopia");
    ("tritanopia",
     mkPalette "Tritanopia (Blue-blind) Test"
               "Optimized for testing blue color blindness"
               "#FFD700" "#4169E1" "tritanopia");
    ("high-contrast-red",
     mkPalette "High Contrast Red/Green"
               "Maximum contrast red/green combination"
               "#B22222" "#32CD32" "red-green");
    ("high-contrast-blue",
     mkPalette "High Contrast Blue/Yellow"
               "Maximum contrast blue/yellow combination"
               "#000080" "#FFFF00" "blue-yellow");
    ("subtle-red-green",
     mkPalette "Subtle Red/Green"
               "Subtle red-green difference for mild deficiencies"
               "#CD5C5C" "#228B22" "mild-red-green");
    ("subtle-brown-green",
     mkPalette "Subtle Brown/Green"
               "Brown-green combination often confused by color blind individuals"
               "#A0522D" "#556B2F" "brown-green-confusion");
    ("monochrome",
     mkPalette "Monochrome Compatible"
               "High luminance contrast for monochromacy"
               "#2F2F2F" "#D3D3D3" "monochromacy");
    ("scientific-red",
     mkPalette "Scientific Red Standard"
               "Standard red used in color vision research"
               "#FF0000" "#00FF00" "research-standard");
    ("ishihara-classic",
     mkPalette "Classic Ishihara Colors"
               "Colors inspired by traditional Ishihara plates"
               "#8B4513" "#9ACD32" "classic-test") ].

(** The members every object literal inherits from [Object.prototype];
    each of them is a function or an object, hence truthy, and none of
    them has an [onColor] or an [offColor]. *)
Definition objectPrototype : list string :=
  [ "constructor"; "__defineGetter__"; "__defineSetter__"; "hasOwnProperty";
    "__lookupGetter__"; "__lookupSetter__"; "isPrototypeOf";
    "propertyIsEnumerable"; "toString"; "valueOf"; "__proto__";
    "toLocaleString" ].

Fixpoint ownProperty (key : string) (entries : list (string * Palette)) : option Palette :=
  match entries with
  | [] => None
  | (k, p) :: rest => if String.eqb k key then Some p else ownProperty key rest
  end.

(** What [COLOR_PALETTES[key]] evaluates to. *)
Inductive property : Type :=
| Own (p : Palette)
| Inherited (member : string)
| Absent.

Definition getProperty (key : string) : property :=
  match ownProperty key COLOR_PALETTES with
  | Some p => Own p
  | None => if existsb (String.eqb key) objectPrototype then Inherited key else Absent
  end.

(** [palette || null]: own entries and inherited members are truthy, so
    only [Absent] becomes [null]; [Absent] stands for it. *)
Definition getPalette (paletteName : string) : property :=
  getProperty (toLowerCase paletteName).

Definition isValidPalette (paletteName : string) : bool :=
  match ownProperty (toLowerCase paletteName) COLOR_PALETTES with
  | Some _ => true
  | None => false
  end.

(** [Object.keys(COLOR_PALETTES)] *)
Definition getPaletteNames : list string := map fst COLOR_PALETTES.

Definition getAllPalettes : list (string * Palette) := COLOR_PALETTES.

(** [{ name, ...palette }]: the spread comes after [name] and the palette
    has a [name] of its own, which replaces the key. *)
Definition withName (name0 : string) (palette : Palette) : Palette :=
  {| name := name palette;
     description := description palette;
     onColor := onColor palette;
     offColor := offColor palette;
     targetDeficiency := targetDeficiency palette |}.

Definition getPalettesByDeficiency (deficiencyType : string) : list Palette :=
  map (fun entry : string * Palette => withName (fst entry) (snd entry))
      (filter (fun entry : string * Palette =>
                 String.eqb (targetDeficiency (snd entry)) deficiencyType)
              COLOR_PALETTES).

End ColorPalettes.

(** ** colorvision-generator.js *)

Module ColorVisionGenerator.

Local Open Scope R_scope.

Record Options : Type := mkOptions {
  width : R;
  height : R;
  minRadius : R;
  maxRadius : R;
  onColor : value;
  offColor : value;
  luminanceThreshold : R;
  tolerance : R;
  padding : R;
  maxAttempts : Z;
  fontSize : R;
  fontFamily : string;
  textColor : string;
  backgroundColor : string;
  margin : R;
  circular : bool;
  circularBackgroundColor : string;
  maxTextFit : bool;
  palette : option string;
  format : string;
  transparent : bool
}.

Definition DEFAULT_OPTIONS : Options :=
  {| width := 800;
     height := 800;
     minRadius := 3;
     maxRadius := 20;
     onColor := VString "#FF6B35";
     offColor := VString "#4ECDC4";
     luminanceThreshold := 0.5;
     tolerance := 0.1;
     padding := 0;
     maxAttempts := 10000;
     fontSize := 300;
     fontFamily := "Arial, sans-serif";
     textColor := "#000000";
     backgroundColor := "#FFFFFF";
     margin := 50;
     circular := false;
     circularBackgroundColor := "#F5F5F5";
     maxTextFit := false;
     palette := None;
     format := "png";
     transparent := false |}.

Definition setColors (on off : value) (o : Options) : Options :=
  {| width := width o; height := height o; minRadius := minRadius o;
     maxRadius := maxRadius o; onColor := on; offColor := off;
     luminanceThreshold := luminanceThreshold o; tolerance := tolerance o;
     padding := padding o; maxAttempts := maxAttempts o; fontSize := fontSize o;
     fontFamily := fontFamily o; textColor := textColor o;
     backgroundColor := backgroundColor o; margin := margin o;
     circular := circular o; circularBackgroundColor := circularBackgroundColor o;
     maxTextFit := maxTextFit o; palette := palette o; format := format o;
     transparent := transparent o |}.

(** [{...o, palette: p}] and [{...o, maxAttempts: n}]. *)
Definition withPalette (p : option string) (o : Options) : Options :=
  {| width := width o; height := height o; minRadius := minRadius o;
     maxRadius := maxRadius o; onColor := onColor o; offColor := offColor o;
     luminanceThreshold := luminanceThreshold o; tolerance := tolerance o;
     padding := padding o; maxAttempts := maxAttempts o; fontSize := fontSize o;
     fontFamily := fontFamily o; textColor := textColor o;
     backgroundColor := backgroundColor o; margin := margin o;
     circular := circular o; circularBackgroundColor := circularBackgroundColor o;
     maxTextFit := maxTextFit o; palette := p; format := format o;
     transparent := transparent o |}.

Definition withMaxAttempts (n : Z) (o : Options) : Options :=
  {| width := width o; height := height o; minRadius := minRadius o;
     maxRadius := maxRadius o; onColor := onColor o; offColor := offColor o;
     luminanceThreshold := luminanceThreshold o; tolerance := tolerance o;
     padding := padding o; maxAttempts := n; fontSize := fontSize o;
     fontFamily := fontFamily o; textColor := textColor o;
     backgroundColor := backgroundColor o; margin := margin o;
     circular := circular o; circularBackgroundColor := circularBackgroundColor o;
     maxTextFit := maxTextFit o; palette := palette o; format := format o;
     transparent := transparent o |}.

Definition quote : string := String (ascii_of_nat 34) EmptyString.

Definition notFoundWarning (paletteName : string) : string :=
  ("Warning: Palette " ++ quote ++ paletteName ++ quote
     ++ " not found. Using default colors.")%string.

(** The constructor, from the merged options [{...DEFAULT_OPTIONS,
    ...options}] on: the options the instance keeps and the lines sent
    to [console.warn]. *)
Definition constructor (merged : Options) : Options * list string :=
  match palette merged with
  | None => (merged, [])
  | Some paletteName =>
      if String.eqb paletteName EmptyString then (merged, [])
      else
        match ColorPalettes.getPalette paletteName with
        | ColorPalettes.Own p =>
            (setColors (VString (ColorPalettes.onColor p))
                       (VString (ColorPalettes.offColor p)) merged, [])
        | ColorPalettes.Inherited _ =>
            (setColors VUndefined VUndefined merged, [])
        | ColorPalettes.Absent =>
            (merged, [notFoundWarning paletteName])
        end
  end.

Record TextConstraints : Type := mkTextConstraints {
  maxTextWidth : R;
  maxTextHeight : R
}.

Definition _calculateTextConstraints (o : Options) : TextConstraints :=
  if circular o then
    let circleRadius := Rmin (width o) (height o) / 2 - margin o in
    let textRadiusRatio := if maxTextFit o then 0.92 else 0.85 in
    let textRadius := circleRadius * textRadiusRatio in
    let widthRatio := if maxTextFit o then 0.95 else 0.9 in
    let heightRatio := if maxTextFit o then 0.85 else 0.8 in
    {| maxTextWidth := textRadius * 2 * widthRatio;
       maxTextHeight := textRadius * 2 * heightRatio |}
  else
    let effectiveWidth := width o - margin o * 2 in
    let effectiveHeight := height o - margin o * 2 in
    {| maxTextWidth := effectiveWidth * 0.8;
       maxTextHeight := effectiveHeight * 0.8 |}.

(** The font size [generate] computes before it renders the text: the
    fitter run on the text constraints of the options. *)
Definition adjustedFontSize (measureText : R -> string -> string -> TextProcessor.TextMetrics)
           (o : Options) (text : string) (fuel : nat) : outcome R :=
  let constraints0 := _calculateTextConstraints o in
  TextProcessor.calculateOptimalFontSize
    measureText text (maxTextWidth constraints0) (maxTextHeight constraints0)
    (fontFamily o) fuel (fontSize o).

(** The variables of the loop of [_generateCircles], with the number of
    draws made from [Math.random] and a count of the passes made, which
    the source does not keep. *)
Record LoopState : Type := mkLoopState {
  circles : list CirclePlacer.Circle;
  attempts : Z;
  currentMaxRadius : R;
  drawn : nat;
  iterations : nat
}.

Section Packing.

Variable options : Options.
Variable rnd : nat -> R.
Variable luminanceMap : list (list bool).
Variable sampleFuel : nat.

Definition constraints : CirclePlacer.Constraints :=
  {| CirclePlacer.width := width options;
     CirclePlacer.height := height options;
     CirclePlacer.margin := margin options;
     CirclePlacer.circular := circular options;
     CirclePlacer.centerX := width options / 2;
     CirclePlacer.centerY := height options / 2;
     CirclePlacer.padding := padding options |}.

Definition colorOptions : CirclePlacer.ColorOptions :=
  {| CirclePlacer.tolerance := tolerance options;
     CirclePlacer.onColor := onColor options;
     CirclePlacer.offColor := offColor options;
     CirclePlacer.mapWidth := width options;
     CirclePlacer.mapHeight := height options |}.

Definition initialState : LoopState :=
  {| circles := []; attempts := 0; currentMaxRadius := maxRadius options;
     drawn := 0; iterations := 0 |}.

(** The first half of the loop body: the candidate, its validation and
    its colour; the result is the circle list and the counter. *)
Definition place (st : LoopState) : outcome (list CirclePlacer.Circle * Z * nat) :=
  let '(position, drawn1) :=
    CirclePlacer.generateRandomPosition constraints rnd (drawn st) in
  let radius :=
    minRadius options + rnd drawn1 * (currentMaxRadius st - minRadius options) in
  let drawn2 := S drawn1 in
  if CirclePlacer.isValidPlacement (fst position) (snd position) radius
                                   (circles st) constraints
  then
    bind (CirclePlacer.determineCircleColor sampleFuel (fst position) (snd position)
                                            radius luminanceMap colorOptions)
         (fun color =>
            if truthy color then
              Returned (circles st
                          ++ [CirclePlacer.mkCircle (fst position) (snd position)
                                                    radius color],
                        0%Z, drawn2)
            else Returned (circles st, (attempts st + 1)%Z, drawn2))
  else Returned (circles st, (attempts st + 1)%Z, drawn2).

(** One pass of the loop: [place], then the reduction of the radius
    ceiling. *)
Definition iteration (st : LoopState) : outcome LoopState :=
  bind (place st)
       (fun '(circles', attempts', drawn') =>
          if (1000 <? attempts')%Z
             && gtb (currentMaxRadius st) (minRadius options + 1)
          then
            Returned {| circles := circles'; attempts := 0;
                        currentMaxRadius := currentMaxRadius st * 0.98;
                        drawn := drawn'; iterations := S (iterations st) |}
          else
            Returned {| circles := circles'; attempts := attempts';
                        currentMaxRadius := currentMaxRadius st;
                        drawn := drawn'; iterations := S (iterations st) |}).

(** [while (attempts < maxAttempts)] *)
Fixpoint whileLoop (fuel : nat) (st : LoopState) : outcome LoopState :=
  if (attempts st <? maxAttempts options)%Z then
    match fuel with
    | O => OutOfFuel
    | S fuel' => bind (iteration st) (whileLoop fuel')
    end
  else Returned st.

Definition run (fuel : nat) : outcome LoopState := whileLoop fuel initialState.

Definition _generateCircles (fuel : nat) : outcome (list CirclePlacer.Circle) :=
  bind (run fuel) (fun st => Returned (circles st)).

End Packing.

End ColorVisionGenerator.

(** ** The luminance formula and the geometric invariants as the
    specification words them *)

Module Spec.

Local Open Scope R_scope.

(** The sRGB-to-linear transfer function of the specification. *)
Definition lin (c : R) : R :=
  if Rle_dec c 0.04045 then c / 12.92 else Rpower ((c + 0.055) / 1.055) 2.4.

(** [Y] for 8-bit channels [r], [g], [b]. *)
Definition Y (r g b : byte) : R :=
  0.2126 * lin (CanvasUtils.byteValue r / 255)
  + 0.7152 * lin (CanvasUtils.byteValue g / 255)
  + 0.0722 * lin (CanvasUtils.byteValue b / 255).

(** Distance between the centres of two circles. *)
Definition distance (a b : CirclePlacer.Circle) : R :=
  sqrt ((CirclePlacer.x a - CirclePlacer.x b) * (CirclePlacer.x a - CirclePlacer.x b)
        + (CirclePlacer.y a - CirclePlacer.y b) * (CirclePlacer.y a - CirclePlacer.y b)).

(** Any two circles at different places of the list are at least the sum
    of their radii and the padding apart. *)
Definition nonOverlapping (padding : R) (circles : list CirclePlacer.Circle) : Prop :=
  forall (i j : nat) (a b : CirclePlacer.Circle),
    i <> j ->
    nth_error circles i = Some a ->
    nth_error circles j = Some b ->
    CirclePlacer.radius a + CirclePlacer.radius b + padding <= distance a b.

Definition distanceFromCenter (c : CirclePlacer.Constraints) (a : CirclePlacer.Circle) : R :=
  sqrt ((CirclePlacer.x a - CirclePlacer.centerX c) ^ 2
        + (CirclePlacer.y a - CirclePlacer.centerY c) ^ 2).

(** The bounding box of the circle is inside the canvas less the margin,
    and in circular mode the circle is inside the inscribed disk. *)
Definition withinBounds (c : CirclePlacer.Constraints) (a : CirclePlacer.Circle) : Prop :=
  CirclePlacer.margin c <= CirclePlacer.x a - CirclePlacer.radius a
  /\ CirclePlacer.x a + CirclePlacer.radius a <= CirclePlacer.width c - CirclePlacer.margin c
  /\ CirclePlacer.margin c <= CirclePlacer.y a - CirclePlacer.radius a
  /\ CirclePlacer.y a + CirclePlacer.radius a <= CirclePlacer.height c - CirclePlacer.margin c
  /\ (CirclePlacer.circular c = true ->
      distanceFromCenter c a + CirclePlacer.radius a
      <= Rmin (CirclePlacer.width c) (CirclePlacer.height c) / 2 - CirclePlacer.margin c).

End Spec.

(** The entry [mask[y][x]] of a mask, when there is one. *)
Definition maskAt (mask : list (list bool)) (x y : nat) : option bool :=
  match nth_error mask y with
  | Some row => nth_error row x
  | None => None
  end.

(** The three colour channels of pixel [(x, y)] in the buffer of a canvas. *)
Definition pixelAt (canvas : CanvasUtils.Canvas) (x y : nat)
  : option byte * option byte * option byte :=
  let idx := ((y * CanvasUtils.width canvas + x) * 4)%nat in
  (nth_error (CanvasUtils.data canvas) idx,
   nth_error (CanvasUtils.data canvas) (idx + 1),
   nth_error (CanvasUtils.data canvas) (idx + 2)).

(** ** Masks *)

(** Every entry of the mask is [false]. *)
Definition allFalse (mask : list (list bool)) : Prop :=
  Forall (Forall (fun b : bool => b = false)) mask.

(** Every entry of the mask is [true] and every row is at least
    [mapWidth] long. *)
Definition allTrue (mapWidth : R) (mask : list (list bool)) : Prop :=
  Forall (fun row : list bool =>
            Forall (fun b : bool => b = true) row
            /\ (mapWidth <= INR (List.length row))%R) mask.

(** The mask has a row for every [py] that passes the bounds test. *)
Definition rowsCover (mapHeight : R) (mask : list (list bool)) : Prop :=
  forall py : Z,
    (0 <= py)%Z -> (IZR py < mapHeight)%R -> nth_error mask (Z.to_nat py) <> None.

(** The sample at offset [(dx, dy)] from the centre [(x0, y0)] is in the
    disk and its pixel is in the map. *)
Definition sampleCounts (x0 y0 radius0 mapWidth0 mapHeight0 dx dy : R) : Prop :=
  (dx * dx + dy * dy <= radius0 * radius0)%R
  /\ (0 <= Int_part (x0 + dx))%Z /\ (IZR (Int_part (x0 + dx)) < mapWidth0)%R
  /\ (0 <= Int_part (y0 + dy))%Z /\ (IZR (Int_part (y0 + dy)) < mapHeight0)%R.

(** ** Strings *)

(** Some code unit of the string is white space. *)
Fixpoint hasWhiteSpace (s : string) : bool :=
  match s with
  | EmptyString => false
  | String c rest => isWhiteSpace c || hasWhiteSpace rest
  end.

(** The first code unit of the string, if any, is white space. *)
Definition startsWithWhiteSpace (s : string) : bool :=
  match s with
  | EmptyString => false
  | String c _ => isWhiteSpace c
  end.

(** The last code unit of the string, if any, is white space. *)
Fixpoint endsWithWhiteSpace (s : string) : bool :=
  match s with
  | EmptyString => false
  | String c EmptyString => isWhiteSpace c
  | String _ rest => endsWithWhiteSpace rest
  end.

(** ** Invariants of the packing loop *)

(** The counter never exceeds the number of passes made, is never
    negative, and never passes the budget. *)
Definition counted (options : ColorVisionGenerator.Options)
           (st : ColorVisionGenerator.LoopState) : Prop :=
  (0 <= ColorVisionGenerator.attempts st
   <= Z.of_nat (ColorVisionGenerator.iterations st))%Z
  /\ (ColorVisionGenerator.attempts st
      <= Z.max 0 (ColorVisionGenerator.maxAttempts options))%Z.

(** ** The numeric code in double precision

    The placement tests, the sampling loops, the packing loop and the
    luminance comparison once more, this time on the doubles the code
    computes with.  [+], [-], [*], [/] and [Math.sqrt] are the correctly
    rounded operations of IEEE 754 binary64; [<], [<=] and [===] are its
    comparisons, false as soon as an operand is NaN. *)

Module Binary64.

Import PrimFloat SpecFloat FloatOps.
Local Open Scope float_scope.

(** [a > b] and [a >= b]. *)
Definition gtb (a b : float) : bool := b <? a.
Definition geb (a b : float) : bool := b <=? a.

(** The double that holds a counter: a natural number that was reached
    from 0 in steps of one, which a double represents exactly up to
    [2 ^ 53]. *)
Definition ofNat (n : nat) : float := of_uint63 (Uint63.of_Z (Z.of_nat n)).

(** The double of an integer of magnitude at most [2 ^ 53]. *)
Definition ofZ (n : Z) : float :=
  match n with
  | Z0 => zero
  | Zpos _ => of_uint63 (Uint63.of_Z n)
  | Zneg p => - of_uint63 (Uint63.of_Z (Zpos p))
  end.

(** The real number that a finite double stands for; NaN and the
    infinities stand for no number and are given 0. *)
Definition exact (v : float) : R :=
  match Prim2SF v with
  | S754_finite s m e =>
      if (0 <=? e)%Z then IZR (cond_Zopp s (Zpos m) * 2 ^ e)
      else (IZR (cond_Zopp s (Zpos m)) / IZR (2 ^ (- e)))%R
  | S754_zero _ | S754_infinity _ | S754_nan => 0%R
  end.

(** The index that [a[v]] reads in an array [a]: the integer [v] when
    [v] is one and is not negative ([-0] reads index 0). *)
Definition index (v : float) : option nat :=
  match Prim2SF v with
  | S754_zero _ => Some 0%nat
  | S754_finite false m e =>
      if (0 <=? e)%Z then Some (Z.to_nat (Zpos m * 2 ^ e))
      else if (Zpos m mod 2 ^ (- e) =? 0)%Z
           then Some (Z.to_nat (Zpos m / 2 ^ (- e)))
           else None
  | S754_finite true _ _ | S754_infinity _ | S754_nan => None
  end.

(** [a[v]], undefined when [v] is no index of [a]. *)
Definition get {A : Type} (a : list A) (v : float) : option A :=
  match index v with
  | Some i => nth_error a i
  | None => None
  end.

Module Math.

Definition PI : float := 3.141592653589793.

(** [Math.max] and [Math.min]: NaN when an argument is NaN, and [-0]
    below [+0]. *)
Definition max (a b : float) : float :=
  if is_nan a || is_nan b then nan
  else if a <? b then b
  else if b <? a then a
  else if get_sign a then b else a.

Definition min (a b : float) : float :=
  if is_nan a || is_nan b then nan
  else if a <? b then a
  else if b <? a then b
  else if get_sign a then a else b.

(** [Math.floor]: the largest integer not above the argument; a double
    with a non-negative exponent is an integer already, and so are the
    zeros; NaN and the infinities are returned as they are. *)
Definition floor (v : float) : float :=
  match Prim2SF v with
  | S754_finite s m e =>
      if (e <? 0)%Z then ofZ (cond_Zopp s (Zpos m) / 2 ^ (- e)) else v
  | S754_zero _ | S754_infinity _ | S754_nan => v
  end.

(** The functions whose result ECMAScript leaves to the implementation
    (an approximation of the mathematical value): exponentiation, both
    as [Math.pow] and as the operator, cosine and sine. *)
Record Implementation : Type := mkImplementation {
  pow : float -> float -> float;
  cos : float -> float;
  sin : float -> float
}.

End Math.

(** *** utils/luminance.js *)

Module Luminance.

Section WithMath.

Variable math : Math.Implementation.

Definition sRGBtoLin (channel : float) : float :=
  if channel <=? 0.04045 then channel / 12.92
  else Math.pow math ((channel + 0.055) / 1.055) 2.4.

Definition getLuminance (r g b : float) : float :=
  let vR := r / 255 in
  let vG := g / 255 in
  let vB := b / 255 in
  let Y := 0.2126 * sRGBtoLin vR + 0.7152 * sRGBtoLin vG + 0.0722 * sRGBtoLin vB in
  Y.

End WithMath.

End Luminance.

(** *** utils/canvas-utils.js *)

Module CanvasUtils.

Definition byteValue (b : byte) : float :=
  of_uint63 (Uint63.of_Z (Z.of_N (Byte.to_N b))).

Section WithMath.

Variable math : Math.Implementation.

(** [getLuminance(r, g, b) < luminanceThreshold]; a channel read past
    the end of the buffer is undefined, the luminance is then NaN and the
    comparison false. *)
Definition isDark (r g b : option byte) (luminanceThreshold : float) : bool :=
  match r, g, b with
  | Some r, Some g, Some b =>
      Luminance.getLuminance math (byteValue r) (byteValue g) (byteValue b)
      <? luminanceThreshold
  | _, _, _ => false
  end.

Definition createLuminanceMap (canvas : CanvasUtils.Canvas) (threshold : option float)
  : list (list bool) :=
  let luminanceThreshold := match threshold with Some t => t | None => 0.5 end in
  map (fun y =>
         map (fun x =>
                let idx := ((y * CanvasUtils.width canvas + x) * 4)%nat in
                let r := nth_error (CanvasUtils.data canvas) idx in
                let g := nth_error (CanvasUtils.data canvas) (idx + 1) in
                let b := nth_error (CanvasUtils.data canvas) (idx + 2) in
                isDark r g b luminanceThreshold)
             (seq 0 (CanvasUtils.width canvas)))
      (seq 0 (CanvasUtils.height canvas)).

End WithMath.

End CanvasUtils.

(** *** utils/circle-placer.js *)

Module CirclePlacer.

Record Constraints : Type := mkConstraints {
  width : float;
  height : float;
  margin : float;
  circular : bool;
  centerX : float;
  centerY : float;
  padding : float
}.

Record Circle : Type := mkCircle {
  x : float;
  y : float;
  radius : float;
  color : value
}.

Record ColorOptions : Type := mkColorOptions {
  tolerance : float;
  onColor : value;
  offColor : value;
  mapWidth : float;
  mapHeight : float
}.

(** The loop over [existingCircles]: [false] at the first circle that is
    too close, [true] when none is. *)
Fixpoint clearOfAll (x0 y0 radius0 padding0 : float) (existingCircles : list Circle) : bool :=
  match existingCircles with
  | [] => true
  | circle :: rest =>
      let dx := x0 - x circle in
      let dy := y0 - y circle in
      let distance := sqrt (dx * dx + dy * dy) in
      if distance <? radius0 + radius circle + padding0 then false
      else clearOfAll x0 y0 radius0 padding0 rest
  end.

Section WithMath.

Variable math : Math.Implementation.

Definition isValidPlacement (x0 y0 radius0 : float) (existingCircles : list Circle)
           (constraints : Constraints) : bool :=
  if (x0 - radius0 <? margin constraints)
     || gtb (x0 + radius0) (width constraints - margin constraints)
     || (y0 - radius0 <? margin constraints)
     || gtb (y0 + radius0) (height constraints - margin constraints)
  then false
  else
    if circular constraints
       && (let circleRadius :=
             Math.min (width constraints) (height constraints) / 2 - margin constraints in
           let distanceFromCenter :=
             sqrt (Math.pow math (x0 - centerX constraints) 2
                   + Math.pow math (y0 - centerY constraints) 2) in
           gtb (distanceFromCenter + radius0) circleRadius)
    then false
    else clearOfAll x0 y0 radius0 (padding constraints) existingCircles.

(** Two draws are made in either mode; the result is the position and the
    number of draws made after the call. *)
Definition generateRandomPosition (constraints : Constraints)
           (rnd : nat -> float) (drawn : nat) : (float * float) * nat :=
  if circular constraints then
    let circleRadius :=
      Math.min (width constraints) (height constraints) / 2 - margin constraints in
    let angle := rnd drawn * 2 * Math.PI in
    let distance := rnd (S drawn) * circleRadius in
    ((centerX constraints + Math.cos math angle * distance,
      centerY constraints + Math.sin math angle * distance), S (S drawn))
  else
    let effectiveWidth := width constraints - margin constraints * 2 in
    let effectiveHeight := height constraints - margin constraints * 2 in
    ((margin constraints + rnd drawn * effectiveWidth,
      margin constraints + rnd (S drawn) * effectiveHeight), S (S drawn)).

End WithMath.

Section Sampling.

Variables (x0 y0 radius0 : float).
Variable luminanceMap : list (list bool).
Variables (mapWidth0 mapHeight0 : float).

Definition samples : float := Math.max 8 radius0.

(** The body of the inner loop at offset [(dx, dy)]; the pair is
    [(inPixels, totalPixels)].  Reading a row that does not exist
    throws; reading past the end of a row gives undefined, which is
    falsy. *)
Definition samplePoint (dx dy : float) (counts : nat * nat) : outcome (nat * nat) :=
  if dx * dx + dy * dy <=? radius0 * radius0 then
    let px := Math.floor (x0 + dx) in
    let py := Math.floor (y0 + dy) in
    if geb px 0 && (px <? mapWidth0) && geb py 0 && (py <? mapHeight0)
    then
      let totalPixels := S (snd counts) in
      match get luminanceMap py with
      | None => Throws
      | Some row =>
          match get row px with
          | Some true => Returned (S (fst counts), totalPixels)
          | Some false | None => Returned (fst counts, totalPixels)
          end
      end
    else Returned counts
  else Returned counts.

(** [for (dx = ...; dx <= radius; dx += radius / samples)] *)
Fixpoint rowLoop (fuel : nat) (dy dx : float) (counts : nat * nat) : outcome (nat * nat) :=
  if dx <=? radius0 then
    match fuel with
    | O => OutOfFuel
    | S fuel' =>
        bind (samplePoint dx dy counts)
             (rowLoop fuel' dy (dx + radius0 / samples))
    end
  else Returned counts.

(** [for (dy = ...; dy <= radius; dy += radius / samples)] *)
Fixpoint gridLoop (rowFuel fuel : nat) (dy : float) (counts : nat * nat)
  : outcome (nat * nat) :=
  if dy <=? radius0 then
    match fuel with
    | O => OutOfFuel
    | S fuel' =>
        bind (rowLoop rowFuel dy (- radius0) counts)
             (gridLoop rowFuel fuel' (dy + radius0 / samples))
    end
  else Returned counts.

Definition sampleCircle (fuel : nat) : outcome (nat * nat) :=
  gridLoop fuel fuel (- radius0) (0%nat, 0%nat).

End Sampling.

(** The part of [determineCircleColor] after the sampling loops. *)
Definition classify (options : ColorOptions) (counts : nat * nat) : value :=
  let inPixels := fst counts in
  let totalPixels := snd counts in
  if (totalPixels =? 0)%nat then VNull
  else
    let inRatio := ofNat inPixels / ofNat totalPixels in
    if gtb inRatio (tolerance options) && (inRatio <? 1 - tolerance options)
    then VNull
    else if gtb inRatio 0.5 then onColor options else offColor options.

Definition determineCircleColor (fuel : nat) (x0 y0 radius0 : float)
           (luminanceMap : list (list bool)) (options : ColorOptions) : outcome value :=
  bind (sampleCircle x0 y0 radius0 luminanceMap
                     (mapWidth options) (mapHeight options) fuel)
       (fun counts => Returned (classify options counts)).

End CirclePlacer.

(** *** colorvision-generator.js *)

Module ColorVisionGenerator.

(** The options that [_generateCircles] reads. *)
Record Options : Type := mkOptions {
  width : float;
  height : float;
  minRadius : float;
  maxRadius : float;
  onColor : value;
  offColor : value;
  tolerance : float;
  padding : float;
  maxAttempts : Z;
  margin : float;
  circular : bool
}.

(** The variables of the loop of [_generateCircles], with the number of
    draws made from [Math.random]. *)
Record LoopState : Type := mkLoopState {
  circles : list CirclePlacer.Circle;
  attempts : Z;
  currentMaxRadius : float;
  drawn : nat
}.

Section Packing.

Variable math : Math.Implementation.
Variable options : Options.
Variable rnd : nat -> float.
Variable luminanceMap : list (list bool).
Variable sampleFuel : nat.

Definition constraints : CirclePlacer.Constraints :=
  {| CirclePlacer.width := width options;
     CirclePlacer.height := height options;
     CirclePlacer.margin := margin options;
     CirclePlacer.circular := circular options;
     CirclePlacer.centerX := width options / 2;
     CirclePlacer.centerY := height options / 2;
     CirclePlacer.padding := padding options |}.

Definition colorOptions : CirclePlacer.ColorOptions :=
  {| CirclePlacer.tolerance := tolerance options;
     CirclePlacer.onColor := onColor options;
     CirclePlacer.offColor := offColor options;
     CirclePlacer.mapWidth := width options;
     CirclePlacer.mapHeight := height options |}.

Definition initialState : LoopState :=
  {| circles := []; attempts := 0; currentMaxRadius := maxRadius options;
     drawn := 0 |}.

(** The first half of the loop body: the candidate, its validation and
    its colour; the result is the circle list and the counter. *)
Definition place (st : LoopState) : outcome (list CirclePlacer.Circle * Z * nat) :=
  let '(position, drawn1) :=
    CirclePlacer.generateRandomPosition math constraints rnd (drawn st) in
  let radius :=
    minRadius options + rnd drawn1 * (currentMaxRadius st - minRadius options) in
  let drawn2 := S drawn1 in
  if CirclePlacer.isValidPlacement math (fst position) (snd position) radius
                                   (circles st) constraints
  then
    bind (CirclePlacer.determineCircleColor sampleFuel (fst position) (snd position)
                                            radius luminanceMap colorOptions)
         (fun color =>
            if truthy color then
              Returned (circles st
                          ++ [CirclePlacer.mkCircle (fst position) (snd position)
                                                    radius color],
                        0%Z, drawn2)
            else Returned (circles st, (attempts st + 1)%Z, drawn2))
  else Returned (circles st, (attempts st + 1)%Z, drawn2).

(** One pass of the loop: [place], then the reduction of the radius
    ceiling. *)
Definition iteration (st : LoopState) : outcome LoopState :=
  bind (place st)
       (fun '(circles', attempts', drawn') =>
          if (1000 <? attempts')%Z
             && gtb (currentMaxRadius st) (minRadius options + 1)
          then
            Returned {| circles := circles'; attempts := 0;
                        currentMaxRadius := currentMaxRadius st * 0.98;
                        drawn := drawn' |}
          else
            Returned {| circles := circles'; attempts := attempts';
                        currentMaxRadius := currentMaxRadius st;
                        drawn := drawn' |}).

(** [while (attempts < maxAttempts)] *)
Fixpoint whileLoop (fuel : nat) (st : LoopState) : outcome LoopState :=
  if (attempts st <? maxAttempts options)%Z then
    match fuel with
    | O => OutOfFuel
    | S fuel' => bind (iteration st) (whileLoop fuel')
    end
  else Returned st.

Definition run (fuel : nat) : outcome LoopState := whileLoop fuel initialState.

Definition _generateCircles (fuel : nat) : outcome (list CirclePlacer.Circle) :=
  bind (run fuel) (fun st => Returned (circles st)).

End Packing.

End ColorVisionGenerator.

(** *** The claims on computed numbers *)

Module Spec.

(** The sRGB-to-linear transfer function and the luminance [Y] of the
    specification, every operation rounded to a double. *)
Definition lin (math : Math.Implementation) (c : float) : float :=
  if c <=? 0.04045 then c / 12.92 else Math.pow math ((c + 0.055) / 1.055) 2.4.

Definition Y (math : Math.Implementation) (r g b : byte) : float :=
  0.2126 * lin math (CanvasUtils.byteValue r / 255)
  + 0.7152 * lin math (CanvasUtils.byteValue g / 255)
  + 0.0722 * lin math (CanvasUtils.byteValue b / 255).

(** The distance between the centres of two circles and the sum it is
    compared with, both as computed; in [isValidPlacement] the first
    circle is the candidate and the second one of the existing
    circles. *)
Definition distance (a b : CirclePlacer.Circle) : float :=
  let dx := CirclePlacer.x a - CirclePlacer.x b in
  let dy := CirclePlacer.y a - CirclePlacer.y b in
  sqrt (dx * dx + dy * dy).

Definition reach (padding : float) (a b : CirclePlacer.Circle) : float :=
  CirclePlacer.radius a + CirclePlacer.radius b + padding.

(** Any two circles at different places of the list are, as computed,
    not nearer to each other than the sum of their radii and of the
    padding. *)
Definition nonOverlapping (padding : float) (circles : list CirclePlacer.Circle) : Prop :=
  forall (i j : nat) (a b : CirclePlacer.Circle),
    i <> j ->
    nth_error circles i = Some a ->
    nth_error circles j = Some b ->
    (distance a b <? reach padding a b) = false.

Definition distanceFromCenter (math : Math.Implementation)
           (c : CirclePlacer.Constraints) (a : CirclePlacer.Circle) : float :=
  sqrt (Math.pow math (CirclePlacer.x a - CirclePlacer.centerX c) 2
        + Math.pow math (CirclePlacer.y a - CirclePlacer.centerY c) 2).

(** The radius of the inscribed disk. *)
Definition circleRadius (c : CirclePlacer.Constraints) : float :=
  Math.min (CirclePlacer.width c) (CirclePlacer.height c) / 2 - CirclePlacer.margin c.

(** As computed, no side of the bounding box of the circle is outside
    the canvas less the margin, and in circular mode the circle does not
    reach beyond the inscribed disk. *)
Definition withinBounds (math : Math.Implementation)
           (c : CirclePlacer.Constraints) (a : CirclePlacer.Circle) : Prop :=
  (CirclePlacer.x a - CirclePlacer.radius a <? CirclePlacer.margin c) = false
  /\ gtb (CirclePlacer.x a + CirclePlacer.radius a)
         (CirclePlacer.width c - CirclePlacer.margin c) = false
  /\ (CirclePlacer.y a - CirclePlacer.radius a <? CirclePlacer.margin c) = false
  /\ gtb (CirclePlacer.y a + CirclePlacer.radius a)
         (CirclePlacer.height c - CirclePlacer.margin c) = false
  /\ (CirclePlacer.circular c = true ->
      gtb (distanceFromCenter math c a + CirclePlacer.radius a) (circleRadius c) = false).

(** The offsets that a loop [for (d = start; d <= radius; d += radius /
    samples)] runs through, starting from [d]. *)
Fixpoint offsets (radius0 : float) (fuel : nat) (d : float) : outcome (list float) :=
  if d <=? radius0 then
    match fuel with
    | O => OutOfFuel
    | S fuel' =>
        bind (offsets radius0 fuel' (d + radius0 / CirclePlacer.samples radius0))
             (fun ds => Returned (d :: ds))
    end
  else Returned [].

Section Samples.

Variables (x0 y0 radius0 : float).
Variable luminanceMap : list (list bool).
Variables (mapWidth0 mapHeight0 : float).

(** The sample at the offsets [(dy, dx)] lies in the disk and its pixel
    in the bounds of the map: it is counted in [totalPixels]. *)
Definition inDiskAndMap (sample : float * float) : bool :=
  let dy := fst sample in
  let dx := snd sample in
  (dx * dx + dy * dy <=? radius0 * radius0)
  && (geb (Math.floor (x0 + dx)) 0 && (Math.floor (x0 + dx) <? mapWidth0)
      && geb (Math.floor (y0 + dy)) 0 && (Math.floor (y0 + dy) <? mapHeight0)).

(** The pixel of the sample is a foreground pixel of the map. *)
Definition onForeground (sample : float * float) : bool :=
  let dy := fst sample in
  let dx := snd sample in
  match get luminanceMap (Math.floor (y0 + dy)) with
  | Some row =>
      match get row (Math.floor (x0 + dx)) with
      | Some true => true
      | Some false | None => false
      end
  | None => false
  end.

(** The samples of the grid that are counted in [totalPixels], and
    those of them counted in [inPixels]. *)
Definition counted (grid : list (float * float)) : list (float * float) :=
  filter inDiskAndMap grid.

Definition foreground (grid : list (float * float)) : list (float * float) :=
  filter onForeground (counted grid).

(** The counters [(inPixels, totalPixels)] after the samples of the
    grid, from the counters before them. *)
Definition tally (counts : nat * nat) (grid : list (float * float)) : nat * nat :=
  (fst counts + List.length (foreground grid), snd counts + List.length (counted grid))%nat.

End Samples.

(** Every entry of the mask is [true], and every row has an entry for
    each of the columns. *)
Definition allTrue (columns : nat) (mask : list (list bool)) : Prop :=
  Forall (fun row : list bool =>
            Forall (fun b : bool => b = true) row
            /\ (columns <= List.length row)%nat) mask.

End Spec.

End Binary64.

(** The circle and the constraints over the real numbers that a circle
    and constraints of doubles stand for. *)
Definition exactCircle (a : Binary64.CirclePlacer.Circle) : CirclePlacer.Circle :=
  CirclePlacer.mkCircle (Binary64.exact (Binary64.CirclePlacer.x a))
                        (Binary64.exact (Binary64.CirclePlacer.y a))
                        (Binary64.exact (Binary64.CirclePlacer.radius a))
                        (Binary64.CirclePlacer.color a).

Definition exactConstraints (c : Binary64.CirclePlacer.Constraints)
  : CirclePlacer.Constraints :=
  CirclePlacer.mkConstraints
    (Binary64.exact (Binary64.CirclePlacer.width c))
    (Binary64.exact (Binary64.CirclePlacer.height c))
    (Binary64.exact (Binary64.CirclePlacer.margin c))
    (Binary64.CirclePlacer.circular c)
    (Binary64.exact (Binary64.CirclePlacer.centerX c))
    (Binary64.exact (Binary64.CirclePlacer.centerY c))
    (Binary64.exact (Binary64.CirclePlacer.padding c)).

(** ** Inputs used in examples *)

(** A canvas of one black pixel, and one of a black and a white pixel. *)
Definition blackPixel : CanvasUtils.Canvas :=
  CanvasUtils.mkCanvas 1 1 ["000"; "000"; "000"; "255"]%byte.

Definition blackAndWhite : CanvasUtils.Canvas :=
  CanvasUtils.mkCanvas 2 1
    ["000"; "000"; "000"; "255"; "255"; "255"; "255"; "255"]%byte.

(** A measurement under which nothing fits in a hundred pixels, and one
    under which every glyph is 0.6 times the font size wide. *)
Definition tooWide : R -> string -> string -> TextProcessor.TextMetrics :=
  fun _ _ _ => TextProcessor.mkTextMetrics 1000 None None.

Definition proportional : R -> string -> string -> TextProcessor.TextMetrics :=
  fun fontSize _ s =>
    TextProcessor.mkTextMetrics (fontSize * 0.6 * INR (String.length s)) None None.

(** A mask of one row, half background and half foreground, and colour
    options whose tolerance is one half. *)
Definition halfMask : list (list bool) :=
  [[false; false; false; false; true; true; true; true]].

Definition halfOptions : CirclePlacer.ColorOptions :=
  CirclePlacer.mkColorOptions 0.5 (VString "#FF6B35") (VString "#4ECDC4") 8 1.

(** A run of the packing loop: a canvas of 100 by 100 without margin,
    circles of radius 4, a budget of one attempt, a mask without
    foreground, and draws that place a circle at (10, 10), one at
    (30, 10), and then propose the corner (0, 0). *)
Definition smallOptions : ColorVisionGenerator.Options :=
  {| ColorVisionGenerator.width := 100;
     ColorVisionGenerator.height := 100;
     ColorVisionGenerator.minRadius := 4;
     ColorVisionGenerator.maxRadius := 4;
     ColorVisionGenerator.onColor := VString "#FF6B35";
     ColorVisionGenerator.offColor := VString "#4ECDC4";
     ColorVisionGenerator.luminanceThreshold := 0.5;
     ColorVisionGenerator.tolerance := 0.1;
     ColorVisionGenerator.padding := 0;
     ColorVisionGenerator.maxAttempts := 1;
     ColorVisionGenerator.fontSize := 300;
     ColorVisionGenerator.fontFamily := "Arial, sans-serif";
     ColorVisionGenerator.textColor := "#000000";
     ColorVisionGenerator.backgroundColor := "#FFFFFF";
     ColorVisionGenerator.margin := 0;
     ColorVisionGenerator.circular := false;
     ColorVisionGenerator.circularBackgroundColor := "#F5F5F5";
     ColorVisionGenerator.maxTextFit := false;
     ColorVisionGenerator.palette := None;
     ColorVisionGenerator.format := "png";
     ColorVisionGenerator.transparent := false |}.

Definition blankMask : list (list bool) := repeat (repeat false 100) 100.

Definition draws : nat -> R :=
  fun k => nth k [0.1; 0.1; 0; 0.3; 0.1; 0]%R 0%R.

Definition firstCircle : CirclePlacer.Circle :=
  CirclePlacer.mkCircle 10 10 4 (VString "#4ECDC4").

Definition secondCircle : CirclePlacer.Circle :=
  CirclePlacer.mkCircle 30 10 4 (VString "#4ECDC4").

Definition smallRunEnd : ColorVisionGenerator.LoopState :=
  {| ColorVisionGenerator.circles := [firstCircle; secondCircle];
     ColorVisionGenerator.attempts := 1;
     ColorVisionGenerator.currentMaxRadius := 4;
     ColorVisionGenerator.drawn := 9;
     ColorVisionGenerator.iterations := 3 |}.

Definition smallRunFirst : ColorVisionGenerator.LoopState :=
  {| ColorVisionGenerator.circles := [firstCircle];
     ColorVisionGenerator.attempts := 0;
     ColorVisionGenerator.currentMaxRadius := 4;
     ColorVisionGenerator.drawn := 3;
     ColorVisionGenerator.iterations := 1 |}.

Definition smallRunSecond : ColorVisionGenerator.LoopState :=
  {| ColorVisionGenerator.circles := [firstCircle; secondCircle];
     ColorVisionGenerator.attempts := 0;
     ColorVisionGenerator.currentMaxRadius := 4;
     ColorVisionGenerator.drawn := 6;
     ColorVisionGenerator.iterations := 2 |}.

(** Constraints of a circular image of 800 by 800 with a margin of 50. *)
Definition roundConstraints : CirclePlacer.Constraints :=
  CirclePlacer.mkConstraints 800 800 50 true 400 400 0.

(** Colour options that accept no mixed circle, over the map of
    [halfMask]. *)
Definition strictOptions : CirclePlacer.ColorOptions :=
  CirclePlacer.mkColorOptions 0 (VString "#FF6B35") (VString "#4ECDC4") 8 1.

(** The options of the small run after the constructor has been given
    the palette name "constructor", and the state in which the run then
    ends. *)
Definition brokenOptions : ColorVisionGenerator.Options :=
  fst (ColorVisionGenerator.constructor
         (ColorVisionGenerator.withPalette (Some "constructor"%string) smallOptions)).

Definition brokenRunEnd : ColorVisionGenerator.LoopState :=
  {| ColorVisionGenerator.circles := [];
     ColorVisionGenerator.attempts := 1;
     ColorVisionGenerator.currentMaxRadius := 4;
     ColorVisionGenerator.drawn := 3;
     ColorVisionGenerator.iterations := 1 |}.

(** A canvas of 100 by 100 whose pixel buffer is empty. *)
Definition emptyCanvas : CanvasUtils.Canvas := CanvasUtils.mkCanvas 100 100 [].

(** The options of a circular image with the largest text fit. *)
Definition roundOptions : ColorVisionGenerator.Options :=
  {| ColorVisionGenerator.width := 800;
     ColorVisionGenerator.height := 800;
     ColorVisionGenerator.minRadius := 3;
     ColorVisionGenerator.maxRadius := 20;
     ColorVisionGenerator.onColor := VString "#FF6B35";
     ColorVisionGenerator.offColor := VString "#4ECDC4";
     ColorVisionGenerator.luminanceThreshold := 0.5;
     ColorVisionGenerator.tolerance := 0.1;
     ColorVisionGenerator.padding := 0;
     ColorVisionGenerator.maxAttempts := 10000;
     ColorVisionGenerator.fontSize := 50;
     ColorVisionGenerator.fontFamily := "Arial";
     ColorVisionGenerator.textColor := "#000000";
     ColorVisionGenerator.backgroundColor := "#FFFFFF";
     ColorVisionGenerator.margin := 50;
     ColorVisionGenerator.circular := true;
     ColorVisionGenerator.circularBackgroundColor := "#F5F5F5";
     ColorVisionGenerator.maxTextFit := true;
     ColorVisionGenerator.palette := None;
     ColorVisionGenerator.format := "png";
     ColorVisionGenerator.transparent := false |}.

(** ** Inputs used in examples on doubles *)

Module DoubleExamples.

Import PrimFloat.
Local Open Scope float_scope.

(** An implementation of the approximated functions that answers only
    what the examples ask of it: the power of exponent 2, as the square
    rounded to a double, and the cosine and the sine of 0; elsewhere it
    answers NaN. *)
Definition exampleMath : Binary64.Math.Implementation :=
  {| Binary64.Math.pow := fun v e => if e =? 2 then v * v else nan;
     Binary64.Math.cos := fun a => if a =? 0 then 1 else nan;
     Binary64.Math.sin := fun a => if a =? 0 then a else nan |}.

(** A canvas of one pixel of channels (0, 0, 1), and the luminance that
    the code computes for it. *)
Definition bluePixel : CanvasUtils.Canvas :=
  CanvasUtils.mkCanvas 1 1 ["000"; "000"; "001"; "255"]%byte.

Definition nearBlack : float := 2.191464821222607e-05.

(** A canvas of 32 by 32 without margin, radii from 3 to 7, a budget of
    one attempt and a mask without foreground. *)
Definition tightOptions : Binary64.ColorVisionGenerator.Options :=
  {| Binary64.ColorVisionGenerator.width := 32;
     Binary64.ColorVisionGenerator.height := 32;
     Binary64.ColorVisionGenerator.minRadius := 3;
     Binary64.ColorVisionGenerator.maxRadius := 7;
     Binary64.ColorVisionGenerator.onColor := VString "#FF6B35";
     Binary64.ColorVisionGenerator.offColor := VString "#4ECDC4";
     Binary64.ColorVisionGenerator.tolerance := 0.1;
     Binary64.ColorVisionGenerator.padding := 0;
     Binary64.ColorVisionGenerator.maxAttempts := 1;
     Binary64.ColorVisionGenerator.margin := 0;
     Binary64.ColorVisionGenerator.circular := false |}.

Definition tightMask : list (list bool) := repeat (repeat false 32) 32.

(** Draws that propose the circle of radius 3 at (4, 16), then the one
    of radius [5 + 2 ^ -50] at (12, 16), then the corner (0, 0). *)
Definition tightDraws : nat -> float :=
  fun k => nth k [0.125; 0.5; 0; 0.375; 0.5; 0.5000000000000002] 0.

Definition tightFirst : Binary64.CirclePlacer.Circle :=
  Binary64.CirclePlacer.mkCircle 4 16 3 (VString "#4ECDC4").

Definition tightSecond : Binary64.CirclePlacer.Circle :=
  Binary64.CirclePlacer.mkCircle 12 16 5.000000000000001 (VString "#4ECDC4").

(** Draws that propose the circle of radius [5 + 2 ^ -50] at (27, 16),
    then the corner (0, 0). *)
Definition edgeDraws : nat -> float :=
  fun k => nth k [0.84375; 0.5; 0.5000000000000002] 0.

Definition edgeCircle : Binary64.CirclePlacer.Circle :=
  Binary64.CirclePlacer.mkCircle 27 16 5.000000000000001 (VString "#4ECDC4").

(** A circular image of 800 by 800 with a margin of 50, a budget of one
    attempt, a mask without foreground, and draws that propose a circle
    of radius 3 at angle 0 and distance 175 from the centre, then twice
    the circle of radius 3 at the centre. *)
Definition diskOptions : Binary64.ColorVisionGenerator.Options :=
  {| Binary64.ColorVisionGenerator.width := 800;
     Binary64.ColorVisionGenerator.height := 800;
     Binary64.ColorVisionGenerator.minRadius := 3;
     Binary64.ColorVisionGenerator.maxRadius := 20;
     Binary64.ColorVisionGenerator.onColor := VString "#FF6B35";
     Binary64.ColorVisionGenerator.offColor := VString "#4ECDC4";
     Binary64.ColorVisionGenerator.tolerance := 0.1;
     Binary64.ColorVisionGenerator.padding := 0;
     Binary64.ColorVisionGenerator.maxAttempts := 1;
     Binary64.ColorVisionGenerator.margin := 50;
     Binary64.ColorVisionGenerator.circular := true |}.

Definition diskMask : list (list bool) := repeat (repeat false 800) 800.

Definition diskDraws : nat -> float :=
  fun k => nth k [0; 0.5; 0] 0.

Definition diskFirst : Binary64.CirclePlacer.Circle :=
  Binary64.CirclePlacer.mkCircle 575 400 3 (VString "#4ECDC4").

Definition diskSecond : Binary64.CirclePlacer.Circle :=
  Binary64.CirclePlacer.mkCircle 400 400 3 (VString "#4ECDC4").

(** Colour options over the map of [halfMask]: with a tolerance of one
    half, and with the double just below one half. *)
Definition evenOptions : Binary64.CirclePlacer.ColorOptions :=
  Binary64.CirclePlacer.mkColorOptions 0.5 (VString "#FF6B35") (VString "#4ECDC4") 8 1.

Definition nearEvenOptions : Binary64.CirclePlacer.ColorOptions :=
  Binary64.CirclePlacer.mkColorOptions 0.49999999999999994
    (VString "#FF6B35") (VString "#4ECDC4") 8 1.

(** Masks of one row of eight pixels, all foreground and all
    background. *)
Definition foregroundRow : list (list bool) := [repeat true 8].

Definition backgroundRow : list (list bool) := [repeat false 8].

End DoubleExamples.

Import DoubleExamples.

(** * Properties *)

(** ** Comparisons *)

Section Comparisons.

Local Open Scope R_scope.

Lemma ltb_true (a b : R) : ltb a b = true <-> a < b.
Proof. unfold ltb; destruct (Rlt_dec a b); split; intros; try easy. Qed.

Lemma ltb_false (a b : R) : ltb a b = false <-> b <= a.
Proof.
  unfold ltb; destruct (Rlt_dec a b); split; intros; try easy; lra.
Qed.

Lemma leb_true (a b : R) : leb a b = true <-> a <= b.
Proof. unfold leb; destruct (Rle_dec a b); split; intros; try easy. Qed.

Lemma leb_false (a b : R) : leb a b = false <-> b < a.
Proof.
  unfold leb; destruct (Rle_dec a b); split; intros; try easy; lra.
Qed.

Lemma gtb_true (a b : R) : gtb a b = true <-> b < a.
Proof. unfold gtb; destruct (Rgt_dec a b); split; intros; try easy. Qed.

Lemma gtb_false (a b : R) : gtb a b = false <-> a <= b.
Proof.
  unfold gtb; destruct (Rgt_dec a b); split; intros; try easy; lra.
Qed.

End Comparisons.

(** ** Luminance classifier *)

Section LuminanceClassifier.

Local Open Scope R_scope.

Lemma lin_sRGBtoLin (c : R) : Luminance.sRGBtoLin c = Spec.lin c.
Proof.
  unfold Luminance.sRGBtoLin, Spec.lin, leb.
  destruct (Rle_dec c 0.04045); reflexivity.
Qed.

Lemma getLuminance_Y (r g b : byte) :
  Luminance.getLuminance (CanvasUtils.byteValue r) (CanvasUtils.byteValue g)
                         (CanvasUtils.byteValue b)
  = Spec.Y r g b.
Proof.
  unfold Luminance.getLuminance, Spec.Y.
  now rewrite !lin_sRGBtoLin.
Qed.

Lemma nth_error_seq_0 (n i : nat) : (i < n)%nat -> nth_error (seq 0 n) i = Some i.
Proof.
  intros Hi.
  rewrite (nth_error_nth' (seq 0 n) 0%nat) by (now rewrite length_seq).
  now rewrite seq_nth.
Qed.

(** Inside the canvas the mask entry is the comparison made on the
    pixel's channels. *)
Lemma maskAt_createLuminanceMap (canvas : CanvasUtils.Canvas) (t : option R) (x y : nat) :
  (x < CanvasUtils.width canvas)%nat ->
  (y < CanvasUtils.height canvas)%nat ->
  maskAt (CanvasUtils.createLuminanceMap canvas t) x y
  = Some (let '(r, g, b) := pixelAt canvas x y in
          CanvasUtils.isDark r g b (match t with Some t => t | None => 0.5 end)).
Proof.
  intros Hx Hy.
  unfold maskAt, CanvasUtils.createLuminanceMap, pixelAt.
  rewrite nth_error_map, (nth_error_seq_0 _ _ Hy); cbn [option_map].
  rewrite nth_error_map, (nth_error_seq_0 _ _ Hx); cbn [option_map].
  reflexivity.
Qed.

(** Outside the canvas the mask has no entry. *)
Lemma maskAt_inside (canvas : CanvasUtils.Canvas) (t : option R) (x y : nat) (v : bool) :
  maskAt (CanvasUtils.createLuminanceMap canvas t) x y = Some v ->
  (x < CanvasUtils.width canvas)%nat /\ (y < CanvasUtils.height canvas)%nat.
Proof.
  unfold maskAt, CanvasUtils.createLuminanceMap.
  rewrite nth_error_map.
  destruct (nth_error (seq 0 (CanvasUtils.height canvas)) y) as [y'|] eqn:Ey;
    cbn [option_map]; [|discriminate].
  intros Hrow.
  assert (Hy : (y < CanvasUtils.height canvas)%nat).
  { assert (H : nth_error (seq 0 (CanvasUtils.height canvas)) y <> None) by congruence.
    apply nth_error_Some in H. now rewrite length_seq in H. }
  split; [|exact Hy].
  match type of Hrow with
  | nth_error ?l _ = _ =>
      assert (Hx : (x < List.length l)%nat) by (apply nth_error_Some; congruence)
  end.
  now rewrite length_map, length_seq in Hx.
Qed.

Lemma lin_0 : Spec.lin (0 / 255) = 0.
Proof. unfold Spec.lin. destruct (Rle_dec _ _); [lra | exfalso; lra]. Qed.

Lemma lin_1 : Spec.lin (255 / 255) = 1.
Proof.
  unfold Spec.lin. destruct (Rle_dec _ _); [exfalso; lra|].
  replace ((255 / 255 + 0.055) / 1.055) with 1 by lra.
  unfold Rpower. rewrite ln_1, Rmult_0_r. apply exp_0.
Qed.

Lemma Y_black : Spec.Y "000"%byte "000"%byte "000"%byte = 0.
Proof.
  unfold Spec.Y, CanvasUtils.byteValue; cbn [Byte.to_N Z.of_N].
  rewrite lin_0. lra.
Qed.

Lemma Y_white : Spec.Y "255"%byte "255"%byte "255"%byte = 1.
Proof.
  unfold Spec.Y, CanvasUtils.byteValue; cbn [Byte.to_N Z.of_N].
  rewrite lin_1. lra.
Qed.

End LuminanceClassifier.

Section LuminanceClaims.

Local Open Scope R_scope.

(** C7.  For a fixed canvas and thresholds [t1 <= t2], every pixel that
    the mask built with [t1] marks as foreground is marked as foreground
    by the mask built with [t2]. *)
Theorem createLuminanceMap_monotone
        (canvas : CanvasUtils.Canvas) (t1 t2 : R) (x y : nat) :
  t1 <= t2 ->
  maskAt (CanvasUtils.createLuminanceMap canvas (Some t1)) x y = Some true ->
  maskAt (CanvasUtils.createLuminanceMap canvas (Some t2)) x y = Some true.
Proof.
  intros Ht H1.
  destruct (maskAt_inside _ _ _ _ _ H1) as [Hx Hy].
  rewrite (maskAt_createLuminanceMap canvas (Some t1) x y Hx Hy) in H1.
  rewrite (maskAt_createLuminanceMap canvas (Some t2) x y Hx Hy).
  destruct (pixelAt canvas x y) as [[r g] b].
  unfold CanvasUtils.isDark in *.
  destruct r as [r|]; [|discriminate].
  destruct g as [g|]; [|discriminate].
  destruct b as [b|]; [|discriminate].
  f_equal.
  injection H1 as H1.
  apply ltb_true in H1. apply ltb_true. lra.
Qed.

Lemma black_is_foreground (t : R) :
  0 < t ->
  maskAt (CanvasUtils.createLuminanceMap blackAndWhite (Some t)) 0 0 = Some true.
Proof.
  intros Ht.
  rewrite maskAt_createLuminanceMap by (simpl; lia).
  cbn [pixelAt blackAndWhite CanvasUtils.width CanvasUtils.data
       Nat.mul Nat.add nth_error CanvasUtils.isDark].
  rewrite getLuminance_Y, Y_black.
  f_equal. now apply ltb_true.
Qed.

Lemma white_is_background (t : R) :
  t <= 1 ->
  maskAt (CanvasUtils.createLuminanceMap blackAndWhite (Some t)) 1 0 = Some false.
Proof.
  intros Ht.
  rewrite maskAt_createLuminanceMap by (simpl; lia).
  cbn [pixelAt blackAndWhite CanvasUtils.width CanvasUtils.data
       Nat.mul Nat.add nth_error CanvasUtils.isDark].
  rewrite getLuminance_Y, Y_white.
  f_equal. now apply ltb_false.
Qed.

Lemma createLuminanceMap_monotone_witness :
  maskAt (CanvasUtils.createLuminanceMap blackAndWhite (Some 0.75)) 0 0 = Some true.
Proof.
  apply (createLuminanceMap_monotone blackAndWhite 0.5 0.75 0 0).
  - lra.
  - apply black_is_foreground. lra.
Defined.

End LuminanceClaims.

(** ** Palette resolution in the constructor *)

Section PaletteResolution.

Import ColorVisionGenerator.

(** A name whose lower-case form is an own entry of the catalogue
    overrides both colours with that entry. *)
Lemma constructor_known_palette (merged : Options) (P : string) (p : ColorPalettes.Palette) :
  palette merged = Some P ->
  ColorPalettes.ownProperty (toLowerCase P) ColorPalettes.COLOR_PALETTES = Some p ->
  constructor merged
  = (setColors (VString (ColorPalettes.onColor p))
               (VString (ColorPalettes.offColor p)) merged, []).
Proof.
  intros HP Hown.
  unfold constructor; rewrite HP.
  destruct (String.eqb P EmptyString) eqn:E.
  - apply String.eqb_eq in E; subst P. discriminate.
  - unfold ColorPalettes.getPalette, ColorPalettes.getProperty.
    now rewrite Hown.
Qed.

(** A name whose lower-case form is neither an own entry nor a member
    inherited from [Object.prototype] leaves the options as they are. *)
Lemma constructor_unknown_palette (merged : Options) (P : string) :
  palette merged = Some P ->
  ColorPalettes.ownProperty (toLowerCase P) ColorPalettes.COLOR_PALETTES = None ->
  existsb (String.eqb (toLowerCase P)) ColorPalettes.objectPrototype = false ->
  fst (constructor merged) = merged
  /\ (P <> EmptyString -> snd (constructor merged) = [notFoundWarning P]).
Proof.
  intros HP Hown Hproto.
  unfold constructor; rewrite HP.
  destruct (String.eqb P EmptyString) eqn:E.
  - split; [reflexivity|]. apply String.eqb_eq in E. congruence.
  - unfold ColorPalettes.getPalette, ColorPalettes.getProperty.
    rewrite Hown, Hproto. now split.
Qed.

(** The names are resolved without regard to case. *)
Lemma constructor_palette_any_case :
  constructor (withPalette (Some "ProtAnopia"%string) DEFAULT_OPTIONS)
  = (setColors (VString "#8B0000") (VString "#90EE90")
               (withPalette (Some "ProtAnopia"%string) DEFAULT_OPTIONS), []).
Proof.
  apply (constructor_known_palette _ "ProtAnopia"%string
           (ColorPalettes.mkPalette "Protanopia (Red-blind) Test"
              "Optimized for testing red color blindness"
              "#8B0000" "#90EE90" "protanopia"));
    reflexivity.
Qed.

(** C10.  The palette name ["constructor"] is not a key of the catalogue
    ([isValidPalette] says so), yet the constructor replaces both colours,
    by undefined, and warns of nothing: the lookup finds the member of
    that name inherited from [Object.prototype]. *)
Theorem constructor_inherited_member_overrides_colors :
  let merged := withPalette (Some "constructor"%string) DEFAULT_OPTIONS in
  ColorPalettes.ownProperty (toLowerCase "constructor") ColorPalettes.COLOR_PALETTES = None
  /\ ColorPalettes.isValidPalette "constructor" = false
  /\ onColor merged = VString "#FF6B35"
  /\ offColor merged = VString "#4ECDC4"
  /\ onColor (fst (constructor merged)) = VUndefined
  /\ offColor (fst (constructor merged)) = VUndefined
  /\ snd (constructor merged) = [].
Proof.
  cbv zeta. repeat split.
Qed.

End PaletteResolution.

(** ** The empty budget *)

Section EmptyBudget.

Import ColorVisionGenerator.

(** C9.  With [maxAttempts = 0] the loop of [_generateCircles] makes no
    pass, whatever the mask, the other options, the random stream and the
    fuel, and the circle list returned is empty. *)
Theorem generateCircles_empty_budget
        (options : Options) (rnd : nat -> R) (luminanceMap : list (list bool))
        (sampleFuel fuel : nat) :
  maxAttempts options = 0%Z ->
  run options rnd luminanceMap sampleFuel fuel = Returned (initialState options)
  /\ _generateCircles options rnd luminanceMap sampleFuel fuel = Returned [].
Proof.
  intros H0.
  assert (Hrun : run options rnd luminanceMap sampleFuel fuel
                 = Returned (initialState options)).
  { unfold run. destruct fuel; cbn [whileLoop initialState attempts]; now rewrite H0. }
  split; [exact Hrun|].
  unfold _generateCircles. now rewrite Hrun.
Qed.

Lemma generateCircles_empty_budget_witness :
  run (withMaxAttempts 0 DEFAULT_OPTIONS) (fun _ => 0%R) [] 0 0
  = Returned (initialState (withMaxAttempts 0 DEFAULT_OPTIONS))
  /\ _generateCircles (withMaxAttempts 0 DEFAULT_OPTIONS) (fun _ => 0%R) [] 0 0
     = Returned [].
Proof.
  apply (generateCircles_empty_budget
           (withMaxAttempts 0 DEFAULT_OPTIONS) (fun _ => 0%R) [] 0 0).
  reflexivity.
Defined.

End EmptyBudget.

(** ** Text fitter *)

Section TextFitter.

Local Open Scope R_scope.
Import TextProcessor.

Variable measureText : R -> string -> string -> TextMetrics.
Variables (text : string) (maxWidth maxHeight : R) (fontFamily : string).

#[local] Abbreviation fits := (fits measureText text maxWidth maxHeight fontFamily).
#[local] Abbreviation shrink := (shrink measureText text maxWidth maxHeight fontFamily).

Lemma shrink_never_throws (fuel : nat) (size : R) : shrink fuel size <> Throws.
Proof.
  revert size; induction fuel as [|fuel IH]; intros size; cbn [TextProcessor.shrink].
  - discriminate.
  - destruct (fits size); [discriminate|].
    destruct (gtb (size * 0.95) 20); [apply IH | discriminate].
Qed.

(** The size returned is reached by [k] reductions; no size tried before
    it fitted, and each reduction before the last left the size above 20. *)
Lemma shrink_result (fuel : nat) (size v : R) :
  shrink fuel size = Returned v ->
  exists k : nat,
    v = size * 0.95 ^ k
    /\ (forall j : nat, (j < k)%nat ->
                        fits (size * 0.95 ^ j) = false
                        /\ ((1 <= j)%nat -> 20 < size * 0.95 ^ j))
    /\ (fits v = true \/ ((1 <= k)%nat /\ v <= 20)).
Proof.
  revert size; induction fuel as [|fuel IH]; intros size; cbn [TextProcessor.shrink].
  - discriminate.
  - destruct (fits size) eqn:Hfit.
    + intros [= <-]. exists 0%nat. repeat split.
      * simpl; ring.
      * lia.
      * lia.
      * now left.
    + destruct (gtb (size * 0.95) 20) eqn:Hgt.
      * intros Hrun. destruct (IH _ Hrun) as (k & Hv & Hbefore & Hlast).
        apply gtb_true in Hgt.
        exists (S k). split; [|split].
        -- rewrite Hv. simpl; ring.
        -- intros [|j] Hj.
           ++ split; [|lia]. now replace (size * 0.95 ^ 0) with size by (simpl; ring).
           ++ replace (size * 0.95 ^ S j) with (size * 0.95 * 0.95 ^ j) by (simpl; ring).
              destruct (Hbefore j ltac:(lia)) as [Hnofit Habove].
              split; [exact Hnofit|]. intros _.
              destruct j as [|j]; [simpl; lra | apply Habove; lia].
        -- destruct Hlast as [Hfits | [Hk Hle]]; [now left | right; split; [lia | exact Hle]].
      * intros [= <-]. apply gtb_false in Hgt.
        exists 1%nat. split; [|split].
        -- simpl; ring.
        -- intros j Hj. assert (j = 0%nat) by lia; subst j.
           split; [|lia]. now replace (size * 0.95 ^ 0) with size by (simpl; ring).
        -- right. split; [lia | exact Hgt].
Qed.

Lemma shrink_enough_fuel (n : nat) (size : R) :
  size * 0.95 ^ S n <= 20 -> exists v : R, shrink (S n) size = Returned v.
Proof.
  revert size; induction n as [|n IH]; intros size Hsmall.
  - cbn [TextProcessor.shrink].
    destruct (fits size); [eauto|].
    destruct (gtb (size * 0.95) 20) eqn:Hgt; [|eauto].
    apply gtb_true in Hgt. simpl in Hsmall. lra.
  - remember (S n) as m. cbn [TextProcessor.shrink].
    destruct (fits size); [eauto|].
    destruct (gtb (size * 0.95) 20) eqn:Hgt; [|eauto].
    subst m. apply IH.
    replace (size * 0.95 * 0.95 ^ S n) with (size * 0.95 ^ S (S n)) by (simpl; ring).
    exact Hsmall.
Qed.

(** Some number of reductions brings any size down to 20. *)
Lemma shrinks_below_floor (size : R) : exists n : nat, size * 0.95 ^ S n <= 20.
Proof.
  destruct (Rle_dec size 20) as [Hle|Hgt].
  - exists 0%nat. simpl. nra.
  - assert (Hpos : 0 < 20 / size) by (apply Rdiv_lt_0_compat; lra).
    assert (Habs : Rabs 0.95 < 1) by (rewrite Rabs_pos_eq; lra).
    destruct (pow_lt_1_zero 0.95 Habs (20 / size) Hpos) as [N HN].
    exists N. specialize (HN (S N) ltac:(lia)).
    rewrite Rabs_pos_eq in HN by (apply pow_le; lra).
    assert (Hsize : 0 < size) by lra.
    apply (Rmult_lt_compat_l size) in HN; [|exact Hsize].
    replace (size * (20 / size)) with 20 in HN by (field; lra).
    lra.
Qed.

Lemma shrink_total (size : R) : exists (fuel : nat) (v : R), shrink fuel size = Returned v.
Proof.
  destruct (shrinks_below_floor size) as [n Hn].
  destruct (shrink_enough_fuel n size Hn) as [v Hv].
  now exists (S n), v.
Qed.

End TextFitter.

Section TextFitterClaims.

Local Open Scope R_scope.
Import TextProcessor.

Lemma splitIntoWords_single : splitIntoWords "8" = ["8"%string].
Proof. reflexivity. Qed.

Lemma tooWide_never_fits (size : R) : fits tooWide "8" 100 100 "Arial" size = false.
Proof.
  unfold fits, measure. rewrite splitIntoWords_single.
  cbn [List.length Nat.ltb Nat.leb tooWide width].
  apply andb_false_iff; left. apply leb_false. lra.
Qed.

Lemma proportional_fits_50 : fits proportional "8" 100 100 "Arial" 50 = true.
Proof.
  unfold fits, measure. rewrite splitIntoWords_single.
  cbn [List.length Nat.ltb Nat.leb proportional width String.length
       actualBoundingBoxAscent actualBoundingBoxDescent orElse INR].
  apply andb_true_iff; split; apply leb_true; lra.
Qed.

(** C8.  The loop is guarded by [size > 20], which the source comments
    as the minimum readable size, and the claim has the floor, or the
    last size tried, returned when nothing fits.  The code does not do
    so: with an initial size of 21 and a text that never fits, the only
    size tried is 21, and the size returned is 21 * 0.95 = 19.95, which
    was not measured, does not fit, is below the floor of 20 and is not
    the last size tried: the loop reduces the size before it tests the
    guard. *)
Lemma calculateOptimalFontSize_returns_untried_size :
  calculateOptimalFontSize tooWide "8" 100 100 "Arial" 1 21 = Returned (21 * 0.95)
  /\ fits tooWide "8" 100 100 "Arial" (21 * 0.95) = false
  /\ 21 * 0.95 < 20
  /\ 21 * 0.95 <> 21.
Proof.
  split; [|split; [apply tooWide_never_fits | split; lra]].
  unfold calculateOptimalFontSize; cbn [shrink].
  rewrite tooWide_never_fits.
  replace (gtb (21 * 0.95) 20) with false; [reflexivity|].
  symmetry. apply gtb_false. lra.
Qed.

(** What the loop does, over the real numbers: for every text,
    constraints, initial size and measurement,
    [calculateOptimalFontSize] returns, never throws, and the size [v]
    it returns is [initialFontSize * 0.95 ^ k] for some [k >= 0] such
    that no size tried before it fitted and every reduction before the
    last left the size above 20; the loop stopped either because [v] was
    measured to fit, or because [v], the result of the last reduction, is
    no longer above 20: [v] is then at most 20 and is returned without
    having been measured. *)
Lemma calculateOptimalFontSize_result
        (measureText : R -> string -> string -> TextMetrics)
        (text : string) (maxWidth maxHeight : R) (fontFamily : string)
        (initialFontSize : R) :
  (exists (fuel : nat) (v : R),
      calculateOptimalFontSize measureText text maxWidth maxHeight fontFamily
                               fuel initialFontSize = Returned v)
  /\ (forall fuel : nat,
         calculateOptimalFontSize measureText text maxWidth maxHeight fontFamily
                                  fuel initialFontSize <> Throws)
  /\ (forall (fuel : nat) (v : R),
         calculateOptimalFontSize measureText text maxWidth maxHeight fontFamily
                                  fuel initialFontSize = Returned v ->
         exists k : nat,
           v = initialFontSize * 0.95 ^ k
           /\ (forall j : nat,
                  (j < k)%nat ->
                  fits measureText text maxWidth maxHeight fontFamily
                       (initialFontSize * 0.95 ^ j) = false
                  /\ ((1 <= j)%nat -> 20 < initialFontSize * 0.95 ^ j))
           /\ (fits measureText text maxWidth maxHeight fontFamily v = true
               \/ ((1 <= k)%nat /\ v <= 20))).
Proof.
  unfold calculateOptimalFontSize. split; [|split].
  - apply shrink_total.
  - intros fuel. apply shrink_never_throws.
  - intros fuel v. apply shrink_result.
Qed.

Lemma calculateOptimalFontSize_result_witness :
  exists k : nat,
    50 = 50 * 0.95 ^ k
    /\ (forall j : nat,
           (j < k)%nat ->
           fits proportional "8" 100 100 "Arial" (50 * 0.95 ^ j) = false
           /\ ((1 <= j)%nat -> 20 < 50 * 0.95 ^ j))
    /\ (fits proportional "8" 100 100 "Arial" 50 = true \/ ((1 <= k)%nat /\ 50 <= 20)).
Proof.
  apply (proj2 (proj2 (calculateOptimalFontSize_result
                         proportional "8" 100 100 "Arial" 50)) 1%nat 50).
  unfold calculateOptimalFontSize; cbn [shrink].
  now rewrite proportional_fits_50.
Defined.

End TextFitterClaims.

(** ** The packing loop *)

Section PackingLoop.

Local Open Scope R_scope.
Import ColorVisionGenerator.

Variable options : Options.
Variable rnd : nat -> R.
Variable luminanceMap : list (list bool).
Variable sampleFuel : nat.

#[local] Abbreviation place := (place options rnd luminanceMap sampleFuel).
#[local] Abbreviation iteration := (iteration options rnd luminanceMap sampleFuel).
#[local] Abbreviation whileLoop := (whileLoop options rnd luminanceMap sampleFuel).

(** The candidate is either rejected, and the counter goes up by one, or
    accepted: it was a valid placement, its colour is truthy, it is
    appended, and the counter goes back to 0. *)
Lemma place_cases (st : LoopState) (cs : list CirclePlacer.Circle) (a : Z) (d : nat) :
  place st = Returned (cs, a, d) ->
  (cs = circles st /\ a = (attempts st + 1)%Z)
  \/ (exists c : CirclePlacer.Circle,
         cs = circles st ++ [c]
         /\ a = 0%Z
         /\ CirclePlacer.isValidPlacement (CirclePlacer.x c) (CirclePlacer.y c)
                                          (CirclePlacer.radius c) (circles st)
                                          (constraints options) = true
         /\ truthy (CirclePlacer.color c) = true).
Proof.
  unfold ColorVisionGenerator.place.
  destruct (CirclePlacer.generateRandomPosition _ _ _) as [position drawn1].
  destruct (CirclePlacer.isValidPlacement _ _ _ _ _) eqn:Hvalid.
  - destruct (CirclePlacer.determineCircleColor _ _ _ _ _ _) as [color| |];
      cbn [bind]; try discriminate.
    destruct (truthy color) eqn:Htruthy; intros [= <- <- <-].
    + right. eexists; repeat split; cbn [CirclePlacer.x CirclePlacer.y
                                          CirclePlacer.radius CirclePlacer.color];
        assumption.
    + now left.
  - intros [= <- <- <-]. now left.
Qed.

(** One pass of the loop, as a relation between the states before and
    after it. *)
Lemma iteration_cases (st st' : LoopState) :
  iteration st = Returned st' ->
  exists (cs : list CirclePlacer.Circle) (a : Z) (d : nat),
    place st = Returned (cs, a, d)
    /\ circles st' = cs
    /\ iterations st' = S (iterations st)
    /\ ((attempts st' = 0%Z /\ (1000 < a)%Z
         /\ currentMaxRadius st' = currentMaxRadius st * 0.98)
        \/ (attempts st' = a /\ currentMaxRadius st' = currentMaxRadius st)).
Proof.
  unfold ColorVisionGenerator.iteration.
  destruct (place st) as [[[cs a] d]| |]; cbn [bind]; try discriminate.
  destruct ((1000 <? a)%Z && gtb (currentMaxRadius st) (minRadius options + 1)) eqn:Hanneal;
    intros [= <-]; exists cs, a, d; cbn [circles iterations attempts currentMaxRadius].
  - apply andb_true_iff in Hanneal as [Ha _]. apply Z.ltb_lt in Ha.
    repeat split. left. repeat split. exact Ha.
  - repeat split. right. now split.
Qed.

(** A property of the state that every pass begun below the budget
    preserves holds when the loop returns. *)
Lemma whileLoop_invariant (P : LoopState -> Prop) :
  (forall st st' : LoopState,
      P st -> (attempts st < maxAttempts options)%Z ->
      iteration st = Returned st' -> P st') ->
  forall (fuel : nat) (st st' : LoopState),
    P st -> whileLoop fuel st = Returned st' -> P st'.
Proof.
  intros Hstep fuel; induction fuel as [|fuel IH]; intros st st' HP;
    cbn [ColorVisionGenerator.whileLoop].
  - destruct (attempts st <? maxAttempts options)%Z; [discriminate|].
    now intros [= <-].
  - destruct (attempts st <? maxAttempts options)%Z eqn:Hlt; [|now intros [= <-]].
    apply Z.ltb_lt in Hlt.
    destruct (iteration st) as [st1| |] eqn:Hit; cbn [bind]; try discriminate.
    apply IH. now apply (Hstep st).
Qed.

(** The loop returns only in a state whose counter is not below the
    budget. *)
Lemma whileLoop_exit (fuel : nat) (st st' : LoopState) :
  whileLoop fuel st = Returned st' -> (maxAttempts options <= attempts st')%Z.
Proof.
  revert st; induction fuel as [|fuel IH]; intros st;
    cbn [ColorVisionGenerator.whileLoop].
  - destruct (attempts st <? maxAttempts options)%Z eqn:Hlt; [discriminate|].
    intros [= <-]. now apply Z.ltb_ge.
  - destruct (attempts st <? maxAttempts options)%Z eqn:Hlt.
    + destruct (iteration st) as [st1| |]; cbn [bind]; try discriminate. apply IH.
    + intros [= <-]. now apply Z.ltb_ge.
Qed.

Lemma iteration_counted (st st' : LoopState) :
  counted options st -> (attempts st < maxAttempts options)%Z ->
  iteration st = Returned st' -> counted options st'.
Proof.
  intros [Hrange Hmax] Hlt Hit.
  destruct (iteration_cases _ _ Hit) as (cs & a & d & Hplace & _ & Hn & Hcase).
  unfold counted. rewrite Hn.
  destruct (place_cases _ _ _ _ Hplace) as [[_ ->] | (c & _ & -> & _)];
    destruct Hcase as [(-> & _ & _) | (-> & _)]; lia.
Qed.

Lemma run_counted (fuel : nat) (st : LoopState) :
  run options rnd luminanceMap sampleFuel fuel = Returned st -> counted options st.
Proof.
  apply (whileLoop_invariant (counted options)).
  - apply iteration_counted.
  - unfold counted, initialState; cbn. lia.
Qed.

End PackingLoop.

(** ** Sampling of the mask under a circle *)

Section SamplingLoops.

Local Open Scope R_scope.
Import CirclePlacer.

Variables (x0 y0 radius0 : R).
Variable luminanceMap : list (list bool).
Variables (mapWidth0 mapHeight0 : R).

#[local] Abbreviation samplePoint :=
  (samplePoint x0 y0 radius0 luminanceMap mapWidth0 mapHeight0).
#[local] Abbreviation rowLoop :=
  (rowLoop x0 y0 radius0 luminanceMap mapWidth0 mapHeight0).
#[local] Abbreviation gridLoop :=
  (gridLoop x0 y0 radius0 luminanceMap mapWidth0 mapHeight0).
#[local] Abbreviation step := (radius0 / samples radius0).

(** A property of the counts kept by every sample is kept by a row and
    by the whole grid. *)
Lemma rowLoop_invariant (P : nat * nat -> Prop) (dy : R) :
  (forall (dx : R) (c c' : nat * nat), P c -> samplePoint dx dy c = Returned c' -> P c') ->
  forall (fuel : nat) (dx : R) (c c' : nat * nat),
    P c -> rowLoop fuel dy dx c = Returned c' -> P c'.
Proof.
  intros Hpoint fuel; induction fuel as [|fuel IH]; intros dx c c' HP;
    cbn [CirclePlacer.rowLoop]; destruct (leb dx radius0);
    try discriminate; try (now intros [= <-]).
  destruct (samplePoint dx dy c) as [c1| |] eqn:Hs; cbn [bind]; try discriminate.
  apply IH. now apply (Hpoint dx c).
Qed.

Lemma gridLoop_invariant (P : nat * nat -> Prop) :
  (forall (dx dy : R) (c c' : nat * nat),
      P c -> samplePoint dx dy c = Returned c' -> P c') ->
  forall (rowFuel fuel : nat) (dy : R) (c c' : nat * nat),
    P c -> gridLoop rowFuel fuel dy c = Returned c' -> P c'.
Proof.
  intros Hpoint rowFuel fuel; induction fuel as [|fuel IH]; intros dy c c' HP;
    cbn [CirclePlacer.gridLoop]; destruct (leb dy radius0);
    try discriminate; try (now intros [= <-]).
  destruct (rowLoop rowFuel dy (- radius0) c) as [c1| |] eqn:Hr; cbn [bind];
    try discriminate.
  apply IH.
  apply (rowLoop_invariant P dy (fun dx => Hpoint dx dy) rowFuel (- radius0) c c1 HP Hr).
Qed.

(** What one sample does to the counts. *)
Lemma samplePoint_cases (dx dy : R) (c c' : nat * nat) :
  samplePoint dx dy c = Returned c' ->
  c' = c
  \/ (exists (row : list bool),
         (0 <= Int_part (x0 + dx))%Z /\ IZR (Int_part (x0 + dx)) < mapWidth0
         /\ nth_error luminanceMap (Z.to_nat (Int_part (y0 + dy))) = Some row
         /\ snd c' = S (snd c)
         /\ ((nth_error row (Z.to_nat (Int_part (x0 + dx))) = Some true
              /\ fst c' = S (fst c))
             \/ (nth_error row (Z.to_nat (Int_part (x0 + dx))) <> Some true
                 /\ fst c' = fst c))).
Proof.
  unfold CirclePlacer.samplePoint.
  destruct (leb _ _); [|intros [= <-]; now left].
  destruct (0 <=? Int_part (x0 + dx))%Z eqn:Hpx0; cbn [andb];
    [|intros [= <-]; now left].
  destruct (ltb (IZR (Int_part (x0 + dx))) mapWidth0) eqn:Hpx1; cbn [andb];
    [|intros [= <-]; now left].
  destruct ((0 <=? Int_part (y0 + dy))%Z && ltb (IZR (Int_part (y0 + dy))) mapHeight0);
    [|intros [= <-]; now left].
  apply Z.leb_le in Hpx0. apply ltb_true in Hpx1.
  destruct (nth_error luminanceMap _) as [row|] eqn:Hrow; [|discriminate].
  destruct (nth_error row _) as [[|]|] eqn:Hcell; intros [= <-]; right;
    exists row; cbn [fst snd]; repeat split; try assumption;
    solve [left; now split | right; split; [congruence | reflexivity]].
Qed.

Lemma samplePoint_le (dx dy : R) (c c' : nat * nat) :
  (fst c <= snd c)%nat -> samplePoint dx dy c = Returned c' -> (fst c' <= snd c')%nat.
Proof.
  intros Hc Hs.
  destruct (samplePoint_cases _ _ _ _ Hs)
    as [-> | (row & _ & _ & _ & Ht & [[_ Hi] | [_ Hi]])]; lia.
Qed.

Lemma samplePoint_allFalse (dx dy : R) (c c' : nat * nat) :
  allFalse luminanceMap ->
  fst c = 0%nat -> samplePoint dx dy c = Returned c' -> fst c' = 0%nat.
Proof.
  intros Hmask Hc Hs.
  destruct (samplePoint_cases _ _ _ _ Hs)
    as [-> | (row & _ & _ & Hrow & _ & [[Hcell _] | [_ Hi]])]; [assumption| |lia].
  apply nth_error_In in Hrow, Hcell.
  unfold allFalse in Hmask. rewrite Forall_forall in Hmask.
  specialize (Hmask row Hrow). rewrite Forall_forall in Hmask.
  now specialize (Hmask true Hcell).
Qed.

(** The counts returned by the sampling of a circle. *)
Lemma sampleCircle_le (fuel : nat) (c : nat * nat) :
  sampleCircle x0 y0 radius0 luminanceMap mapWidth0 mapHeight0 fuel = Returned c ->
  (fst c <= snd c)%nat.
Proof.
  apply (gridLoop_invariant (fun c => (fst c <= snd c)%nat)); [|cbn; lia].
  intros dx dy. apply samplePoint_le.
Qed.

Lemma sampleCircle_allFalse (fuel : nat) (c : nat * nat) :
  allFalse luminanceMap ->
  sampleCircle x0 y0 radius0 luminanceMap mapWidth0 mapHeight0 fuel = Returned c ->
  fst c = 0%nat.
Proof.
  intros Hmask.
  apply (gridLoop_invariant (fun c => fst c = 0%nat)); [|reflexivity].
  intros dx dy c0 c1. now apply samplePoint_allFalse.
Qed.

(** *** The loops return *)

Lemma samples_pos : 0 < samples radius0.
Proof. unfold samples. pose proof (Rmax_l 8 radius0). lra. Qed.

Lemma step_pos : 0 < radius0 -> 0 < step.
Proof. intros Hr. apply Rdiv_lt_0_compat; [exact Hr | apply samples_pos]. Qed.

Lemma samplePoint_returns (dx dy : R) (c : nat * nat) :
  rowsCover mapHeight0 luminanceMap ->
  exists c' : nat * nat, samplePoint dx dy c = Returned c'.
Proof.
  intros Hrows. unfold CirclePlacer.samplePoint.
  destruct (leb _ _); [|eauto].
  destruct (0 <=? Int_part (x0 + dx))%Z; cbn [andb]; [|eauto].
  destruct (ltb (IZR (Int_part (x0 + dx))) mapWidth0); cbn [andb]; [|eauto].
  destruct (0 <=? Int_part (y0 + dy))%Z eqn:Hpy0; cbn [andb]; [|eauto].
  destruct (ltb (IZR (Int_part (y0 + dy))) mapHeight0) eqn:Hpy1; [|eauto].
  apply Z.leb_le in Hpy0. apply ltb_true in Hpy1.
  specialize (Hrows _ Hpy0 Hpy1).
  destruct (nth_error luminanceMap _) as [row|]; [|congruence].
  destruct (nth_error row _) as [[|]|]; eauto.
Qed.

Lemma rowLoop_returns (dy : R) :
  0 < step ->
  rowsCover mapHeight0 luminanceMap ->
  forall (fuel : nat) (dx : R) (c : nat * nat),
    radius0 < dx + INR fuel * step ->
    exists c' : nat * nat, rowLoop fuel dy dx c = Returned c'.
Proof.
  intros Hstep Hrows fuel; induction fuel as [|fuel IH]; intros dx c Hfuel;
    cbn [CirclePlacer.rowLoop]; destruct (leb dx radius0) eqn:Hle; eauto.
  - apply leb_true in Hle. simpl in Hfuel. lra.
  - destruct (samplePoint_returns dx dy c Hrows) as [c1 ->]; cbn [bind].
    apply IH. rewrite S_INR in Hfuel. lra.
Qed.

Lemma gridLoop_returns (rowFuel : nat) :
  0 < step ->
  rowsCover mapHeight0 luminanceMap ->
  radius0 < - radius0 + INR rowFuel * step ->
  forall (fuel : nat) (dy : R) (c : nat * nat),
    radius0 < dy + INR fuel * step ->
    exists c' : nat * nat, gridLoop rowFuel fuel dy c = Returned c'.
Proof.
  intros Hstep Hrows Hrow fuel; induction fuel as [|fuel IH]; intros dy c Hfuel;
    cbn [CirclePlacer.gridLoop]; destruct (leb dy radius0) eqn:Hle; eauto.
  - apply leb_true in Hle. simpl in Hfuel. lra.
  - destruct (rowLoop_returns dy Hstep Hrows rowFuel (- radius0) c Hrow) as [c1 ->];
      cbn [bind].
    apply IH. rewrite S_INR in Hfuel. lra.
Qed.

(** For a circle of positive radius over a mask that has the rows the
    bounds test lets through, the sampling returns as soon as the fuel
    exceeds twice the number of samples. *)
Lemma sampleCircle_returns (fuel : nat) :
  0 < radius0 ->
  rowsCover mapHeight0 luminanceMap ->
  2 * samples radius0 < INR fuel ->
  exists c : nat * nat,
    sampleCircle x0 y0 radius0 luminanceMap mapWidth0 mapHeight0 fuel = Returned c.
Proof.
  intros Hr Hrows Hfuel.
  pose proof samples_pos as Hs.
  assert (Hreach : radius0 < - radius0 + INR fuel * step).
  { assert (H2 : 2 < INR fuel / samples radius0).
    { apply (Rmult_lt_reg_r (samples radius0)); [exact Hs|].
      replace (INR fuel / samples radius0 * samples radius0) with (INR fuel)
        by (field; lra).
      lra. }
    replace (INR fuel * step) with (radius0 * (INR fuel / samples radius0))
      by (field; lra).
    nra. }
  apply gridLoop_returns; auto using step_pos.
Qed.

(** *** Unfolding one turn of a loop *)

Lemma rowLoop_turn (fuel : nat) (dy dx : R) (c : nat * nat) :
  dx <= radius0 ->
  rowLoop (S fuel) dy dx c = bind (samplePoint dx dy c) (rowLoop fuel dy (dx + step)).
Proof.
  intros Hle. cbn [CirclePlacer.rowLoop].
  now replace (leb dx radius0) with true by (symmetry; now apply leb_true).
Qed.

Lemma rowLoop_done (fuel : nat) (dy dx : R) (c : nat * nat) :
  radius0 < dx -> rowLoop fuel dy dx c = Returned c.
Proof.
  intros Hgt.
  destruct fuel; cbn [CirclePlacer.rowLoop];
    now replace (leb dx radius0) with false by (symmetry; now apply leb_false).
Qed.

Lemma gridLoop_turn (rowFuel fuel : nat) (dy : R) (c : nat * nat) :
  dy <= radius0 ->
  gridLoop rowFuel (S fuel) dy c
  = bind (rowLoop rowFuel dy (- radius0) c) (gridLoop rowFuel fuel (dy + step)).
Proof.
  intros Hle. cbn [CirclePlacer.gridLoop].
  now replace (leb dy radius0) with true by (symmetry; now apply leb_true).
Qed.

Lemma gridLoop_done (rowFuel fuel : nat) (dy : R) (c : nat * nat) :
  radius0 < dy -> gridLoop rowFuel fuel dy c = Returned c.
Proof.
  intros Hgt.
  destruct fuel; cbn [CirclePlacer.gridLoop];
    now replace (leb dy radius0) with false by (symmetry; now apply leb_false).
Qed.

(** A sample outside the disk, or whose pixel is outside the map, leaves
    the counts as they are; one whose pixel [(px, py)] is inside adds the
    mask entry read there. *)
Lemma samplePoint_outside_disk (dx dy : R) (c : nat * nat) :
  radius0 * radius0 < dx * dx + dy * dy -> samplePoint dx dy c = Returned c.
Proof.
  intros H. unfold CirclePlacer.samplePoint.
  now replace (leb _ _) with false by (symmetry; now apply leb_false).
Qed.

Lemma samplePoint_outside_row (dx dy : R) (py : Z) (c : nat * nat) :
  IZR py <= y0 + dy < IZR py + 1 ->
  (py < 0)%Z \/ mapHeight0 <= IZR py ->
  samplePoint dx dy c = Returned c.
Proof.
  intros Hpy Hout. unfold CirclePlacer.samplePoint.
  destruct (leb _ _); [|reflexivity].
  replace (Int_part (y0 + dy)) with py by (apply Int_part_spec; lra).
  destruct Hout as [Hneg | Hbig].
  - replace (0 <=? py)%Z with false by (symmetry; now apply Z.leb_gt).
    now rewrite andb_false_r.
  - replace (ltb (IZR py) mapHeight0) with false by (symmetry; now apply ltb_false).
    now rewrite andb_false_r.
Qed.

Lemma samplePoint_outside_column (dx dy : R) (px : Z) (c : nat * nat) :
  IZR px <= x0 + dx < IZR px + 1 ->
  (px < 0)%Z \/ mapWidth0 <= IZR px ->
  samplePoint dx dy c = Returned c.
Proof.
  intros Hpx Hout. unfold CirclePlacer.samplePoint.
  destruct (leb _ _); [|reflexivity].
  replace (Int_part (x0 + dx)) with px by (apply Int_part_spec; lra).
  replace ((0 <=? px)%Z && ltb (IZR px) mapWidth0) with false; [reflexivity|].
  symmetry. apply andb_false_iff.
  destruct Hout as [Hneg | Hbig]; [left; now apply Z.leb_gt | right; now apply ltb_false].
Qed.

Lemma samplePoint_inside (dx dy : R) (px py : Z) (row : list bool) (c : nat * nat) :
  dx * dx + dy * dy <= radius0 * radius0 ->
  IZR px <= x0 + dx < IZR px + 1 ->
  IZR py <= y0 + dy < IZR py + 1 ->
  (0 <= px)%Z -> IZR px < mapWidth0 ->
  (0 <= py)%Z -> IZR py < mapHeight0 ->
  nth_error luminanceMap (Z.to_nat py) = Some row ->
  samplePoint dx dy c
  = Returned (match nth_error row (Z.to_nat px) with
              | Some true => S (fst c)
              | _ => fst c
              end, S (snd c)).
Proof.
  intros Hdisk Hpx Hpy Hpx0 Hpx1 Hpy0 Hpy1 Hrow. unfold CirclePlacer.samplePoint.
  replace (leb _ _) with true by (symmetry; now apply leb_true).
  replace (Int_part (x0 + dx)) with px by (apply Int_part_spec; lra).
  replace (Int_part (y0 + dy)) with py by (apply Int_part_spec; lra).
  replace (0 <=? px)%Z with true by (symmetry; now apply Z.leb_le).
  replace (0 <=? py)%Z with true by (symmetry; now apply Z.leb_le).
  replace (ltb (IZR px) mapWidth0) with true by (symmetry; now apply ltb_true).
  replace (ltb (IZR py) mapHeight0) with true by (symmetry; now apply ltb_true).
  cbn [andb]. rewrite Hrow.
  now destruct (nth_error row (Z.to_nat px)) as [[|]|].
Qed.

(** A row whose pixels are all outside the map leaves the counts as they
    are. *)
Lemma rowLoop_outside_row (fuel : nat) (dy : R) (py : Z) (c : nat * nat) :
  0 < step ->
  radius0 < - radius0 + INR fuel * step ->
  IZR py <= y0 + dy < IZR py + 1 ->
  (py < 0)%Z \/ mapHeight0 <= IZR py ->
  rowLoop fuel dy (- radius0) c = Returned c.
Proof.
  intros Hstep Hfuel Hpy Hout.
  assert (Hgen : forall (f : nat) (dx : R),
             radius0 < dx + INR f * step -> rowLoop f dy dx c = Returned c).
  { induction f as [|f IH]; intros dx Hf.
    - apply rowLoop_done. simpl in Hf. lra.
    - destruct (Rle_dec dx radius0) as [Hle|Hgt].
      + rewrite rowLoop_turn by exact Hle.
        rewrite (samplePoint_outside_row dx dy py c Hpy Hout); cbn [bind].
        apply IH. rewrite S_INR in Hf. lra.
      + apply rowLoop_done. lra. }
  now apply Hgen.
Qed.

End SamplingLoops.

(** ** Samples that are counted *)

Section SamplingHits.

Local Open Scope R_scope.
Import CirclePlacer.

Variables (x0 y0 radius0 : R).
Variable luminanceMap : list (list bool).
Variables (mapWidth0 mapHeight0 : R).

#[local] Abbreviation samplePoint :=
  (samplePoint x0 y0 radius0 luminanceMap mapWidth0 mapHeight0).
#[local] Abbreviation rowLoop :=
  (rowLoop x0 y0 radius0 luminanceMap mapWidth0 mapHeight0).
#[local] Abbreviation gridLoop :=
  (gridLoop x0 y0 radius0 luminanceMap mapWidth0 mapHeight0).
#[local] Abbreviation step := (radius0 / samples radius0).

#[local] Abbreviation counts := (sampleCounts x0 y0 radius0 mapWidth0 mapHeight0).

Lemma samplePoint_mono (n : nat) (dx dy : R) (c c' : nat * nat) :
  (n <= snd c)%nat -> samplePoint dx dy c = Returned c' -> (n <= snd c')%nat.
Proof.
  intros Hn Hs.
  destruct (samplePoint_cases _ _ _ _ _ _ _ _ _ _ Hs)
    as [-> | (row & _ & _ & _ & Ht & _)]; lia.
Qed.

Lemma samplePoint_counts (dx dy : R) (c c' : nat * nat) :
  counts dx dy -> samplePoint dx dy c = Returned c' -> snd c' = S (snd c).
Proof.
  intros (Hdisk & Hpx0 & Hpx1 & Hpy0 & Hpy1). unfold CirclePlacer.samplePoint.
  replace (leb _ _) with true by (symmetry; now apply leb_true).
  replace (0 <=? Int_part (x0 + dx))%Z with true by (symmetry; now apply Z.leb_le).
  replace (0 <=? Int_part (y0 + dy))%Z with true by (symmetry; now apply Z.leb_le).
  replace (ltb (IZR (Int_part (x0 + dx))) mapWidth0) with true
    by (symmetry; now apply ltb_true).
  replace (ltb (IZR (Int_part (y0 + dy))) mapHeight0) with true
    by (symmetry; now apply ltb_true).
  cbn [andb].
  destruct (nth_error luminanceMap _) as [row|]; [|discriminate].
  destruct (nth_error row _) as [[|]|]; now intros [= <-].
Qed.

Lemma rowLoop_mono (n fuel : nat) (dy dx : R) (c c' : nat * nat) :
  (n <= snd c)%nat -> rowLoop fuel dy dx c = Returned c' -> (n <= snd c')%nat.
Proof.
  apply (rowLoop_invariant x0 y0 radius0 luminanceMap mapWidth0 mapHeight0
                           (fun c => (n <= snd c)%nat)).
  intros dx0 c0 c1. apply samplePoint_mono.
Qed.

Lemma gridLoop_mono (n rowFuel fuel : nat) (dy : R) (c c' : nat * nat) :
  (n <= snd c)%nat -> gridLoop rowFuel fuel dy c = Returned c' -> (n <= snd c')%nat.
Proof.
  apply (gridLoop_invariant x0 y0 radius0 luminanceMap mapWidth0 mapHeight0
                            (fun c => (n <= snd c)%nat)).
  intros dx0 dy0 c0 c1. apply samplePoint_mono.
Qed.

(** A row that reaches, after [k] steps, an offset that counts, ends with
    more samples than it began with; so does a grid that reaches such a
    row after [k] steps. *)
Lemma rowLoop_counts (dy : R) (k : nat) :
  0 <= step ->
  forall (fuel : nat) (dx : R) (c c' : nat * nat),
    rowLoop fuel dy dx c = Returned c' ->
    dx + INR k * step <= radius0 ->
    counts (dx + INR k * step) dy ->
    (snd c < snd c')%nat.
Proof.
  intros Hstep; induction k as [|k IH]; intros fuel dx c c' Hrun Hle Hcounts.
  - replace (dx + INR 0 * step) with dx in * by (simpl; ring).
    destruct fuel as [|fuel].
    + cbn [CirclePlacer.rowLoop] in Hrun.
      replace (leb dx radius0) with true in Hrun by (symmetry; now apply leb_true).
      discriminate.
    + rewrite rowLoop_turn in Hrun by exact Hle.
      destruct (samplePoint dx dy c) as [c1| |] eqn:Hs; cbn [bind] in Hrun;
        try discriminate.
      pose proof (samplePoint_counts _ _ _ _ Hcounts Hs) as H1.
      pose proof (rowLoop_mono (snd c1) _ _ _ _ _ (Nat.le_refl _) Hrun). lia.
  - assert (Hk : 0 <= INR k * step).
    { apply Rmult_le_pos; [apply pos_INR | exact Hstep]. }
    rewrite S_INR in Hle, Hcounts.
    destruct fuel as [|fuel].
    + cbn [CirclePlacer.rowLoop] in Hrun.
      replace (leb dx radius0) with true in Hrun by (symmetry; apply leb_true; lra).
      discriminate.
    + rewrite rowLoop_turn in Hrun by lra.
      destruct (samplePoint dx dy c) as [c1| |] eqn:Hs; cbn [bind] in Hrun;
        try discriminate.
      pose proof (samplePoint_mono (snd c) _ _ _ _ (Nat.le_refl _) Hs) as H1.
      replace (dx + (INR k + 1) * step) with (dx + step + INR k * step) in * by ring.
      pose proof (IH _ _ _ _ Hrun Hle Hcounts). lia.
Qed.

Lemma gridLoop_counts (rowFuel j k : nat) :
  0 <= step ->
  - radius0 + INR j * step <= radius0 ->
  forall (fuel : nat) (dy : R) (c c' : nat * nat),
    gridLoop rowFuel fuel dy c = Returned c' ->
    dy + INR k * step <= radius0 ->
    counts (- radius0 + INR j * step) (dy + INR k * step) ->
    (snd c < snd c')%nat.
Proof.
  intros Hstep Hj; induction k as [|k IH]; intros fuel dy c c' Hrun Hle Hcounts.
  - replace (dy + INR 0 * step) with dy in * by (simpl; ring).
    destruct fuel as [|fuel].
    + cbn [CirclePlacer.gridLoop] in Hrun.
      replace (leb dy radius0) with true in Hrun by (symmetry; now apply leb_true).
      discriminate.
    + rewrite gridLoop_turn in Hrun by exact Hle.
      destruct (rowLoop rowFuel dy (- radius0) c) as [c1| |] eqn:Hr; cbn [bind] in Hrun;
        try discriminate.
      pose proof (rowLoop_counts dy j Hstep _ _ _ _ Hr Hj Hcounts) as H1.
      pose proof (gridLoop_mono (snd c1) _ _ _ _ _ (Nat.le_refl _) Hrun). lia.
  - assert (Hk : 0 <= INR k * step).
    { apply Rmult_le_pos; [apply pos_INR | exact Hstep]. }
    rewrite S_INR in Hle, Hcounts.
    destruct fuel as [|fuel].
    + cbn [CirclePlacer.gridLoop] in Hrun.
      replace (leb dy radius0) with true in Hrun by (symmetry; apply leb_true; lra).
      discriminate.
    + rewrite gridLoop_turn in Hrun by lra.
      destruct (rowLoop rowFuel dy (- radius0) c) as [c1| |] eqn:Hr; cbn [bind] in Hrun;
        try discriminate.
      pose proof (rowLoop_mono (snd c) _ _ _ _ _ (Nat.le_refl _) Hr) as H1.
      replace (dy + (INR k + 1) * step) with (dy + step + INR k * step) in * by ring.
      pose proof (IH _ _ _ _ Hrun Hle Hcounts). lia.
Qed.

(** A circle of radius at most 8 has its centre among its samples: when
    the centre is in the map, at least one sample is counted. *)
Lemma sampleCircle_centre (fuel : nat) (c : nat * nat) :
  0 < radius0 <= 8 ->
  (0 <= Int_part x0)%Z -> IZR (Int_part x0) < mapWidth0 ->
  (0 <= Int_part y0)%Z -> IZR (Int_part y0) < mapHeight0 ->
  sampleCircle x0 y0 radius0 luminanceMap mapWidth0 mapHeight0 fuel = Returned c ->
  (0 < snd c)%nat.
Proof.
  intros Hr Hx0 Hx1 Hy0 Hy1 Hrun.
  assert (Hs : samples radius0 = 8) by (unfold samples; apply Rmax_left; lra).
  assert (Hstep : step = radius0 / 8) by now rewrite Hs.
  assert (Hmid : - radius0 + INR 8 * step = 0).
  { rewrite Hstep. cbn [INR]. field. }
  apply (gridLoop_counts fuel 8 8) with (3 := Hrun).
  - rewrite Hstep. lra.
  - rewrite Hmid. lra.
  - rewrite Hmid. lra.
  - rewrite Hmid. unfold sampleCounts. rewrite !Rplus_0_r.
    repeat split; try assumption. nra.
Qed.

(** A circle of radius 0 is never classified: the step of both loops is
    0, so the offsets stay at 0 and the sampling does not return. *)
Lemma rowLoop_zero_step (dy : R) (fuel : nat) (dx : R) (c c' : nat * nat) :
  step = 0 -> dx <= radius0 -> rowLoop fuel dy dx c <> Returned c'.
Proof.
  intros Hstep; revert dx c; induction fuel as [|fuel IH]; intros dx c Hle;
    cbn [CirclePlacer.rowLoop];
    replace (leb dx radius0) with true by (symmetry; now apply leb_true).
  - discriminate.
  - destruct (samplePoint dx dy c) as [c1| |]; cbn [bind]; try discriminate.
    apply IH. rewrite Hstep. lra.
Qed.

Lemma sampleCircle_zero_radius (fuel : nat) (c : nat * nat) :
  radius0 = 0 ->
  sampleCircle x0 y0 radius0 luminanceMap mapWidth0 mapHeight0 fuel <> Returned c.
Proof.
  intros Hr. unfold sampleCircle.
  assert (Hstep : step = 0) by (rewrite Hr; unfold Rdiv; ring).
  destruct fuel as [|fuel]; cbn [CirclePlacer.gridLoop];
    replace (leb (- radius0) radius0) with true by (symmetry; apply leb_true; lra).
  - discriminate.
  - destruct (rowLoop (S fuel) (- radius0) (- radius0) (0%nat, 0%nat)) as [c1| |] eqn:Hrow;
      cbn [bind]; try discriminate.
    exfalso. apply (rowLoop_zero_step _ _ _ _ _ Hstep) in Hrow; [exact Hrow | lra].
Qed.

End SamplingHits.

(** ** A circle that covers as much foreground as background *)

Section HalfCovered.

Local Open Scope R_scope.
Import CirclePlacer.

Lemma samples_8 : samples 8 = 8.
Proof. unfold samples. apply Rmax_left. lra. Qed.

Lemma step_8 : 8 / samples 8 = 1.
Proof. rewrite samples_8. lra. Qed.

Ltac outside_row py :=
  rewrite gridLoop_turn by lra; rewrite step_8;
  rewrite (rowLoop_outside_row _ _ _ _ _ _ 18 _ py)
    by (rewrite ?step_8; cbn [INR]; first [lra | left; lia | right; lra]);
  cbn [bind].

Ltac outside_column px :=
  rewrite rowLoop_turn by lra; rewrite step_8;
  rewrite (samplePoint_outside_column _ _ _ _ _ _ _ _ px)
    by (first [lra | left; lia | right; lra]);
  cbn [bind].

Ltac inside px :=
  rewrite rowLoop_turn by lra; rewrite step_8;
  rewrite (samplePoint_inside _ _ _ halfMask _ _ _ _ px 0%Z
             [false; false; false; false; true; true; true; true])
    by (first [lra | lia | reflexivity]);
  cbn [bind fst snd nth_error Z.to_nat Pos.to_nat Pos.iter_op Nat.add].

(** The circle of radius 8 centred at [(-1/2, 1/2)] has eight samples
    inside the map, four of them on foreground. *)
Lemma sampleCircle_half :
  sampleCircle (-1 / 2) (1 / 2) 8 halfMask 8 1 18 = Returned (4%nat, 8%nat).
Proof.
  unfold sampleCircle.
  outside_row (-8)%Z. outside_row (-7)%Z. outside_row (-6)%Z. outside_row (-5)%Z.
  outside_row (-4)%Z. outside_row (-3)%Z. outside_row (-2)%Z. outside_row (-1)%Z.
  rewrite gridLoop_turn by lra; rewrite step_8.
  outside_column (-9)%Z. outside_column (-8)%Z. outside_column (-7)%Z.
  outside_column (-6)%Z. outside_column (-5)%Z. outside_column (-4)%Z.
  outside_column (-3)%Z. outside_column (-2)%Z. outside_column (-1)%Z.
  inside 0%Z. inside 1%Z. inside 2%Z. inside 3%Z.
  inside 4%Z. inside 5%Z. inside 6%Z. inside 7%Z.
  rewrite rowLoop_done by lra. cbn [bind].
  outside_row 1%Z. outside_row 2%Z. outside_row 3%Z. outside_row 4%Z.
  outside_row 5%Z. outside_row 6%Z. outside_row 7%Z. outside_row 8%Z.
  rewrite gridLoop_done by lra.
  reflexivity.
Qed.

End HalfCovered.

(** ** Region classifier *)

Section RegionClassifier.

Local Open Scope R_scope.
Import CirclePlacer.

Lemma ratio_half : INR 4 / INR 8 = 0.5.
Proof. cbn [INR]. lra. Qed.

(** C5, as stated, fails: the circle of radius 8 centred at [(-1/2, 1/2)]
    has a ratio of exactly one half over [halfMask]; with a tolerance of
    one half it is not rejected, and the colour returned is [offColor], not
    [onColor]. *)
Lemma half_ratio_gives_offColor :
  sampleCircle (-1 / 2) (1 / 2) 8 halfMask (mapWidth halfOptions) (mapHeight halfOptions) 18
  = Returned (4%nat, 8%nat)
  /\ INR 4 / INR 8 = 0.5
  /\ 0.5 <= tolerance halfOptions
  /\ determineCircleColor 18 (-1 / 2) (1 / 2) 8 halfMask halfOptions
     = Returned (offColor halfOptions)
  /\ determineCircleColor 18 (-1 / 2) (1 / 2) 8 halfMask halfOptions
     <> Returned (onColor halfOptions).
Proof.
  assert (Hres : determineCircleColor 18 (-1 / 2) (1 / 2) 8 halfMask halfOptions
                 = Returned (offColor halfOptions)).
  { unfold determineCircleColor. cbn [mapWidth mapHeight halfOptions].
    rewrite sampleCircle_half. cbn [bind]. f_equal.
    unfold classify. cbn [fst snd Nat.eqb tolerance halfOptions onColor offColor].
    rewrite ratio_half.
    replace (gtb 0.5 0.5) with false by (symmetry; apply gtb_false; lra).
    reflexivity. }
  split; [exact sampleCircle_half|].
  split; [exact ratio_half|].
  split; [cbn; lra|].
  split; [exact Hres|].
  rewrite Hres. cbn. discriminate.
Qed.

(** C5, amended.  When the ratio of the samples on foreground is exactly
    one half and the tolerance band does not reject the circle, which is
    when the tolerance is at least one half, [determineCircleColor] takes
    the branch of [offColor]. *)
Theorem determineCircleColor_half
        (fuel : nat) (x0 y0 radius0 : R) (luminanceMap : list (list bool))
        (options : ColorOptions) (inPixels totalPixels : nat) :
  sampleCircle x0 y0 radius0 luminanceMap (mapWidth options) (mapHeight options) fuel
  = Returned (inPixels, totalPixels) ->
  totalPixels <> 0%nat ->
  INR inPixels / INR totalPixels = 0.5 ->
  0.5 <= tolerance options ->
  determineCircleColor fuel x0 y0 radius0 luminanceMap options
  = Returned (offColor options).
Proof.
  intros Hsample Ht Hratio Htol.
  unfold determineCircleColor. rewrite Hsample. cbn [bind]. f_equal.
  unfold classify. cbn [fst snd].
  replace (totalPixels =? 0)%nat with false by (symmetry; now apply Nat.eqb_neq).
  rewrite Hratio.
  replace (gtb 0.5 (tolerance options)) with false by (symmetry; apply gtb_false; lra).
  replace (gtb 0.5 0.5) with false by (symmetry; apply gtb_false; lra).
  reflexivity.
Qed.

Lemma determineCircleColor_half_witness :
  determineCircleColor 18 (-1 / 2) (1 / 2) 8 halfMask halfOptions
  = Returned (offColor halfOptions).
Proof.
  apply (determineCircleColor_half 18 (-1 / 2) (1 / 2) 8 halfMask halfOptions 4 8).
  - exact sampleCircle_half.
  - discriminate.
  - exact ratio_half.
  - cbn; lra.
Defined.

End RegionClassifier.

(** ** A circle over background *)

Section Background.

Local Open Scope R_scope.
Import CirclePlacer.

(** Over a mask without foreground, a circle of radius at most 8 whose
    centre is in the map gets [offColor], for any tolerance that is not
    negative and any fuel above twice the number of samples. *)
Lemma determineCircleColor_background
      (fuel : nat) (x0 y0 radius0 : R) (luminanceMap : list (list bool))
      (options : ColorOptions) :
  0 < radius0 <= 8 ->
  (0 <= Int_part x0)%Z -> IZR (Int_part x0) < mapWidth options ->
  (0 <= Int_part y0)%Z -> IZR (Int_part y0) < mapHeight options ->
  allFalse luminanceMap ->
  rowsCover (mapHeight options) luminanceMap ->
  0 <= tolerance options ->
  2 * samples radius0 < INR fuel ->
  determineCircleColor fuel x0 y0 radius0 luminanceMap options
  = Returned (offColor options).
Proof.
  intros Hr Hx0 Hx1 Hy0 Hy1 Hmask Hrows Htol Hfuel.
  destruct (sampleCircle_returns x0 y0 radius0 luminanceMap
              (mapWidth options) (mapHeight options) fuel (proj1 Hr) Hrows Hfuel)
    as [[inPixels totalPixels] Hrun].
  pose proof (sampleCircle_allFalse _ _ _ _ _ _ _ _ Hmask Hrun) as Hin.
  pose proof (sampleCircle_centre _ _ _ _ _ _ _ _ Hr Hx0 Hx1 Hy0 Hy1 Hrun) as Htot.
  cbn [fst snd] in Hin, Htot. subst inPixels.
  unfold determineCircleColor. rewrite Hrun. cbn [bind]. f_equal.
  unfold classify. cbn [fst snd].
  replace (totalPixels =? 0)%nat with false by (symmetry; apply Nat.eqb_neq; lia).
  replace (INR 0 / INR totalPixels) with 0 by (unfold Rdiv; rewrite INR_0; ring).
  replace (gtb 0 (tolerance options)) with false by (symmetry; now apply gtb_false).
  replace (gtb 0 0.5) with false by (symmetry; apply gtb_false; lra).
  reflexivity.
Qed.

Lemma isValidPlacement_rectangular (x0 y0 radius0 : R) (existing : list Circle)
      (constraints : Constraints) :
  circular constraints = false ->
  margin constraints <= x0 - radius0 ->
  x0 + radius0 <= width constraints - margin constraints ->
  margin constraints <= y0 - radius0 ->
  y0 + radius0 <= height constraints - margin constraints ->
  clearOfAll x0 y0 radius0 (padding constraints) existing = true ->
  isValidPlacement x0 y0 radius0 existing constraints = true.
Proof.
  intros Hc H1 H2 H3 H4 Hclear. unfold isValidPlacement.
  replace (ltb (x0 - radius0) (margin constraints)) with false
    by (symmetry; now apply ltb_false).
  replace (gtb (x0 + radius0) (width constraints - margin constraints)) with false
    by (symmetry; now apply gtb_false).
  replace (ltb (y0 - radius0) (margin constraints)) with false
    by (symmetry; now apply ltb_false).
  replace (gtb (y0 + radius0) (height constraints - margin constraints)) with false
    by (symmetry; now apply gtb_false).
  rewrite Hc. cbn [orb andb]. exact Hclear.
Qed.

Lemma isValidPlacement_left_of_margin (x0 y0 radius0 : R) (existing : list Circle)
      (constraints : Constraints) :
  x0 - radius0 < margin constraints ->
  isValidPlacement x0 y0 radius0 existing constraints = false.
Proof.
  intros H. unfold isValidPlacement.
  now replace (ltb (x0 - radius0) (margin constraints)) with true
    by (symmetry; now apply ltb_true).
Qed.

Lemma allFalse_blankMask : allFalse blankMask.
Proof.
  unfold allFalse, blankMask. apply Forall_forall. intros row Hrow.
  apply repeat_spec in Hrow; subst row.
  apply Forall_forall. intros b Hb. now apply repeat_spec in Hb.
Qed.

Lemma rowsCover_blankMask : rowsCover 100 blankMask.
Proof.
  intros py H0 H1. apply nth_error_Some.
  unfold blankMask. rewrite repeat_length.
  apply lt_IZR in H1. lia.
Qed.

End Background.

(** ** A run of the packing loop *)

Section SmallRun.

Local Open Scope R_scope.
Import ColorVisionGenerator.

(** One pass in rectangular mode, when the candidate is accepted and when
    its placement is rejected. *)
Lemma iteration_accepts (options : Options) (rnd : nat -> R)
      (luminanceMap : list (list bool)) (sampleFuel : nat) (st : LoopState)
      (x0 y0 r : R) (color : value) :
  circular options = false ->
  margin options + rnd (drawn st) * (width options - margin options * 2) = x0 ->
  margin options + rnd (S (drawn st)) * (height options - margin options * 2) = y0 ->
  minRadius options + rnd (S (S (drawn st))) * (currentMaxRadius st - minRadius options)
  = r ->
  CirclePlacer.isValidPlacement x0 y0 r (circles st) (constraints options) = true ->
  CirclePlacer.determineCircleColor sampleFuel x0 y0 r luminanceMap (colorOptions options)
  = Returned color ->
  truthy color = true ->
  iteration options rnd luminanceMap sampleFuel st
  = Returned {| circles := circles st ++ [CirclePlacer.mkCircle x0 y0 r color];
                attempts := 0;
                currentMaxRadius := currentMaxRadius st;
                drawn := S (S (S (drawn st)));
                iterations := S (iterations st) |}.
Proof.
  intros Hc <- <- <- Hvalid Hcolor Htruthy.
  unfold iteration, place, CirclePlacer.generateRandomPosition.
  change (CirclePlacer.circular (constraints options)) with (circular options).
  rewrite Hc. cbv beta iota zeta. cbn [fst snd].
  change (CirclePlacer.margin (constraints options)) with (margin options).
  change (CirclePlacer.width (constraints options)) with (width options).
  change (CirclePlacer.height (constraints options)) with (height options).
  rewrite Hvalid, Hcolor. cbn [bind]. rewrite Htruthy. cbn [bind].
  reflexivity.
Qed.

Lemma iteration_rejects (options : Options) (rnd : nat -> R)
      (luminanceMap : list (list bool)) (sampleFuel : nat) (st : LoopState)
      (x0 y0 r : R) :
  circular options = false ->
  margin options + rnd (drawn st) * (width options - margin options * 2) = x0 ->
  margin options + rnd (S (drawn st)) * (height options - margin options * 2) = y0 ->
  minRadius options + rnd (S (S (drawn st))) * (currentMaxRadius st - minRadius options)
  = r ->
  CirclePlacer.isValidPlacement x0 y0 r (circles st) (constraints options) = false ->
  (attempts st + 1 <= 1000)%Z ->
  iteration options rnd luminanceMap sampleFuel st
  = Returned {| circles := circles st;
                attempts := attempts st + 1;
                currentMaxRadius := currentMaxRadius st;
                drawn := S (S (S (drawn st)));
                iterations := S (iterations st) |}.
Proof.
  intros Hc <- <- <- Hvalid Hfew.
  unfold iteration, place, CirclePlacer.generateRandomPosition.
  change (CirclePlacer.circular (constraints options)) with (circular options).
  rewrite Hc. cbv beta iota zeta. cbn [fst snd].
  change (CirclePlacer.margin (constraints options)) with (margin options).
  change (CirclePlacer.width (constraints options)) with (width options).
  change (CirclePlacer.height (constraints options)) with (height options).
  rewrite Hvalid. cbn [bind].
  replace (1000 <? attempts st + 1)%Z with false by (symmetry; now apply Z.ltb_ge).
  reflexivity.
Qed.

Lemma samples_4_is_8 : CirclePlacer.samples 4 = 8.
Proof. unfold CirclePlacer.samples. apply Rmax_left. lra. Qed.

Lemma offColor_at (x0 y0 : R) (px py : Z) :
  IZR px <= x0 < IZR px + 1 -> IZR py <= y0 < IZR py + 1 ->
  (0 <= px < 100)%Z -> (0 <= py < 100)%Z ->
  CirclePlacer.determineCircleColor 17 x0 y0 4 blankMask (colorOptions smallOptions)
  = Returned (VString "#4ECDC4").
Proof.
  intros Hx Hy Hpx Hpy.
  assert (Ex : Int_part x0 = px) by (symmetry; apply Int_part_spec; lra).
  assert (Ey : Int_part y0 = py) by (symmetry; apply Int_part_spec; lra).
  apply (determineCircleColor_background 17 x0 y0 4 blankMask (colorOptions smallOptions));
    cbn [colorOptions smallOptions CirclePlacer.mapWidth CirclePlacer.mapHeight
         CirclePlacer.tolerance width height tolerance];
    rewrite ?Ex, ?Ey;
    try lra; try lia;
    try (apply IZR_lt; lia);
    try exact allFalse_blankMask; try exact rowsCover_blankMask.
  rewrite samples_4_is_8. cbn [INR]. lra.
Qed.

Lemma whileLoop_turn (options : Options) (rnd : nat -> R)
      (luminanceMap : list (list bool)) (sampleFuel fuel : nat) (st : LoopState) :
  (attempts st < maxAttempts options)%Z ->
  whileLoop options rnd luminanceMap sampleFuel (S fuel) st
  = bind (iteration options rnd luminanceMap sampleFuel st)
         (whileLoop options rnd luminanceMap sampleFuel fuel).
Proof.
  intros Hlt. cbn [whileLoop].
  now replace (attempts st <? maxAttempts options)%Z with true
    by (symmetry; now apply Z.ltb_lt).
Qed.

Lemma whileLoop_done (options : Options) (rnd : nat -> R)
      (luminanceMap : list (list bool)) (sampleFuel fuel : nat) (st : LoopState) :
  (maxAttempts options <= attempts st)%Z ->
  whileLoop options rnd luminanceMap sampleFuel fuel st = Returned st.
Proof.
  intros Hge.
  destruct fuel; cbn [whileLoop];
    now replace (attempts st <? maxAttempts options)%Z with false
      by (symmetry; now apply Z.ltb_ge).
Qed.

Ltac small :=
  cbn [draws nth initialState smallOptions smallRunFirst smallRunSecond
       firstCircle secondCircle
       drawn circles attempts currentMaxRadius iterations
       margin width height minRadius maxRadius circular padding tolerance
       constraints colorOptions
       CirclePlacer.margin CirclePlacer.width CirclePlacer.height
       CirclePlacer.circular CirclePlacer.padding
       CirclePlacer.x CirclePlacer.y CirclePlacer.radius
       CirclePlacer.clearOfAll].

Lemma smallRun_first :
  iteration smallOptions draws blankMask 17 (initialState smallOptions)
  = Returned smallRunFirst.
Proof.
  etransitivity.
  - apply (iteration_accepts smallOptions draws blankMask 17 (initialState smallOptions)
                             10 10 4 (VString "#4ECDC4")).
    + reflexivity.
    + small. lra.
    + small. lra.
    + small. lra.
    + apply isValidPlacement_rectangular; small; try lra; reflexivity.
    + apply (offColor_at 10 10 10 10); try lra; lia.
    + reflexivity.
  - reflexivity.
Qed.

Lemma smallRun_second :
  iteration smallOptions draws blankMask 17 smallRunFirst = Returned smallRunSecond.
Proof.
  etransitivity.
  - apply (iteration_accepts smallOptions draws blankMask 17 smallRunFirst
                             30 10 4 (VString "#4ECDC4")).
    + reflexivity.
    + small. lra.
    + small. lra.
    + small. lra.
    + apply isValidPlacement_rectangular; small; try lra; try reflexivity.
      replace (ltb _ _) with false; [reflexivity|].
      symmetry. apply ltb_false.
      replace ((30 - 10) * (30 - 10) + (10 - 10) * (10 - 10)) with (20 * 20) by ring.
      rewrite sqrt_square by lra. lra.
    + apply (offColor_at 30 10 30 10); try lra; lia.
    + reflexivity.
  - reflexivity.
Qed.

Lemma smallRun_third :
  iteration smallOptions draws blankMask 17 smallRunSecond = Returned smallRunEnd.
Proof.
  etransitivity.
  - apply (iteration_rejects smallOptions draws blankMask 17 smallRunSecond 0 0 4).
    + reflexivity.
    + small. lra.
    + small. lra.
    + small. lra.
    + apply isValidPlacement_left_of_margin; small. lra.
    + small. lia.
  - reflexivity.
Qed.

(** The run places two circles and stops after a third pass. *)
Lemma smallRun : run smallOptions draws blankMask 17 3 = Returned smallRunEnd.
Proof.
  unfold run.
  rewrite whileLoop_turn by (cbn; lia). rewrite smallRun_first. cbn [bind].
  rewrite whileLoop_turn by (cbn; lia). rewrite smallRun_second. cbn [bind].
  rewrite whileLoop_turn by (cbn; lia). rewrite smallRun_third. cbn [bind].
  apply whileLoop_done. cbn. lia.
Qed.

Lemma smallRun_circles :
  _generateCircles smallOptions draws blankMask 17 3
  = Returned [firstCircle; secondCircle].
Proof. unfold _generateCircles. now rewrite smallRun. Qed.

End SmallRun.

(** ** The circle set returned *)

Section PackingClaims.

Local Open Scope R_scope.
Import ColorVisionGenerator.

Lemma generateCircles_run (options : Options) (rnd : nat -> R)
      (luminanceMap : list (list bool)) (sampleFuel fuel : nat)
      (cs : list CirclePlacer.Circle) :
  _generateCircles options rnd luminanceMap sampleFuel fuel = Returned cs ->
  exists st : LoopState,
    run options rnd luminanceMap sampleFuel fuel = Returned st /\ circles st = cs.
Proof.
  unfold _generateCircles.
  destruct (run options rnd luminanceMap sampleFuel fuel) as [st| |]; cbn [bind];
    try discriminate.
  intros [= <-]. now exists st.
Qed.

(** C2, as stated, fails: with a budget of one attempt the run below
    makes three passes, because each of the two placements puts the
    counter back to 0. *)
Lemma generateCircles_passes_exceed_budget :
  run smallOptions draws blankMask 17 3 = Returned smallRunEnd
  /\ maxAttempts smallOptions = 1%Z
  /\ iterations smallRunEnd = 3%nat
  /\ Z.of_nat (iterations smallRunEnd) <> maxAttempts smallOptions.
Proof.
  split; [exact smallRun|].
  repeat split. cbn. lia.
Qed.

(** C2, amended.  The counter that bounds the loop counts the failures
    since the last reset: every pass either adds one to it or puts it back
    to 0, and a pass that places a circle or reduces the radius ceiling
    puts it back to 0.  The loop returns exactly when this counter is no
    longer below [maxAttempts]; it then equals [maxAttempts] when that is
    not negative, and the number of passes made is at least
    [maxAttempts]. *)
Theorem packing_loop_counter
        (options : Options) (rnd : nat -> R) (luminanceMap : list (list bool))
        (sampleFuel : nat) :
  (forall st st' : LoopState,
      iteration options rnd luminanceMap sampleFuel st = Returned st' ->
      iterations st' = S (iterations st)
      /\ (attempts st' = 0 \/ attempts st' = attempts st + 1)%Z
      /\ (circles st' <> circles st -> attempts st' = 0%Z)
      /\ (currentMaxRadius st' <> currentMaxRadius st -> attempts st' = 0%Z))
  /\ (forall (fuel : nat) (st : LoopState),
         run options rnd luminanceMap sampleFuel fuel = Returned st ->
         (maxAttempts options <= attempts st)%Z
         /\ ((0 <= maxAttempts options)%Z -> attempts st = maxAttempts options)
         /\ (maxAttempts options <= Z.of_nat (iterations st))%Z).
Proof.
  split.
  - intros st st' Hit.
    destruct (iteration_cases _ _ _ _ _ _ Hit) as (cs & a & d & Hplace & Hcs & Hn & Hcase).
    split; [exact Hn|].
    destruct (place_cases _ _ _ _ _ _ _ _ Hplace) as [[-> ->] | (c & -> & -> & _)];
      destruct Hcase as [(Ha & Hk & Hr) | (Ha & Hr)].
    + repeat split; [now left | now intros _ | now intros _].
    + repeat split; [now right | congruence | congruence].
    + lia.
    + repeat split; [now left | now intros _ | now intros _].
  - intros fuel st Hrun.
    pose proof (whileLoop_exit _ _ _ _ _ _ _ Hrun) as Hexit.
    destruct (run_counted _ _ _ _ _ _ Hrun) as [Hrange Hmax].
    repeat split; lia.
Qed.

Lemma packing_loop_counter_witness :
  (maxAttempts smallOptions <= attempts smallRunEnd)%Z
  /\ ((0 <= maxAttempts smallOptions)%Z -> attempts smallRunEnd = maxAttempts smallOptions)
  /\ (maxAttempts smallOptions <= Z.of_nat (iterations smallRunEnd))%Z.
Proof.
  apply (proj2 (packing_loop_counter smallOptions draws blankMask 17) 3%nat smallRunEnd).
  exact smallRun.
Defined.

End PackingClaims.

(** ** Arithmetic on doubles *)

Section DoubleArithmetic.

Import PrimFloat SpecFloat FloatOps FloatAxioms.
Import Binary64.
Local Open Scope float_scope.

(** A quotient whose numerator is 0 is a zero or NaN: it is not above
    one half. *)
Lemma zero_div_not_above_half (t : float) : gtb (zero / t) 0.5 = false.
Proof.
  unfold gtb. rewrite ltb_spec, div_spec.
  destruct (Prim2SF t) as [s|s| |s m e]; try destruct s; vm_compute; reflexivity.
Qed.

Lemma div_eucl_shiftl (m : positive) :
  Z.div_eucl (Z.shiftl (Zpos m) 53) (Zpos m) = (9007199254740992%Z, 0%Z).
Proof.
  rewrite Z.shiftl_mul_pow2 by lia.
  pose proof (Z.div_eucl_eq (Z.pos m * 2 ^ 53) (Z.pos m)) as Heq.
  pose proof (Z.mod_pos_bound (Z.pos m * 2 ^ 53) (Z.pos m)) as Hb.
  unfold Z.modulo in Hb.
  destruct (Z.div_eucl (Z.pos m * 2 ^ 53) (Z.pos m)) as [q r].
  specialize (Heq ltac:(lia)). specialize (Hb ltac:(lia)).
  change (2 ^ 53)%Z with 9007199254740992%Z in *.
  assert (q = 9007199254740992%Z) by nia.
  subst q. f_equal. lia.
Qed.

(** A finite double divided by itself is 1. *)
Lemma div_self (t : float) (s : bool) (m : positive) (e : Z) :
  Prim2SF t = S754_finite s m e -> t / t = one.
Proof.
  intros Ht. apply Prim2SF_inj. rewrite div_spec, Ht.
  unfold SF64div, SFdiv, SFdiv_core_binary.
  replace (Zdigits2 (Z.pos m) + e - (Zdigits2 (Z.pos m) + e))%Z with 0%Z by lia.
  replace (e - e)%Z with 0%Z by lia.
  change (Z.min (fexp prec emax 0) 0) with (-53)%Z.
  change (0 - -53)%Z with 53%Z.
  cbv iota.
  rewrite div_eucl_shiftl.
  assert (Hloc : new_location (Z.pos m) 0 = loc_Exact).
  { unfold new_location. destruct (Z.even (Z.pos m)); reflexivity. }
  rewrite Hloc.
  replace (xorb s s) with false by (now destruct s).
  vm_compute. reflexivity.
Qed.

Lemma digits2_pos_pow (p : positive) : (2 ^ Zpos (digits2_pos p) <= 2 * Zpos p)%Z.
Proof.
  induction p as [p IH|p IH|]; cbn [digits2_pos].
  - rewrite Pos2Z.inj_succ, Z.pow_succ_r by lia. lia.
  - rewrite Pos2Z.inj_succ, Z.pow_succ_r by lia. lia.
  - cbn. lia.
Qed.

Lemma digits2_pos_above (p : positive) : (Zpos p < 2 ^ Zpos (digits2_pos p))%Z.
Proof.
  induction p as [p IH|p IH|]; cbn [digits2_pos].
  - rewrite Pos2Z.inj_succ, Z.pow_succ_r by lia. lia.
  - rewrite Pos2Z.inj_succ, Z.pow_succ_r by lia. lia.
  - cbn. lia.
Qed.

Lemma digits2_pos_bound (p : positive) :
  (Zpos p < 2 ^ 53)%Z -> (Zpos (digits2_pos p) <= 53)%Z.
Proof.
  intros Hp. pose proof (digits2_pos_pow p) as Hd.
  destruct (Z_le_gt_dec (Zpos (digits2_pos p)) 53) as [H|H]; [exact H|exfalso].
  assert (2 ^ 54 <= 2 ^ Zpos (digits2_pos p))%Z by (apply Z.pow_le_mono_r; lia).
  change (2 ^ 54)%Z with (2 * 2 ^ 53)%Z in *. lia.
Qed.

Lemma digits2_pos_iter (p k : positive) :
  digits2_pos (Pos.iter xO p k) = (digits2_pos p + k)%positive.
Proof.
  induction k as [|k IH] using Pos.peano_ind.
  - cbn. lia.
  - rewrite Pos.iter_succ. cbn [digits2_pos]. rewrite IH. lia.
Qed.

Lemma iter_xO_pow (p k : positive) :
  Zpos (Pos.iter xO p k) = (Zpos p * 2 ^ Zpos k)%Z.
Proof.
  induction k as [|k IH] using Pos.peano_ind.
  - cbn. lia.
  - rewrite Pos.iter_succ, Pos2Z.inj_xO, IH, Pos2Z.inj_succ, Z.pow_succ_r by lia. lia.
Qed.

Lemma binary_round_aux_exact (m : positive) (e : Z) :
  Zpos (digits2_pos m) = 53%Z -> (-1074 <= e <= 971)%Z ->
  binary_round_aux prec emax false (Zpos m) e loc_Exact = S754_finite false m e.
Proof.
  intros Hd He.
  assert (Hf : (SpecFloat.fexp prec emax (Zdigits2 (Zpos m) + e) - e = 0)%Z).
  { unfold SpecFloat.fexp, SpecFloat.emin, prec, emax. cbn [Zdigits2]. rewrite Hd. lia. }
  unfold binary_round_aux, shr_fexp. rewrite Hf.
  cbn [shr shr_record_of_loc shr_m loc_of_shr_record round_nearest_even].
  rewrite Hf. cbn [shr shr_m].
  replace (e <=? emax - prec)%Z with true; [reflexivity|].
  symmetry. apply Z.leb_le. unfold emax, prec. lia.
Qed.

(** The double of an integer [n] with [0 < n < 2 ^ 53] is positive and
    finite, its mantissa has 53 digits, and it stands for [n]. *)
Lemma of_uint63_exact (n : Z) :
  (0 < n < 2 ^ 53)%Z ->
  exists (m : positive) (e : Z),
    Prim2SF (of_uint63 (Uint63.of_Z n)) = S754_finite false m e
    /\ Zpos (digits2_pos m) = 53%Z
    /\ (e <= 0)%Z
    /\ Zpos m = (n * 2 ^ (- e))%Z.
Proof.
  intros Hn. rewrite of_uint63_spec.
  change Uint63Axioms.to_Z with Uint63.to_Z.
  rewrite Uint63.of_Z_spec.
  rewrite Z.mod_small
    by (split; [lia|]; apply Z.lt_trans with (2 ^ 53)%Z; [lia | reflexivity]).
  destruct n as [|p|p]; try lia.
  cbn [binary_normalize]. unfold binary_round.
  pose proof (digits2_pos_bound p (proj2 Hn)) as Hd.
  assert (Hf : SpecFloat.fexp prec emax (Zpos (digits2_pos p) + 0)
               = (Zpos (digits2_pos p) - 53)%Z).
  { unfold SpecFloat.fexp, SpecFloat.emin, prec, emax. lia. }
  rewrite Hf. unfold shl_align.
  destruct (Z.pos (digits2_pos p) - 53 - 0)%Z as [|k|k] eqn:Ek; try lia.
  - exists p, 0%Z. split; [apply binary_round_aux_exact; lia|].
    repeat split; try lia.
  - exists (Pos.iter xO p k), (Zpos (digits2_pos p) - 53)%Z.
    split; [apply binary_round_aux_exact; [rewrite digits2_pos_iter|]; lia|].
    split; [rewrite digits2_pos_iter; lia|].
    split; [lia|].
    rewrite iter_xO_pow. f_equal. f_equal. lia.
Qed.

Lemma ofNat_exact (n : nat) :
  (0 < Z.of_nat n < 2 ^ 53)%Z ->
  exists (m : positive) (e : Z),
    Prim2SF (ofNat n) = S754_finite false m e
    /\ Zpos (digits2_pos m) = 53%Z
    /\ (e <= 0)%Z
    /\ Zpos m = (Z.of_nat n * 2 ^ (- e))%Z.
Proof. apply of_uint63_exact. Qed.

(** The mantissa of a double that is an integer other than 0 has 53
    digits. *)
Lemma integer_mantissa (m : positive) (e : Z) :
  valid_binary (S754_finite false m e) = true ->
  (e < 0)%Z -> (Zpos m mod 2 ^ (- e) = 0)%Z ->
  Zpos (digits2_pos m) = 53%Z.
Proof.
  cbn [SpecFloat.valid_binary]. unfold bounded, canonical_mantissa.
  intros Hv He Hdiv. apply andb_true_iff in Hv as [Hc _]. apply Z.eqb_eq in Hc.
  unfold SpecFloat.fexp, SpecFloat.emin, prec, emax in Hc.
  destruct (Z_le_gt_dec (-1074) (Zpos (digits2_pos m) + e - 53)) as [H|H]; [lia|].
  exfalso.
  assert (He' : e = (-1074)%Z) by lia. subst e.
  pose proof (digits2_pos_above m) as Hm.
  assert (2 ^ Zpos (digits2_pos m) <= 2 ^ 1074)%Z by (apply Z.pow_le_mono_r; lia).
  change (- -1074)%Z with 1074%Z in Hdiv.
  rewrite Z.mod_small in Hdiv by lia. lia.
Qed.

(** An index [i] read with a double below the double of [W] is below
    [W]. *)
Lemma index_below (v : float) (i W : nat) :
  index v = Some i -> (v <? ofNat W) = true -> (Z.of_nat W < 2 ^ 53)%Z -> (i < W)%nat.
Proof.
  unfold index. rewrite ltb_spec. pose proof (Prim2SF_valid v) as Hvalid.
  intros Hi Hlt HW.
  destruct W as [|W].
  { exfalso. change (Prim2SF (ofNat 0)) with (S754_zero false) in Hlt.
    destruct (Prim2SF v) as [s|s| |s m e]; try discriminate.
    destruct s; discriminate. }
  destruct (Prim2SF v) as [s|s| |s m e]; try discriminate.
  { injection Hi as <-. lia. }
  destruct s; [discriminate|].
  destruct (ofNat_exact (S W) ltac:(lia)) as (m' & e' & Hsf & Hd' & He' & Hm').
  rewrite Hsf in Hlt. unfold SFltb, SFcompare in Hlt.
  pose proof (digits2_pos_above m) as Hup. pose proof (digits2_pos_pow m') as Hlow'.
  rewrite Hd' in Hlow'.
  destruct (0 <=? e)%Z eqn:Ee.
  - apply Z.leb_le in Ee. injection Hi as <-.
    destruct (Z.compare_spec e e') as [Heq|Hlt'|Hgt]; try discriminate; try lia.
    assert (e = 0%Z) by lia. assert (e' = 0%Z) by lia. subst e e'.
    change (PosDef.Pos.compare_cont Eq m m') with (m ?= m')%positive in Hlt.
    destruct (Pos.compare_spec m m'); try discriminate.
    change (- 0)%Z with 0%Z in Hm'. rewrite Z.pow_0_r in Hm' |- *. lia.
  - apply Z.leb_gt in Ee.
    destruct (Zpos m mod 2 ^ (- e) =? 0)%Z eqn:Hdiv; [|discriminate].
    apply Z.eqb_eq in Hdiv. injection Hi as <-.
    pose proof (integer_mantissa m e Hvalid Ee Hdiv) as Hd. rewrite Hd in Hup.
    apply Z.div_exact in Hdiv; [|lia].
    set (q := (Zpos m / 2 ^ (- e))%Z) in *.
    assert (Hq : (0 <= q)%Z) by (apply Z.div_pos; lia).
    assert (Hpe : (0 < 2 ^ (- e))%Z) by (apply Z.pow_pos_nonneg; lia).
    assert (Hpe' : (0 < 2 ^ (- e'))%Z) by (apply Z.pow_pos_nonneg; lia).
    enough (q < Z.of_nat (S W))%Z by lia.
    destruct (Z.compare_spec e e') as [Heq|Hlt'|Hgt]; try discriminate.
    + subst e'.
      change (PosDef.Pos.compare_cont Eq m m') with (m ?= m')%positive in Hlt.
      destruct (Pos.compare_spec m m'); try discriminate. nia.
    + replace (- e)%Z with (- e' + (e' - e))%Z in Hdiv, Hpe by lia.
      rewrite Z.pow_add_r in Hdiv, Hpe by lia.
      assert (2 <= 2 ^ (e' - e))%Z.
      { change 2%Z with (2 ^ 1)%Z at 1. apply Z.pow_le_mono_r; lia. }
      nia.
Qed.


Lemma mantissa_digits (s : bool) (m : positive) (e : Z) :
  valid_binary (S754_finite s m e) = true -> (Zpos m < 2 ^ 53)%Z.
Proof.
  cbn [SpecFloat.valid_binary]. unfold bounded, canonical_mantissa.
  intros Hv. apply andb_true_iff in Hv as [Hc _]. apply Z.eqb_eq in Hc.
  unfold SpecFloat.fexp, SpecFloat.emin, prec, emax in Hc.
  pose proof (digits2_pos_above m) as Hm.
  assert (2 ^ Zpos (digits2_pos m) <= 2 ^ 53)%Z by (apply Z.pow_le_mono_r; lia).
  lia.
Qed.

(** A pixel coordinate that passes the bounds test is an index. *)
Lemma floor_index (v w : float) :
  geb (Math.floor v) 0 = true -> (Math.floor v <? w) = true ->
  exists i : nat, index (Math.floor v) = Some i.
Proof.
  unfold geb, Math.floor. pose proof (Prim2SF_valid v) as Hvalid.
  destruct (Prim2SF v) as [s|s| |s m e] eqn:Ev.
  - intros _ _. exists 0%nat. unfold index. now rewrite Ev.
  - rewrite leb_spec, ltb_spec, Ev. change (Prim2SF 0) with (S754_zero false).
    destruct s; [discriminate|]. intros _.
    destruct (Prim2SF w) as [s'|s'| |s' m' e']; try destruct s'; discriminate.
  - rewrite leb_spec, Ev. discriminate.
  - pose proof (mantissa_digits s m e Hvalid) as Hm.
    destruct (e <? 0)%Z eqn:Ee.
    + apply Z.ltb_lt in Ee.
      assert (Hpe : (1 <= 2 ^ (- e))%Z).
      { change 1%Z with (2 ^ 0)%Z. apply Z.pow_le_mono_r; lia. }
      destruct s; cbn [cond_Zopp].
      * assert (Hz : (- Zpos m <= - Zpos m / 2 ^ (- e) < 0)%Z).
        { split.
          - apply Z.div_le_lower_bound; nia.
          - apply Z.div_lt_upper_bound; lia. }
        destruct (- Zpos m / 2 ^ (- e))%Z as [|q|q]; try lia.
        cbn [ofZ]. rewrite leb_spec, opp_spec.
        destruct (of_uint63_exact (Zpos q) ltac:(lia)) as (m' & e' & -> & _).
        discriminate.
      * assert (Hz : (0 <= Zpos m / 2 ^ (- e) <= Zpos m)%Z).
        { split.
          - apply Z.div_pos; lia.
          - apply Z.div_le_upper_bound; nia. }
        destruct (Zpos m / 2 ^ (- e))%Z as [|q|q]; try lia; cbn [ofZ]; intros _ _.
        -- now exists 0%nat.
        -- destruct (of_uint63_exact (Zpos q) ltac:(lia)) as (m' & e' & Hsf & _ & He' & Hm').
           unfold index. rewrite Hsf.
           destruct (0 <=? e')%Z; [eexists; reflexivity|].
           rewrite Hm', Z.mod_mul by (apply Z.pow_nonzero; lia).
           cbn [Z.eqb]. eexists; reflexivity.
    + destruct s.
      * rewrite leb_spec, Ev. discriminate.
      * intros _ _. unfold index. rewrite Ev.
        apply Z.ltb_ge in Ee. apply Z.leb_le in Ee. rewrite Ee.
        eexists; reflexivity.
Qed.


(** The quotient of a counter that is not 0 and is below [2 ^ 53] by
    itself is 1, which is above one half. *)
Lemma ofNat_div_self (n : nat) :
  (0 < Z.of_nat n < 2 ^ 53)%Z -> gtb (ofNat n / ofNat n) 0.5 = true.
Proof.
  intros Hn. destruct (ofNat_exact n Hn) as (m & e & H & _).
  rewrite (div_self _ _ _ _ H). reflexivity.
Qed.

End DoubleArithmetic.

(** The value of [Binary64.exact] at a double that is given. *)
Ltac exact_value :=
  unfold Binary64.exact;
  repeat match goal with
         | |- context [FloatOps.Prim2SF ?v] =>
             let sf := eval vm_compute in (FloatOps.Prim2SF v) in
             change (FloatOps.Prim2SF v) with sf
         end;
  cbv beta iota;
  cbn [Z.leb Z.compare Z.opp Z.mul Pos.mul SpecFloat.cond_Zopp];
  repeat match goal with
         | |- context [(2 ^ Zpos ?k)%Z] =>
             let z := eval vm_compute in (2 ^ Zpos k)%Z in
             change (2 ^ Zpos k)%Z with z
         end.

(** ** The luminance comparison on doubles *)

Section DoubleLuminance.

Import PrimFloat.
Local Open Scope float_scope.

Variable math : Binary64.Math.Implementation.

Lemma getLuminance_Y_double (r g b : byte) :
  Binary64.Luminance.getLuminance math (Binary64.CanvasUtils.byteValue r)
                                  (Binary64.CanvasUtils.byteValue g)
                                  (Binary64.CanvasUtils.byteValue b)
  = Binary64.Spec.Y math r g b.
Proof. reflexivity. Qed.

(** Inside the canvas the mask entry is the comparison made on the
    pixel's channels. *)
Lemma maskAt_createLuminanceMap_double
      (canvas : CanvasUtils.Canvas) (t : option float) (x y : nat) :
  (x < CanvasUtils.width canvas)%nat ->
  (y < CanvasUtils.height canvas)%nat ->
  maskAt (Binary64.CanvasUtils.createLuminanceMap math canvas t) x y
  = Some (let '(r, g, b) := pixelAt canvas x y in
          Binary64.CanvasUtils.isDark math r g b
            (match t with Some t => t | None => 0.5 end)).
Proof.
  intros Hx Hy.
  unfold maskAt, Binary64.CanvasUtils.createLuminanceMap, pixelAt.
  rewrite nth_error_map, (nth_error_seq_0 _ _ Hy); cbn [option_map].
  rewrite nth_error_map, (nth_error_seq_0 _ _ Hx); cbn [option_map].
  reflexivity.
Qed.

End DoubleLuminance.

Section DoubleLuminanceClaims.

Import PrimFloat.
Local Open Scope float_scope.

(** C6, as stated, fails: the pixel of channels (0, 0, 1) has a
    luminance [Y] below the threshold [nearBlack], yet the mask built
    with that threshold marks it as background, whatever the
    implementation of the power: the luminance that the code computes
    for the pixel is the threshold itself. *)
Lemma createLuminanceMap_misses_dark_pixel :
  (forall math : Binary64.Math.Implementation,
      maskAt (Binary64.CanvasUtils.createLuminanceMap math bluePixel (Some nearBlack)) 0 0
      = Some false
      /\ Binary64.Spec.Y math "000"%byte "000"%byte "001"%byte = nearBlack)
  /\ (Spec.Y "000"%byte "000"%byte "001"%byte < Binary64.exact nearBlack)%R.
Proof.
  split.
  - intros math. split; vm_compute; reflexivity.
  - unfold Spec.Y, CanvasUtils.byteValue; cbn [Byte.to_N Z.of_N].
    rewrite lin_0.
    assert (Hlin : Spec.lin (1 / 255) = (1 / 255 / 12.92)%R).
    { unfold Spec.lin. destruct (Rle_dec _ _); [reflexivity | exfalso; lra]. }
    rewrite Hlin. exact_value. lra.
Qed.

(** C6, amended.  For every pixel [(x, y)] of the canvas, with 8-bit
    channels [r], [g], [b], and every threshold [t], the mask built by
    [createLuminanceMap] has an entry at [(x, y)], and that entry is
    true exactly when [Y < t] holds of the doubles, where [Y] is the
    luminance formula of the specification evaluated in double
    precision, each operation rounded and the power left to the
    implementation. *)
Theorem createLuminanceMap_computed_luminance
        (math : Binary64.Math.Implementation) (canvas : CanvasUtils.Canvas)
        (t : float) (x y : nat) (r g b : byte) :
  (x < CanvasUtils.width canvas)%nat ->
  (y < CanvasUtils.height canvas)%nat ->
  pixelAt canvas x y = (Some r, Some g, Some b) ->
  exists v : bool,
    maskAt (Binary64.CanvasUtils.createLuminanceMap math canvas (Some t)) x y = Some v
    /\ (v = true <-> (Binary64.Spec.Y math r g b <? t) = true).
Proof.
  intros Hx Hy Hpix.
  rewrite (maskAt_createLuminanceMap_double math canvas (Some t) x y Hx Hy), Hpix.
  eexists; split; [reflexivity|].
  unfold Binary64.CanvasUtils.isDark.
  rewrite getLuminance_Y_double. reflexivity.
Qed.

Lemma createLuminanceMap_computed_luminance_witness :
  exists v : bool,
    maskAt (Binary64.CanvasUtils.createLuminanceMap exampleMath bluePixel (Some 0.5)) 0 0
    = Some v
    /\ (v = true
        <-> (Binary64.Spec.Y exampleMath "000"%byte "000"%byte "001"%byte <? 0.5) = true).
Proof.
  apply (createLuminanceMap_computed_luminance exampleMath bluePixel 0.5 0 0).
  - simpl; lia.
  - simpl; lia.
  - reflexivity.
Defined.

End DoubleLuminanceClaims.

(** ** Symmetry of the computed distance *)

Section DoubleSymmetry.

Import PrimFloat SpecFloat FloatOps FloatAxioms.
Import Binary64.
Local Open Scope float_scope.

(** Addition of doubles is commutative. *)
Lemma add_comm (a b : float) : a + b = b + a.
Proof.
  apply Prim2SF_inj. rewrite !add_spec. unfold SF64add.
  destruct (Prim2SF a) as [sa|sa| |sa ma ea], (Prim2SF b) as [sb|sb| |sb mb eb];
    cbn [SFadd]; try reflexivity; try (destruct sa, sb; reflexivity).
  now rewrite Z.min_comm, Z.add_comm.
Qed.

Lemma binary_round_aux_opp (m e : Z) (l : location) :
  binary_round_aux prec emax true m e l = SFopp (binary_round_aux prec emax false m e l).
Proof.
  unfold binary_round_aux.
  destruct (shr_fexp prec emax m e l) as [mrs' e'].
  destruct (shr_fexp prec emax _ e' loc_Exact) as [mrs'' e''].
  destruct (shr_m mrs''); try reflexivity.
  destruct (e'' <=? emax - prec)%Z; reflexivity.
Qed.

Lemma binary_normalize_opp (z e : Z) :
  z <> 0%Z ->
  binary_normalize prec emax (- z) e false = SFopp (binary_normalize prec emax z e false).
Proof.
  intros Hz. destruct z as [|p|p]; [contradiction| |]; cbn [Z.opp binary_normalize];
    unfold binary_round; destruct (shl_align _ _ _) as [mz ez];
    rewrite binary_round_aux_opp; [reflexivity|].
  now destruct (binary_round_aux prec emax false (Zpos mz) ez loc_Exact) as [[|]|[|]| |[|] ? ?].
Qed.

(** The two differences of two doubles are opposite, or both are
    zeros. *)
Lemma SFsub_swap (u v : spec_float) :
  SFsub prec emax v u = SFopp (SFsub prec emax u v)
  \/ exists s s' : bool,
       SFsub prec emax u v = S754_zero s /\ SFsub prec emax v u = S754_zero s'.
Proof.
  destruct u as [su|su| |su mu eu], v as [sv|sv| |sv mv ev]; cbn [SFsub SFopp];
    try (left; reflexivity);
    try (left; destruct su, sv; reflexivity);
    try (left; destruct su; reflexivity);
    try (left; destruct sv; reflexivity).
  - right. destruct su, sv; eexists; eexists; split; reflexivity.
  - set (d := (cond_Zopp su (Zpos (fst (shl_align mu eu (Z.min eu ev))))
               - cond_Zopp sv (Zpos (fst (shl_align mv ev (Z.min eu ev)))))%Z).
    rewrite (Z.min_comm ev eu).
    replace (cond_Zopp sv (Zpos (fst (shl_align mv ev (Z.min eu ev))))
             - cond_Zopp su (Zpos (fst (shl_align mu eu (Z.min eu ev)))))%Z
      with (- d)%Z by (unfold d; lia).
    destruct (Z.eq_dec d 0) as [Hd|Hd].
    + right. rewrite Hd. cbn [Z.opp binary_normalize].
      exists false, false. now split.
    + left. now apply binary_normalize_opp.
Qed.

Lemma SFmul_opp (u : spec_float) :
  SFmul prec emax (SFopp u) (SFopp u) = SFmul prec emax u u.
Proof. now destruct u as [[|]|[|]| |[|] m e]. Qed.

(** The square of a difference does not depend on the order of its
    operands. *)
Lemma square_sub_swap (a b : float) : (a - b) * (a - b) = (b - a) * (b - a).
Proof.
  apply Prim2SF_inj. rewrite !mul_spec, !sub_spec. unfold SF64mul, SF64sub.
  destruct (SFsub_swap (Prim2SF a) (Prim2SF b)) as [-> | (s & s' & -> & ->)].
  - now rewrite SFmul_opp.
  - destruct s, s'; reflexivity.
Qed.

Lemma distance_sym_double (a b : CirclePlacer.Circle) :
  Spec.distance a b = Spec.distance b a.
Proof.
  unfold Spec.distance.
  now rewrite (square_sub_swap (CirclePlacer.x a)), (square_sub_swap (CirclePlacer.y a)).
Qed.

Lemma reach_sym_double (padding : float) (a b : CirclePlacer.Circle) :
  Spec.reach padding a b = Spec.reach padding b a.
Proof.
  unfold Spec.reach. now rewrite (add_comm (CirclePlacer.radius a)).
Qed.

End DoubleSymmetry.

(** ** Validation of a placement on doubles *)

Section DoublePlacement.

Import PrimFloat.
Local Open Scope float_scope.

Variable math : Binary64.Math.Implementation.

Lemma clearOfAll_true_double (x0 y0 radius0 padding0 : float) (color0 : value)
      (existing : list Binary64.CirclePlacer.Circle) :
  Binary64.CirclePlacer.clearOfAll x0 y0 radius0 padding0 existing = true ->
  forall e : Binary64.CirclePlacer.Circle,
    In e existing ->
    (Binary64.Spec.distance (Binary64.CirclePlacer.mkCircle x0 y0 radius0 color0) e
     <? Binary64.Spec.reach padding0 (Binary64.CirclePlacer.mkCircle x0 y0 radius0 color0) e)
    = false.
Proof.
  induction existing as [|circle rest IH]; cbn [Binary64.CirclePlacer.clearOfAll];
    intros Hclear e Hin.
  - destruct Hin.
  - destruct (_ <? _) eqn:Hlt in Hclear; [discriminate|].
    destruct Hin as [<- | Hin].
    + exact Hlt.
    + now apply IH.
Qed.

(** What an accepted placement guarantees. *)
Lemma isValidPlacement_true_double (x0 y0 radius0 : float) (color0 : value)
      (existing : list Binary64.CirclePlacer.Circle)
      (constraints : Binary64.CirclePlacer.Constraints) :
  Binary64.CirclePlacer.isValidPlacement math x0 y0 radius0 existing constraints = true ->
  Binary64.Spec.withinBounds math constraints
    (Binary64.CirclePlacer.mkCircle x0 y0 radius0 color0)
  /\ (forall e : Binary64.CirclePlacer.Circle,
         In e existing ->
         (Binary64.Spec.distance (Binary64.CirclePlacer.mkCircle x0 y0 radius0 color0) e
          <? Binary64.Spec.reach (Binary64.CirclePlacer.padding constraints)
               (Binary64.CirclePlacer.mkCircle x0 y0 radius0 color0) e)
         = false).
Proof.
  unfold Binary64.CirclePlacer.isValidPlacement.
  destruct (x0 - radius0 <? Binary64.CirclePlacer.margin constraints) eqn:H1;
    [discriminate|].
  destruct (Binary64.gtb (x0 + radius0) _) eqn:H2; [discriminate|].
  destruct (y0 - radius0 <? Binary64.CirclePlacer.margin constraints) eqn:H3;
    [discriminate|].
  destruct (Binary64.gtb (y0 + radius0) _) eqn:H4; [discriminate|].
  cbn [orb].
  intros Hrest.
  split.
  - unfold Binary64.Spec.withinBounds, Binary64.Spec.distanceFromCenter,
      Binary64.Spec.circleRadius;
      cbn [Binary64.CirclePlacer.x Binary64.CirclePlacer.y Binary64.CirclePlacer.radius].
    repeat split; try assumption.
    intros Hc. rewrite Hc in Hrest. cbn [andb] in Hrest.
    match type of Hrest with
    | (if ?g then _ else _) = true => destruct g; [discriminate | reflexivity]
    end.
  - apply clearOfAll_true_double.
    destruct (Binary64.CirclePlacer.circular constraints && _); [discriminate | exact Hrest].
Qed.

(** Appending a circle that is clear of all the others keeps the
    invariant. *)
Lemma nonOverlapping_app_double (padding0 : float)
      (existing : list Binary64.CirclePlacer.Circle) (c : Binary64.CirclePlacer.Circle) :
  Binary64.Spec.nonOverlapping padding0 existing ->
  (forall e : Binary64.CirclePlacer.Circle,
      In e existing ->
      (Binary64.Spec.distance c e <? Binary64.Spec.reach padding0 c e) = false) ->
  Binary64.Spec.nonOverlapping padding0 (existing ++ [c]).
Proof.
  intros Hold Hnew i j a b Hij Ha Hb.
  destruct (Nat.lt_ge_cases i (List.length existing)) as [Hi|Hi];
    destruct (Nat.lt_ge_cases j (List.length existing)) as [Hj|Hj].
  - rewrite nth_error_app1 in Ha, Hb by assumption.
    now apply (Hold i j).
  - rewrite nth_error_app1 in Ha by assumption.
    rewrite nth_error_app2 in Hb by assumption.
    destruct (j - List.length existing)%nat as [|n]; cbn in Hb.
    + injection Hb as <-. apply nth_error_In in Ha.
      rewrite distance_sym_double, reach_sym_double. now apply Hnew.
    + destruct n; discriminate.
  - rewrite nth_error_app2 in Ha by assumption.
    rewrite nth_error_app1 in Hb by assumption.
    destruct (i - List.length existing)%nat as [|n]; cbn in Ha.
    + injection Ha as <-. apply nth_error_In in Hb. now apply Hnew.
    + destruct n; discriminate.
  - rewrite nth_error_app2 in Ha, Hb by assumption.
    destruct (i - List.length existing)%nat as [|n] eqn:Ei; cbn in Ha;
      [|destruct n; discriminate].
    destruct (j - List.length existing)%nat as [|m] eqn:Ej; cbn in Hb;
      [|destruct m; discriminate].
    lia.
Qed.

End DoublePlacement.

(** ** The packing loop on doubles *)

Section DoublePackingLoop.

Import PrimFloat.
Local Open Scope float_scope.

Variable math : Binary64.Math.Implementation.
Variable options : Binary64.ColorVisionGenerator.Options.
Variable rnd : nat -> float.
Variable luminanceMap : list (list bool).
Variable sampleFuel : nat.

#[local] Abbreviation place :=
  (Binary64.ColorVisionGenerator.place math options rnd luminanceMap sampleFuel).
#[local] Abbreviation iteration :=
  (Binary64.ColorVisionGenerator.iteration math options rnd luminanceMap sampleFuel).
#[local] Abbreviation whileLoop :=
  (Binary64.ColorVisionGenerator.whileLoop math options rnd luminanceMap sampleFuel).

(** The candidate is either rejected, and the circle list is as it was,
    or it was a valid placement and is appended. *)
Lemma place_cases_double (st : Binary64.ColorVisionGenerator.LoopState)
      (cs : list Binary64.CirclePlacer.Circle) (a : Z) (d : nat) :
  place st = Returned (cs, a, d) ->
  cs = Binary64.ColorVisionGenerator.circles st
  \/ (exists c : Binary64.CirclePlacer.Circle,
         cs = Binary64.ColorVisionGenerator.circles st ++ [c]
         /\ Binary64.CirclePlacer.isValidPlacement
              math (Binary64.CirclePlacer.x c) (Binary64.CirclePlacer.y c)
              (Binary64.CirclePlacer.radius c) (Binary64.ColorVisionGenerator.circles st)
              (Binary64.ColorVisionGenerator.constraints options) = true).
Proof.
  unfold Binary64.ColorVisionGenerator.place.
  destruct (Binary64.CirclePlacer.generateRandomPosition _ _ _ _) as [position drawn1].
  destruct (Binary64.CirclePlacer.isValidPlacement _ _ _ _ _ _) eqn:Hvalid.
  - destruct (Binary64.CirclePlacer.determineCircleColor _ _ _ _ _ _) as [color| |];
      cbn [bind]; try discriminate.
    destruct (truthy color) eqn:Htruthy; intros [= <- <- <-].
    + right. eexists; split; [reflexivity|].
      cbn [Binary64.CirclePlacer.x Binary64.CirclePlacer.y Binary64.CirclePlacer.radius].
      exact Hvalid.
    + now left.
  - intros [= <- <- <-]. now left.
Qed.

(** The circle list after a pass is the one that [place] built. *)
Lemma iteration_cases_double (st st' : Binary64.ColorVisionGenerator.LoopState) :
  iteration st = Returned st' ->
  exists (a : Z) (d : nat),
    place st = Returned (Binary64.ColorVisionGenerator.circles st', a, d).
Proof.
  unfold Binary64.ColorVisionGenerator.iteration.
  destruct (place st) as [[[cs a] d]| |]; cbn [bind]; try discriminate.
  destruct (_ && _); intros [= <-]; now exists a, d.
Qed.

(** A property of the state that every pass preserves holds when the
    loop returns. *)
Lemma whileLoop_invariant_double (P : Binary64.ColorVisionGenerator.LoopState -> Prop) :
  (forall st st' : Binary64.ColorVisionGenerator.LoopState,
      P st -> iteration st = Returned st' -> P st') ->
  forall (fuel : nat) (st st' : Binary64.ColorVisionGenerator.LoopState),
    P st -> whileLoop fuel st = Returned st' -> P st'.
Proof.
  intros Hstep fuel; induction fuel as [|fuel IH]; intros st st' HP;
    cbn [Binary64.ColorVisionGenerator.whileLoop].
  - destruct (_ <? _)%Z; [discriminate|]. now intros [= <-].
  - destruct (_ <? _)%Z; [|now intros [= <-]].
    destruct (iteration st) as [st1| |] eqn:Hit; cbn [bind]; try discriminate.
    apply IH. now apply (Hstep st).
Qed.

Lemma generateCircles_run_double (fuel : nat) (cs : list Binary64.CirclePlacer.Circle) :
  Binary64.ColorVisionGenerator._generateCircles math options rnd luminanceMap
                                                 sampleFuel fuel
  = Returned cs ->
  exists st : Binary64.ColorVisionGenerator.LoopState,
    Binary64.ColorVisionGenerator.run math options rnd luminanceMap sampleFuel fuel
    = Returned st
    /\ Binary64.ColorVisionGenerator.circles st = cs.
Proof.
  unfold Binary64.ColorVisionGenerator._generateCircles.
  destruct (Binary64.ColorVisionGenerator.run _ _ _ _ _ _) as [st| |]; cbn [bind];
    try discriminate.
  intros [= <-]. now exists st.
Qed.

End DoublePackingLoop.

(** ** The circle set returned, on doubles *)

Section DoublePackingClaims.

Import PrimFloat.
Local Open Scope float_scope.

Lemma exact_tightFirst :
  exactCircle tightFirst = CirclePlacer.mkCircle 4 16 3 (VString "#4ECDC4").
Proof.
  unfold exactCircle, tightFirst;
    cbn [Binary64.CirclePlacer.x Binary64.CirclePlacer.y Binary64.CirclePlacer.radius
         Binary64.CirclePlacer.color].
  f_equal; exact_value; lra.
Qed.

Lemma exact_tightSecond :
  exactCircle tightSecond
  = CirclePlacer.mkCircle 12 16 (5 + / 2 ^ 50) (VString "#4ECDC4").
Proof.
  unfold exactCircle, tightSecond;
    cbn [Binary64.CirclePlacer.x Binary64.CirclePlacer.y Binary64.CirclePlacer.radius
         Binary64.CirclePlacer.color].
  f_equal; exact_value; lra.
Qed.

Lemma exact_edgeCircle :
  exactCircle edgeCircle
  = CirclePlacer.mkCircle 27 16 (5 + / 2 ^ 50) (VString "#4ECDC4").
Proof.
  unfold exactCircle, edgeCircle;
    cbn [Binary64.CirclePlacer.x Binary64.CirclePlacer.y Binary64.CirclePlacer.radius
         Binary64.CirclePlacer.color].
  f_equal; exact_value; lra.
Qed.

(** C1, as stated, fails: the run below returns two circles whose
    centres are 8 apart, while their radii, 3 and [5 + 2 ^ -50], add up
    to more than 8; the sum that the code computes is rounded to 8, and
    the test [distance < radius + circle.radius + padding] is false. *)
Lemma generateCircles_overlap_below_rounding :
  (forall math : Binary64.Math.Implementation,
      Binary64.ColorVisionGenerator._generateCircles
        math tightOptions tightDraws tightMask 64 3
      = Returned [tightFirst; tightSecond])
  /\ (Spec.distance (exactCircle tightFirst) (exactCircle tightSecond)
      < CirclePlacer.radius (exactCircle tightFirst)
        + CirclePlacer.radius (exactCircle tightSecond)
        + Binary64.exact (Binary64.ColorVisionGenerator.padding tightOptions))%R
  /\ ~ Spec.nonOverlapping
         (Binary64.exact (Binary64.ColorVisionGenerator.padding tightOptions))
         [exactCircle tightFirst; exactCircle tightSecond].
Proof.
  assert (Hlt : (Spec.distance (exactCircle tightFirst) (exactCircle tightSecond)
                 < CirclePlacer.radius (exactCircle tightFirst)
                   + CirclePlacer.radius (exactCircle tightSecond)
                   + Binary64.exact (Binary64.ColorVisionGenerator.padding tightOptions))%R).
  { rewrite exact_tightFirst, exact_tightSecond.
    unfold Spec.distance; cbn [CirclePlacer.x CirclePlacer.y CirclePlacer.radius].
    replace ((4 - 12) * (4 - 12) + (16 - 16) * (16 - 16))%R with (8 * 8)%R by lra.
    rewrite R_sqrt.sqrt_square by lra.
    unfold tightOptions; cbn [Binary64.ColorVisionGenerator.padding].
    exact_value.
    assert (0 < / 2 ^ 50)%R by (apply Rinv_0_lt_compat, pow_lt; lra).
    lra. }
  split; [intros math; vm_compute; reflexivity|].
  split; [exact Hlt|].
  intros Hno.
  specialize (Hno 0%nat 1%nat _ _ ltac:(discriminate) eq_refl eq_refl).
  lra.
Qed.

(** C1, amended.  In every circle list returned by [_generateCircles],
    any two circles at different places of the list are, as computed in
    double precision, not nearer to each other than the sum of their
    radii and of the padding of the run: the test
    [distance < radius + circle.radius + padding] of [isValidPlacement],
    made on the rounded distance [sqrt (dx * dx + dy * dy)] and on the
    rounded sum, is false of the pair, in either order. *)
Theorem generateCircles_computed_separation
        (math : Binary64.Math.Implementation)
        (options : Binary64.ColorVisionGenerator.Options) (rnd : nat -> float)
        (luminanceMap : list (list bool)) (sampleFuel fuel : nat)
        (cs : list Binary64.CirclePlacer.Circle) :
  Binary64.ColorVisionGenerator._generateCircles math options rnd luminanceMap
                                                 sampleFuel fuel
  = Returned cs ->
  Binary64.Spec.nonOverlapping (Binary64.ColorVisionGenerator.padding options) cs.
Proof.
  intros Hgen.
  destruct (generateCircles_run_double _ _ _ _ _ _ _ Hgen) as (st & Hrun & <-).
  revert Hrun.
  apply (whileLoop_invariant_double math options rnd luminanceMap sampleFuel
           (fun s => Binary64.Spec.nonOverlapping
                       (Binary64.ColorVisionGenerator.padding options)
                       (Binary64.ColorVisionGenerator.circles s))).
  - intros s s' Hno Hit.
    destruct (iteration_cases_double _ _ _ _ _ _ _ Hit) as (a & d & Hplace).
    destruct (place_cases_double _ _ _ _ _ _ _ _ _ Hplace) as [-> | (c & -> & Hvalid)];
      [exact Hno|].
    destruct c as [cx cy cr cc];
      cbn [Binary64.CirclePlacer.x Binary64.CirclePlacer.y Binary64.CirclePlacer.radius]
      in Hvalid.
    apply nonOverlapping_app_double; [exact Hno|].
    exact (proj2 (isValidPlacement_true_double math cx cy cr cc _ _ Hvalid)).
  - intros i j a b _ Ha. destruct i; discriminate.
Qed.

Lemma generateCircles_computed_separation_witness :
  Binary64.Spec.nonOverlapping (Binary64.ColorVisionGenerator.padding tightOptions)
                               [tightFirst; tightSecond].
Proof.
  apply (generateCircles_computed_separation exampleMath tightOptions tightDraws
                                             tightMask 64 3).
  vm_compute. reflexivity.
Defined.

(** C3, as stated, fails: the run below returns a circle of radius
    [5 + 2 ^ -50] centred at (27, 16) on a canvas of width 32 without
    margin; its right side is beyond the canvas, and the sum
    [x + radius] that the code computes is rounded to 32. *)
Lemma generateCircles_beyond_bounds_below_rounding :
  (forall math : Binary64.Math.Implementation,
      Binary64.ColorVisionGenerator._generateCircles
        math tightOptions edgeDraws tightMask 64 2
      = Returned [edgeCircle])
  /\ (Binary64.exact (Binary64.ColorVisionGenerator.width tightOptions)
      - Binary64.exact (Binary64.ColorVisionGenerator.margin tightOptions)
      < CirclePlacer.x (exactCircle edgeCircle)
        + CirclePlacer.radius (exactCircle edgeCircle))%R
  /\ ~ Spec.withinBounds
         (exactConstraints (Binary64.ColorVisionGenerator.constraints tightOptions))
         (exactCircle edgeCircle).
Proof.
  assert (Hlt : (Binary64.exact (Binary64.ColorVisionGenerator.width tightOptions)
                 - Binary64.exact (Binary64.ColorVisionGenerator.margin tightOptions)
                 < CirclePlacer.x (exactCircle edgeCircle)
                   + CirclePlacer.radius (exactCircle edgeCircle))%R).
  { rewrite exact_edgeCircle; cbn [CirclePlacer.x CirclePlacer.radius].
    unfold tightOptions;
      cbn [Binary64.ColorVisionGenerator.width Binary64.ColorVisionGenerator.margin].
    exact_value.
    assert (0 < / 2 ^ 50)%R by (apply Rinv_0_lt_compat, pow_lt; lra).
    lra. }
  split; [intros math; vm_compute; reflexivity|].
  split; [exact Hlt|].
  intros (_ & Hx & _).
  unfold exactConstraints, Binary64.ColorVisionGenerator.constraints in Hx;
    cbn [CirclePlacer.width CirclePlacer.margin Binary64.CirclePlacer.width
         Binary64.CirclePlacer.margin] in Hx.
  lra.
Qed.

(** C3, amended.  Every circle of a circle list returned by
    [_generateCircles] passes, as the code computes them in double
    precision, the bounds tests of [isValidPlacement]: [x - radius] is
    not below [margin], [x + radius] is not above [width - margin], the
    same for [y], and in circular mode the distance from the centre of
    the canvas plus the radius is not above
    [min(width, height) / 2 - margin], every sum and difference being
    rounded; for a canvas of 800 by 800 with a margin of 50 that last
    bound is 350. *)
Theorem generateCircles_computed_bounds
        (math : Binary64.Math.Implementation)
        (options : Binary64.ColorVisionGenerator.Options) (rnd : nat -> float)
        (luminanceMap : list (list bool)) (sampleFuel fuel : nat)
        (cs : list Binary64.CirclePlacer.Circle) :
  Binary64.ColorVisionGenerator._generateCircles math options rnd luminanceMap
                                                 sampleFuel fuel
  = Returned cs ->
  Forall (Binary64.Spec.withinBounds
            math (Binary64.ColorVisionGenerator.constraints options)) cs
  /\ (Binary64.ColorVisionGenerator.width options = 800 ->
      Binary64.ColorVisionGenerator.height options = 800 ->
      Binary64.ColorVisionGenerator.margin options = 50 ->
      Binary64.ColorVisionGenerator.circular options = true ->
      Forall (fun c : Binary64.CirclePlacer.Circle =>
                Binary64.gtb
                  (Binary64.Spec.distanceFromCenter
                     math (Binary64.ColorVisionGenerator.constraints options) c
                   + Binary64.CirclePlacer.radius c)
                  350 = false) cs).
Proof.
  intros Hgen.
  destruct (generateCircles_run_double _ _ _ _ _ _ _ Hgen) as (st & Hrun & <-).
  assert (Hin : Forall (Binary64.Spec.withinBounds
                          math (Binary64.ColorVisionGenerator.constraints options))
                       (Binary64.ColorVisionGenerator.circles st)).
  { revert Hrun.
    apply (whileLoop_invariant_double math options rnd luminanceMap sampleFuel
             (fun s => Forall (Binary64.Spec.withinBounds
                                 math (Binary64.ColorVisionGenerator.constraints options))
                              (Binary64.ColorVisionGenerator.circles s))).
    - intros s s' Hall Hit.
      destruct (iteration_cases_double _ _ _ _ _ _ _ Hit) as (a & d & Hplace).
      destruct (place_cases_double _ _ _ _ _ _ _ _ _ Hplace) as [-> | (c & -> & Hvalid)];
        [exact Hall|].
      destruct c as [cx cy cr cc];
        cbn [Binary64.CirclePlacer.x Binary64.CirclePlacer.y Binary64.CirclePlacer.radius]
        in Hvalid.
      apply Forall_app; split; [exact Hall|].
      constructor; [|constructor].
      exact (proj1 (isValidPlacement_true_double math cx cy cr cc _ _ Hvalid)).
    - constructor. }
  split; [exact Hin|].
  intros Hw Hh Hm Hc.
  eapply Forall_impl; [|exact Hin].
  intros c (_ & _ & _ & _ & Hdisk).
  assert (Hr : Binary64.Spec.circleRadius
                 (Binary64.ColorVisionGenerator.constraints options) = 350).
  { unfold Binary64.Spec.circleRadius.
    cbn [Binary64.ColorVisionGenerator.constraints Binary64.CirclePlacer.width
         Binary64.CirclePlacer.height Binary64.CirclePlacer.margin].
    rewrite Hw, Hh, Hm. reflexivity. }
  rewrite <- Hr. apply Hdisk. exact Hc.
Qed.

Lemma generateCircles_computed_bounds_witness :
  Forall (Binary64.Spec.withinBounds
            exampleMath (Binary64.ColorVisionGenerator.constraints diskOptions))
         [diskFirst; diskSecond]
  /\ (Binary64.ColorVisionGenerator.width diskOptions = 800 ->
      Binary64.ColorVisionGenerator.height diskOptions = 800 ->
      Binary64.ColorVisionGenerator.margin diskOptions = 50 ->
      Binary64.ColorVisionGenerator.circular diskOptions = true ->
      Forall (fun c : Binary64.CirclePlacer.Circle =>
                Binary64.gtb
                  (Binary64.Spec.distanceFromCenter
                     exampleMath (Binary64.ColorVisionGenerator.constraints diskOptions) c
                   + Binary64.CirclePlacer.radius c)
                  350 = false) [diskFirst; diskSecond]).
Proof.
  apply (generateCircles_computed_bounds exampleMath diskOptions diskDraws diskMask 64 3).
  vm_compute. reflexivity.
Defined.

End DoublePackingClaims.

(** ** Sampling of the mask under a circle, on doubles *)

Section DoubleSampling.

Import PrimFloat.
Local Open Scope float_scope.

Variables (x0 y0 radius0 : float).
Variable luminanceMap : list (list bool).
Variables (mapWidth0 mapHeight0 : float).

#[local] Abbreviation samplePoint :=
  (Binary64.CirclePlacer.samplePoint x0 y0 radius0 luminanceMap mapWidth0 mapHeight0).
#[local] Abbreviation rowLoop :=
  (Binary64.CirclePlacer.rowLoop x0 y0 radius0 luminanceMap mapWidth0 mapHeight0).
#[local] Abbreviation gridLoop :=
  (Binary64.CirclePlacer.gridLoop x0 y0 radius0 luminanceMap mapWidth0 mapHeight0).
#[local] Abbreviation inDiskAndMap :=
  (Binary64.Spec.inDiskAndMap x0 y0 radius0 mapWidth0 mapHeight0).
#[local] Abbreviation onForeground := (Binary64.Spec.onForeground x0 y0 luminanceMap).
#[local] Abbreviation counted :=
  (Binary64.Spec.counted x0 y0 radius0 mapWidth0 mapHeight0).
#[local] Abbreviation foreground :=
  (Binary64.Spec.foreground x0 y0 radius0 luminanceMap mapWidth0 mapHeight0).
#[local] Abbreviation tally :=
  (Binary64.Spec.tally x0 y0 radius0 luminanceMap mapWidth0 mapHeight0).
#[local] Abbreviation offsets := (Binary64.Spec.offsets radius0).

(** The row of a sample that is counted exists. *)
#[local] Abbreviation rowed :=
  (fun sample : float * float =>
     inDiskAndMap sample = true ->
     Binary64.get luminanceMap (Binary64.Math.floor (y0 + fst sample)) <> None).

Lemma tally_nil (counts : nat * nat) : tally counts [] = counts.
Proof.
  unfold Binary64.Spec.tally, Binary64.Spec.foreground, Binary64.Spec.counted.
  cbn [filter List.length]. rewrite !Nat.add_0_r. now destruct counts.
Qed.

Lemma tally_app (counts : nat * nat) (l1 l2 : list (float * float)) :
  tally (tally counts l1) l2 = tally counts (l1 ++ l2).
Proof.
  unfold Binary64.Spec.tally, Binary64.Spec.foreground, Binary64.Spec.counted.
  cbn [fst snd]. rewrite !filter_app, !length_app. f_equal; lia.
Qed.

(** One sample: the counters after it, and its row. *)
Lemma samplePoint_tally (dx dy : float) (counts counts' : nat * nat) :
  samplePoint dx dy counts = Returned counts' ->
  counts' = tally counts [(dy, dx)] /\ rowed (dy, dx).
Proof.
  unfold Binary64.CirclePlacer.samplePoint, Binary64.Spec.tally,
    Binary64.Spec.foreground, Binary64.Spec.counted, Binary64.Spec.inDiskAndMap,
    Binary64.Spec.onForeground.
  cbn [filter fst snd].
  destruct (dx * dx + dy * dy <=? radius0 * radius0); cbn [andb].
  - destruct (Binary64.geb (Binary64.Math.floor (x0 + dx)) 0
              && (Binary64.Math.floor (x0 + dx) <? mapWidth0)
              && Binary64.geb (Binary64.Math.floor (y0 + dy)) 0
              && (Binary64.Math.floor (y0 + dy) <? mapHeight0)).
    + cbn [filter fst snd].
      destruct (Binary64.get luminanceMap (Binary64.Math.floor (y0 + dy))) as [row|];
        [|discriminate].
      destruct (Binary64.get row (Binary64.Math.floor (x0 + dx))) as [[|]|];
        intros [= <-]; cbn [filter List.length]; (split; [f_equal; lia | discriminate]).
    + intros [= <-]. cbn [filter List.length].
      split; [destruct counts; cbn [fst snd]; f_equal; lia | discriminate].
  - intros [= <-]. cbn [filter List.length].
    split; [destruct counts; cbn [fst snd]; f_equal; lia | discriminate].
Qed.

(** The inner loop: the offsets it runs through and the counters after
    them. *)
Lemma rowLoop_tally (dy : float) (fuel : nat) :
  forall (dx : float) (counts counts' : nat * nat),
    rowLoop fuel dy dx counts = Returned counts' ->
    exists dxs : list float,
      offsets fuel dx = Returned dxs
      /\ counts' = tally counts (map (pair dy) dxs)
      /\ Forall rowed (map (pair dy) dxs).
Proof.
  induction fuel as [|fuel IH]; intros dx counts counts';
    cbn [Binary64.CirclePlacer.rowLoop Binary64.Spec.offsets].
  - destruct (dx <=? radius0); [discriminate|]. intros [= <-].
    exists []. cbn [map]. rewrite tally_nil. repeat split. constructor.
  - destruct (dx <=? radius0).
    + destruct (samplePoint dx dy counts) as [c1| |] eqn:Hpoint; cbn [bind];
        try discriminate.
      intros Hrest.
      destruct (IH _ _ _ Hrest) as (dxs & -> & -> & Hrows).
      destruct (samplePoint_tally _ _ _ _ Hpoint) as [-> Hrow].
      exists (dx :: dxs). cbn [bind map].
      split; [reflexivity|]. split.
      * rewrite tally_app. reflexivity.
      * constructor; assumption.
    + intros [= <-]. exists []. cbn [map]. rewrite tally_nil.
      repeat split. constructor.
Qed.

Lemma offsets_unique (fuel fuel' : nat) :
  forall (d : float) (ds ds' : list float),
    offsets fuel d = Returned ds -> offsets fuel' d = Returned ds' -> ds = ds'.
Proof.
  revert fuel'. induction fuel as [|fuel IH]; intros fuel' d ds ds';
    destruct fuel' as [|fuel']; cbn [Binary64.Spec.offsets];
    destruct (d <=? radius0); try discriminate; try congruence.
  destruct (offsets fuel _) as [l| |] eqn:H1; cbn [bind]; try discriminate.
  destruct (offsets fuel' _) as [l'| |] eqn:H2; cbn [bind]; try discriminate.
  intros [= <-] [= <-]. f_equal. exact (IH _ _ _ _ H1 H2).
Qed.

(** The outer loop: the offsets it runs through and, for the offsets
    of the inner loop, the counters after the grid. *)
Lemma gridLoop_tally (rowFuel fuel : nat) :
  forall (dy : float) (counts counts' : nat * nat),
    gridLoop rowFuel fuel dy counts = Returned counts' ->
    exists dys : list float,
      offsets fuel dy = Returned dys
      /\ forall dxs : list float,
           offsets rowFuel (- radius0) = Returned dxs ->
           counts' = tally counts (list_prod dys dxs)
           /\ Forall rowed (list_prod dys dxs).
Proof.
  induction fuel as [|fuel IH]; intros dy counts counts';
    cbn [Binary64.CirclePlacer.gridLoop Binary64.Spec.offsets].
  - destruct (dy <=? radius0); [discriminate|]. intros [= <-].
    exists []. split; [reflexivity|]. intros dxs _. cbn [list_prod].
    rewrite tally_nil. split; [reflexivity | constructor].
  - destruct (dy <=? radius0).
    + destruct (rowLoop rowFuel dy (- radius0) counts) as [c1| |] eqn:Hrow; cbn [bind];
        try discriminate.
      intros Hrest.
      destruct (IH _ _ _ Hrest) as (dys & -> & Hgrid).
      destruct (rowLoop_tally _ _ _ _ _ Hrow) as (dxs0 & Hdxs0 & -> & Hrows).
      exists (dy :: dys). cbn [bind]. split; [reflexivity|].
      intros dxs Hdxs.
      rewrite (offsets_unique _ _ _ _ _ Hdxs Hdxs0).
      destruct (Hgrid dxs0 Hdxs0) as [-> Hrest'].
      cbn [list_prod]. split.
      * rewrite tally_app. reflexivity.
      * apply Forall_app. split; assumption.
    + intros [= <-]. exists []. split; [reflexivity|]. intros dxs _.
      cbn [list_prod]. rewrite tally_nil. split; [reflexivity | constructor].
Qed.

(** The counters that the sampling returns are those of the grid of the
    offsets of the two loops. *)
Lemma sampleCircle_tally (fuel : nat) (counts : nat * nat) :
  Binary64.CirclePlacer.sampleCircle x0 y0 radius0 luminanceMap mapWidth0 mapHeight0 fuel
  = Returned counts ->
  exists ds : list float,
    offsets fuel (- radius0) = Returned ds
    /\ counts = (List.length (foreground (list_prod ds ds)),
                 List.length (counted (list_prod ds ds)))
    /\ Forall rowed (list_prod ds ds).
Proof.
  unfold Binary64.CirclePlacer.sampleCircle. intros Hgrid.
  destruct (gridLoop_tally _ _ _ _ _ Hgrid) as (ds & Hds & Hcounts).
  exists ds. split; [exact Hds|].
  destruct (Hcounts ds Hds) as [-> Hrows].
  split; [reflexivity | exact Hrows].
Qed.

(** No sample of the grid is counted exactly when [totalPixels] is 0. *)
Lemma counted_nil (grid : list (float * float)) :
  List.length (counted grid) = 0%nat
  <-> (forall sample : float * float, In sample grid -> inDiskAndMap sample = false).
Proof.
  unfold Binary64.Spec.counted. split.
  - intros Hlen sample Hin.
    destruct (inDiskAndMap sample) eqn:Hs; [|reflexivity].
    assert (Hf : In sample (filter inDiskAndMap grid)) by (apply filter_In; now split).
    destruct (filter inDiskAndMap grid); [destruct Hf | discriminate].
  - intros Hall. induction grid as [|s grid IH]; [reflexivity|].
    cbn [filter]. rewrite (Hall s) by now left.
    apply IH. intros sample Hin. apply Hall. now right.
Qed.

(** Over a mask without foreground no sample is on foreground. *)
Lemma foreground_allFalse (grid : list (float * float)) :
  allFalse luminanceMap -> foreground grid = [].
Proof.
  intros Hmask. unfold Binary64.Spec.foreground.
  induction (counted grid) as [|s l IH]; [reflexivity|].
  cbn [filter]. rewrite IH.
  replace (onForeground s) with false; [reflexivity|].
  unfold Binary64.Spec.onForeground, Binary64.get.
  destruct (Binary64.index (Binary64.Math.floor (y0 + fst s))) as [i|]; [|reflexivity].
  destruct (nth_error luminanceMap i) as [row|] eqn:Hrow; [|reflexivity].
  destruct (Binary64.index (Binary64.Math.floor (x0 + snd s))) as [j|]; [|reflexivity].
  destruct (nth_error row j) as [[|]|] eqn:Hb; try reflexivity.
  apply nth_error_In in Hrow, Hb.
  unfold allFalse in Hmask. rewrite Forall_forall in Hmask.
  specialize (Hmask row Hrow). rewrite Forall_forall in Hmask.
  now specialize (Hmask true Hb).
Qed.

(** Over a mask that is true everywhere and whose rows have an entry
    for every column of the map, every sample that is counted and whose
    row exists is on foreground. *)
Lemma foreground_allTrue (columns : nat) (grid : list (float * float)) :
  mapWidth0 = Binary64.ofNat columns ->
  (Z.of_nat columns < 2 ^ 53)%Z ->
  Binary64.Spec.allTrue columns luminanceMap ->
  Forall rowed grid ->
  foreground grid = counted grid.
Proof.
  intros Hwidth Hcolumns Hmask Hrows.
  unfold Binary64.Spec.foreground, Binary64.Spec.counted.
  induction grid as [|s grid IH]; [reflexivity|].
  apply Forall_cons_iff in Hrows as [Hrow Hrows].
  cbn [filter]. destruct (inDiskAndMap s) eqn:Hs; [|now apply IH].
  cbn [filter]. rewrite (IH Hrows).
  replace (onForeground s) with true; [reflexivity|].
  specialize (Hrow eq_refl).
  unfold Binary64.Spec.inDiskAndMap in Hs.
  apply andb_true_iff in Hs as [_ Hs].
  apply andb_true_iff in Hs as [Hs _].
  apply andb_true_iff in Hs as [Hs _].
  apply andb_true_iff in Hs as [Hx0 Hx1].
  unfold Binary64.Spec.onForeground.
  destruct (Binary64.get luminanceMap (Binary64.Math.floor (y0 + fst s))) as [row|] eqn:Er;
    [|contradiction].
  assert (Hin : In row luminanceMap).
  { unfold Binary64.get in Er.
    destruct (Binary64.index _); [|discriminate]. now apply nth_error_In in Er. }
  unfold Binary64.Spec.allTrue in Hmask. rewrite Forall_forall in Hmask.
  destruct (Hmask row Hin) as [Htrue Hlong].
  destruct (floor_index _ _ Hx0 Hx1) as [i Hi].
  rewrite Hwidth in Hx1.
  pose proof (index_below _ _ _ Hi Hx1 Hcolumns) as Hbelow.
  unfold Binary64.get. rewrite Hi.
  destruct (nth_error row i) as [b|] eqn:Eb.
  - apply nth_error_In in Eb. rewrite Forall_forall in Htrue. now rewrite (Htrue b Eb).
  - apply nth_error_None in Eb. lia.
Qed.

End DoubleSampling.

(** ** Region classifier on doubles *)

Section DoubleRegionClassifier.

Import PrimFloat.
Local Open Scope float_scope.




(** Over the row of foreground the circle of the example above is
    given [onColor], and over the row of background [offColor]. *)
Lemma determineCircleColor_uniform_rows :
  Binary64.Spec.allTrue 8 foregroundRow
  /\ Binary64.CirclePlacer.mapWidth evenOptions = Binary64.ofNat 8
  /\ Binary64.CirclePlacer.determineCircleColor 18 (-0.5) 0.5 8 foregroundRow evenOptions
     = Returned (Binary64.CirclePlacer.onColor evenOptions)
  /\ allFalse backgroundRow
  /\ Binary64.CirclePlacer.determineCircleColor 18 (-0.5) 0.5 8 backgroundRow evenOptions
     = Returned (Binary64.CirclePlacer.offColor evenOptions).
Proof.
  split.
  { constructor; [|constructor]. split; [|simpl; lia].
    unfold foregroundRow. apply Forall_forall. intros b Hb.
    now apply repeat_spec in Hb. }
  split; [reflexivity|].
  split; [vm_compute; reflexivity|].
  split; [|vm_compute; reflexivity].
  constructor; [|constructor].
  apply Forall_forall. intros b Hb. now apply repeat_spec in Hb.
Qed.

End DoubleRegionClassifier.

(** * Further properties of the code *)

(** ** When the classifier returns, and what *)

Section ClassifierOutcomes.

Local Open Scope R_scope.
Import CirclePlacer.

Variables (x0 y0 radius0 : R).
Variable luminanceMap : list (list bool).
Variables (mapWidth0 mapHeight0 : R).

#[local] Abbreviation samplePoint :=
  (samplePoint x0 y0 radius0 luminanceMap mapWidth0 mapHeight0).
#[local] Abbreviation rowLoop :=
  (rowLoop x0 y0 radius0 luminanceMap mapWidth0 mapHeight0).
#[local] Abbreviation gridLoop :=
  (gridLoop x0 y0 radius0 luminanceMap mapWidth0 mapHeight0).

Lemma rowLoop_never_throws (fuel : nat) (dy dx : R) (c : nat * nat) :
  rowsCover mapHeight0 luminanceMap -> rowLoop fuel dy dx c <> Throws.
Proof.
  intros Hrows; revert dx c; induction fuel as [|fuel IH]; intros dx c;
    cbn [CirclePlacer.rowLoop]; destruct (leb dx radius0); try discriminate.
  destruct (samplePoint_returns x0 y0 radius0 luminanceMap mapWidth0 mapHeight0
              dx dy c Hrows) as [c1 ->].
  cbn [bind]. apply IH.
Qed.

Lemma gridLoop_never_throws (rowFuel fuel : nat) (dy : R) (c : nat * nat) :
  rowsCover mapHeight0 luminanceMap -> gridLoop rowFuel fuel dy c <> Throws.
Proof.
  intros Hrows; revert dy c; induction fuel as [|fuel IH]; intros dy c;
    cbn [CirclePlacer.gridLoop]; destruct (leb dy radius0); try discriminate.
  destruct (rowLoop rowFuel dy (- radius0) c) as [c1| |] eqn:Hrow; cbn [bind].
  - apply IH.
  - now apply rowLoop_never_throws in Hrow.
  - discriminate.
Qed.

End ClassifierOutcomes.

Section ClassifierEdges.

Local Open Scope R_scope.
Import CirclePlacer.

Lemma classify_cases (options : ColorOptions) (c : nat * nat) :
  classify options c = VNull
  \/ classify options c = onColor options
  \/ classify options c = offColor options.
Proof.
  unfold classify.
  destruct (snd c =? 0)%nat; [now left|].
  destruct (gtb _ _ && ltb _ _); [now left|].
  destruct (gtb _ 0.5); [right; now left | right; now right].
Qed.

Lemma determineCircleColor_cases (fuel : nat) (x0 y0 radius0 : R)
      (luminanceMap : list (list bool)) (options : ColorOptions) (v : value) :
  determineCircleColor fuel x0 y0 radius0 luminanceMap options = Returned v ->
  v = VNull \/ v = onColor options \/ v = offColor options.
Proof.
  unfold determineCircleColor.
  destruct (sampleCircle _ _ _ _ _ _ _) as [c| |]; cbn [bind]; try discriminate.
  intros [= <-]. apply classify_cases.
Qed.

(** X6.  A circle of radius 0 is never classified: the loops of
    [determineCircleColor] advance by 0 and do not end. *)
Theorem determineCircleColor_zero_radius
        (fuel : nat) (x0 y0 : R) (luminanceMap : list (list bool))
        (options : ColorOptions) (v : value) :
  determineCircleColor fuel x0 y0 0 luminanceMap options <> Returned v.
Proof.
  unfold determineCircleColor.
  destruct (sampleCircle _ _ _ _ _ _ _) as [c| |] eqn:Hs; cbn [bind]; try discriminate.
  exfalso. now apply sampleCircle_zero_radius in Hs.
Qed.

(** X7.  A circle of negative radius is rejected at once: neither loop makes
    a turn. *)
Theorem determineCircleColor_negative_radius
        (fuel : nat) (x0 y0 radius0 : R) (luminanceMap : list (list bool))
        (options : ColorOptions) :
  radius0 < 0 ->
  determineCircleColor fuel x0 y0 radius0 luminanceMap options = Returned VNull.
Proof.
  intros Hr. unfold determineCircleColor, sampleCircle.
  rewrite gridLoop_done by lra. reflexivity.
Qed.

Lemma determineCircleColor_negative_radius_witness :
  determineCircleColor 0 10 10 (-1) blankMask
                       (ColorVisionGenerator.colorOptions smallOptions)
  = Returned VNull.
Proof.
  apply (determineCircleColor_negative_radius 0 10 10 (-1)). lra.
Defined.

(** X9.  With a tolerance of 0, a circle with samples on foreground and
    samples on background is rejected. *)
Theorem determineCircleColor_zero_tolerance
        (fuel : nat) (x0 y0 radius0 : R) (luminanceMap : list (list bool))
        (options : ColorOptions) (inPixels totalPixels : nat) :
  sampleCircle x0 y0 radius0 luminanceMap (mapWidth options) (mapHeight options) fuel
  = Returned (inPixels, totalPixels) ->
  tolerance options = 0 ->
  (0 < inPixels < totalPixels)%nat ->
  determineCircleColor fuel x0 y0 radius0 luminanceMap options = Returned VNull.
Proof.
  intros Hs Htol [Hin Htot].
  unfold determineCircleColor. rewrite Hs. cbn [bind]. f_equal.
  unfold classify. cbn [fst snd]. rewrite Htol.
  replace (totalPixels =? 0)%nat with false by (symmetry; apply Nat.eqb_neq; lia).
  assert (Ht : 0 < INR totalPixels) by (apply lt_0_INR; lia).
  assert (Hi : 0 < INR inPixels) by (apply lt_0_INR; lia).
  assert (Hlt : INR inPixels < INR totalPixels) by now apply lt_INR.
  assert (Hratio : 0 < INR inPixels / INR totalPixels < 1).
  { split.
    - now apply Rdiv_lt_0_compat.
    - apply (Rmult_lt_reg_r (INR totalPixels)); [exact Ht|].
      replace (INR inPixels / INR totalPixels * INR totalPixels) with (INR inPixels)
        by (field; lra).
      lra. }
  replace (gtb (INR inPixels / INR totalPixels) 0) with true
    by (symmetry; apply gtb_true; lra).
  replace (ltb (INR inPixels / INR totalPixels) (1 - 0)) with true
    by (symmetry; apply ltb_true; lra).
  reflexivity.
Qed.

Lemma determineCircleColor_zero_tolerance_witness :
  determineCircleColor 18 (-1 / 2) (1 / 2) 8 halfMask strictOptions = Returned VNull.
Proof.
  apply (determineCircleColor_zero_tolerance
           18 (-1 / 2) (1 / 2) 8 halfMask strictOptions 4 8).
  - exact sampleCircle_half.
  - reflexivity.
  - lia.
Defined.

(** With a tolerance of one half or more, the band rejects nothing: a
    circle with one sample in the map gets one of the two colours. *)
Lemma determineCircleColor_wide_tolerance
        (fuel : nat) (x0 y0 radius0 : R) (luminanceMap : list (list bool))
        (options : ColorOptions) (inPixels totalPixels : nat) :
  sampleCircle x0 y0 radius0 luminanceMap (mapWidth options) (mapHeight options) fuel
  = Returned (inPixels, totalPixels) ->
  0.5 <= tolerance options ->
  totalPixels <> 0%nat ->
  determineCircleColor fuel x0 y0 radius0 luminanceMap options
  = Returned (if gtb (INR inPixels / INR totalPixels) 0.5
              then onColor options else offColor options).
Proof.
  intros Hs Htol Htot.
  unfold determineCircleColor. rewrite Hs. cbn [bind]. f_equal.
  unfold classify. cbn [fst snd].
  replace (totalPixels =? 0)%nat with false by (symmetry; now apply Nat.eqb_neq).
  destruct (gtb (INR inPixels / INR totalPixels) (tolerance options)) eqn:Hlo;
    destruct (ltb (INR inPixels / INR totalPixels) (1 - tolerance options)) eqn:Hhi;
    cbn [andb]; try reflexivity.
  apply gtb_true in Hlo. apply ltb_true in Hhi. lra.
Qed.

Lemma determineCircleColor_wide_tolerance_witness :
  determineCircleColor 18 (-1 / 2) (1 / 2) 8 halfMask halfOptions
  = Returned (if gtb (INR 4 / INR 8) 0.5
              then onColor halfOptions else offColor halfOptions).
Proof.
  apply (determineCircleColor_wide_tolerance
           18 (-1 / 2) (1 / 2) 8 halfMask halfOptions 4 8).
  - exact sampleCircle_half.
  - cbn. lra.
  - discriminate.
Defined.

End ClassifierEdges.

(** ** Acceptance of a placement, on doubles *)

Section DoubleAcceptance.

Import PrimFloat.
Local Open Scope float_scope.

Lemma clearOfAll_complete_double (x0 y0 radius0 padding0 : float) (color0 : value)
      (existing : list Binary64.CirclePlacer.Circle) :
  (forall e : Binary64.CirclePlacer.Circle,
      In e existing ->
      (Binary64.Spec.distance (Binary64.CirclePlacer.mkCircle x0 y0 radius0 color0) e
       <? Binary64.Spec.reach padding0
            (Binary64.CirclePlacer.mkCircle x0 y0 radius0 color0) e)
      = false) ->
  Binary64.CirclePlacer.clearOfAll x0 y0 radius0 padding0 existing = true.
Proof.
  induction existing as [|circle rest IH]; cbn [Binary64.CirclePlacer.clearOfAll];
    intros Hall; [reflexivity|].
  pose proof (Hall circle (or_introl eq_refl)) as Hfirst.
  unfold Binary64.Spec.distance, Binary64.Spec.reach in Hfirst;
    cbn [Binary64.CirclePlacer.x Binary64.CirclePlacer.y Binary64.CirclePlacer.radius]
    in Hfirst.
  rewrite Hfirst. apply IH. intros e He. apply Hall. now right.
Qed.


End DoubleAcceptance.

(** ** What the classifier never does, on doubles *)

Section DoubleClassifierOutcomes.

Import PrimFloat.
Local Open Scope float_scope.

Variables (x0 y0 radius0 : float).
Variable luminanceMap : list (list bool).
Variable mapWidth0 : float.
Variable rows : nat.

Hypothesis rows_bound : (Z.of_nat rows < 2 ^ 53)%Z.
Hypothesis rows_present : (rows <= List.length luminanceMap)%nat.

#[local] Abbreviation samplePoint :=
  (Binary64.CirclePlacer.samplePoint x0 y0 radius0 luminanceMap mapWidth0
                                     (Binary64.ofNat rows)).
#[local] Abbreviation rowLoop :=
  (Binary64.CirclePlacer.rowLoop x0 y0 radius0 luminanceMap mapWidth0
                                 (Binary64.ofNat rows)).
#[local] Abbreviation gridLoop :=
  (Binary64.CirclePlacer.gridLoop x0 y0 radius0 luminanceMap mapWidth0
                                  (Binary64.ofNat rows)).

(** The row of a pixel that passes the bounds test exists. *)
Lemma samplePoint_never_throws_double (dx dy : float) (counts : nat * nat) :
  samplePoint dx dy counts <> Throws.
Proof.
  unfold Binary64.CirclePlacer.samplePoint.
  destruct (_ <=? _); [|discriminate].
  destruct (Binary64.geb (Binary64.Math.floor (x0 + dx)) 0
            && (Binary64.Math.floor (x0 + dx) <? mapWidth0)
            && Binary64.geb (Binary64.Math.floor (y0 + dy)) 0
            && (Binary64.Math.floor (y0 + dy) <? Binary64.ofNat rows)) eqn:Hin;
    [|discriminate].
  apply andb_true_iff in Hin as [Hin Hy1].
  apply andb_true_iff in Hin as [_ Hy0].
  destruct (floor_index _ _ Hy0 Hy1) as [i Hi].
  pose proof (index_below _ _ _ Hi Hy1 rows_bound) as Hbelow.
  unfold Binary64.get at 1. rewrite Hi.
  destruct (nth_error luminanceMap i) as [row|] eqn:Erow.
  - destruct (Binary64.get row _) as [[|]|]; discriminate.
  - apply nth_error_None in Erow. lia.
Qed.

Lemma rowLoop_never_throws_double (fuel : nat) :
  forall (dy dx : float) (counts : nat * nat), rowLoop fuel dy dx counts <> Throws.
Proof.
  induction fuel as [|fuel IH]; intros dy dx counts;
    cbn [Binary64.CirclePlacer.rowLoop]; destruct (dx <=? radius0); try discriminate.
  pose proof (samplePoint_never_throws_double dx dy counts) as Hpoint.
  destruct (samplePoint dx dy counts) as [c1| |]; cbn [bind];
    [apply IH | contradiction | discriminate].
Qed.

Lemma gridLoop_never_throws_double (rowFuel fuel : nat) :
  forall (dy : float) (counts : nat * nat), gridLoop rowFuel fuel dy counts <> Throws.
Proof.
  induction fuel as [|fuel IH]; intros dy counts;
    cbn [Binary64.CirclePlacer.gridLoop]; destruct (dy <=? radius0); try discriminate.
  pose proof (rowLoop_never_throws_double rowFuel dy (- radius0) counts) as Hrow.
  destruct (rowLoop rowFuel dy (- radius0) counts) as [c1| |]; cbn [bind];
    [apply IH | contradiction | discriminate].
Qed.

End DoubleClassifierOutcomes.

Section DoubleClassifierNeverThrows.

Import PrimFloat.
Local Open Scope float_scope.

(** X5.  In double precision, over a map whose height is a number of
    rows below [2 ^ 53] and a mask that has at least that many rows,
    [determineCircleColor] never throws, whatever the centre, the
    radius, the width of the map and the length of the rows: a pixel row
    that passes the bounds test is a row of the mask. *)
Theorem determineCircleColor_never_throws_on_doubles
        (fuel : nat) (x0 y0 radius0 : float) (luminanceMap : list (list bool))
        (options : Binary64.CirclePlacer.ColorOptions) (rows : nat) :
  Binary64.CirclePlacer.mapHeight options = Binary64.ofNat rows ->
  (Z.of_nat rows < 2 ^ 53)%Z ->
  (rows <= List.length luminanceMap)%nat ->
  Binary64.CirclePlacer.determineCircleColor fuel x0 y0 radius0 luminanceMap options
  <> Throws.
Proof.
  intros Hheight Hbound Hrows.
  unfold Binary64.CirclePlacer.determineCircleColor, Binary64.CirclePlacer.sampleCircle.
  rewrite Hheight.
  pose proof (gridLoop_never_throws_double
                x0 y0 radius0 luminanceMap (Binary64.CirclePlacer.mapWidth options)
                rows Hbound Hrows fuel fuel (- radius0) (0%nat, 0%nat)) as Hgrid.
  destruct (Binary64.CirclePlacer.gridLoop _ _ _ _ _ _ _ _ _ _) as [counts| |];
    cbn [bind]; [discriminate | contradiction | discriminate].
Qed.

Lemma determineCircleColor_never_throws_on_doubles_witness :
  Binary64.CirclePlacer.determineCircleColor 18 (-0.5) 0.5 8 halfMask evenOptions
  <> Throws.
Proof.
  apply (determineCircleColor_never_throws_on_doubles
           18 (-0.5) 0.5 8 halfMask evenOptions 1).
  - reflexivity.
  - reflexivity.
  - simpl; lia.
Defined.

End DoubleClassifierNeverThrows.

(** ** A step that underflows *)

Section DoubleStalledLoops.

Import PrimFloat SpecFloat FloatOps FloatAxioms.
Local Open Scope float_scope.

(** Adding a zero to a double leaves its comparisons as they were. *)
Lemma leb_add_zero (d step bound : float) :
  (step =? 0) = true -> (d + step <=? bound) = (d <=? bound).
Proof.
  rewrite eqb_spec, !leb_spec, add_spec.
  change (Prim2SF 0) with (S754_zero false). unfold SF64add.
  destruct (Prim2SF step) as [s|s| |s m e]; unfold SFeqb; cbn [SFcompare];
    try destruct s; try discriminate; intros _;
    destruct (Prim2SF d) as [sd|sd| |sd md ed]; cbn [SFadd]; try reflexivity;
    now destruct sd.
Qed.

Variables (x0 y0 radius0 : float).
Variable luminanceMap : list (list bool).
Variables (mapWidth0 mapHeight0 : float).

Hypothesis step_zero : (radius0 / Binary64.CirclePlacer.samples radius0 =? 0) = true.

#[local] Abbreviation rowLoop :=
  (Binary64.CirclePlacer.rowLoop x0 y0 radius0 luminanceMap mapWidth0 mapHeight0).
#[local] Abbreviation gridLoop :=
  (Binary64.CirclePlacer.gridLoop x0 y0 radius0 luminanceMap mapWidth0 mapHeight0).

(** The inner loop does not leave an offset that is not above the
    radius. *)
Lemma rowLoop_stalls (fuel : nat) :
  forall (dy dx : float) (counts counts' : nat * nat),
    (dx <=? radius0) = true -> rowLoop fuel dy dx counts <> Returned counts'.
Proof.
  induction fuel as [|fuel IH]; intros dy dx counts counts' Hdx;
    cbn [Binary64.CirclePlacer.rowLoop]; rewrite Hdx; [discriminate|].
  destruct (Binary64.CirclePlacer.samplePoint _ _ _ _ _ _ _ _ _) as [c1| |];
    cbn [bind]; try discriminate.
  apply IH. now rewrite leb_add_zero.
Qed.

Lemma gridLoop_stalls (rowFuel fuel : nat) (dy : float) (counts counts' : nat * nat) :
  (- radius0 <=? radius0) = true ->
  (dy <=? radius0) = true ->
  gridLoop rowFuel fuel dy counts <> Returned counts'.
Proof.
  intros Hstart Hdy.
  destruct fuel as [|fuel]; cbn [Binary64.CirclePlacer.gridLoop]; rewrite Hdy;
    [discriminate|].
  pose proof (rowLoop_stalls rowFuel dy (- radius0) counts) as Hrow.
  destruct (rowLoop rowFuel dy (- radius0) counts) as [c1| |]; cbn [bind];
    try discriminate.
  now specialize (Hrow c1 Hstart).
Qed.

End DoubleStalledLoops.

Section DoubleStalledClassifier.

Import PrimFloat.
Local Open Scope float_scope.

(** X29.  In double precision, when [-radius <= radius] holds and the
    step [radius / samples] is 0, as it is for a radius of 0 and for a
    positive radius so small that the quotient underflows, such as
    5e-324, [determineCircleColor] does not return, whatever the fuel:
    the inner loop never advances. *)
Theorem determineCircleColor_stalls_on_zero_step
        (fuel : nat) (x0 y0 radius0 : float) (luminanceMap : list (list bool))
        (options : Binary64.CirclePlacer.ColorOptions) (v : value) :
  (- radius0 <=? radius0) = true ->
  (radius0 / Binary64.CirclePlacer.samples radius0 =? 0) = true ->
  Binary64.CirclePlacer.determineCircleColor fuel x0 y0 radius0 luminanceMap options
  <> Returned v.
Proof.
  intros Hstart Hstep.
  unfold Binary64.CirclePlacer.determineCircleColor, Binary64.CirclePlacer.sampleCircle.
  pose proof (gridLoop_stalls
                x0 y0 radius0 luminanceMap (Binary64.CirclePlacer.mapWidth options)
                (Binary64.CirclePlacer.mapHeight options) Hstep fuel fuel (- radius0)
                (0%nat, 0%nat)) as Hgrid.
  destruct (Binary64.CirclePlacer.gridLoop _ _ _ _ _ _ _ _ _ _) as [counts| |];
    cbn [bind]; try discriminate.
  now specialize (Hgrid counts Hstart Hstart).
Qed.

Lemma determineCircleColor_stalls_on_zero_step_witness :
  Binary64.CirclePlacer.determineCircleColor 1000 4 0.5 5e-324 halfMask evenOptions
  <> Returned (VString "#4ECDC4").
Proof.
  apply (determineCircleColor_stalls_on_zero_step
           1000 4 0.5 5e-324 halfMask evenOptions (VString "#4ECDC4")).
  - reflexivity.
  - reflexivity.
Defined.

End DoubleStalledClassifier.

(** ** What the packing loop never does, on doubles *)

Section DoublePackingNeverThrows.

Import PrimFloat.
Local Open Scope float_scope.

Variable math : Binary64.Math.Implementation.
Variable options : Binary64.ColorVisionGenerator.Options.
Variable rnd : nat -> float.
Variable luminanceMap : list (list bool).
Variable sampleFuel : nat.
Variable rows : nat.

Hypothesis height_rows : Binary64.ColorVisionGenerator.height options = Binary64.ofNat rows.
Hypothesis rows_bound : (Z.of_nat rows < 2 ^ 53)%Z.
Hypothesis rows_present : (rows <= List.length luminanceMap)%nat.

Lemma iteration_never_throws_double (st : Binary64.ColorVisionGenerator.LoopState) :
  Binary64.ColorVisionGenerator.iteration math options rnd luminanceMap sampleFuel st
  <> Throws.
Proof.
  unfold Binary64.ColorVisionGenerator.iteration, Binary64.ColorVisionGenerator.place.
  destruct (Binary64.CirclePlacer.generateRandomPosition _ _ _ _) as [position drawn1].
  destruct (Binary64.CirclePlacer.isValidPlacement _ _ _ _ _ _).
  - unfold Binary64.CirclePlacer.determineCircleColor, Binary64.CirclePlacer.sampleCircle.
    cbn [Binary64.ColorVisionGenerator.colorOptions Binary64.CirclePlacer.mapWidth
         Binary64.CirclePlacer.mapHeight].
    rewrite height_rows.
    match goal with
    | |- context [Binary64.CirclePlacer.gridLoop ?x ?y ?r ?m ?w ?h ?rf ?f ?d ?c] =>
        pose proof (gridLoop_never_throws_double x y r m w rows rows_bound rows_present
                                                 rf f d c) as Hgrid;
        destruct (Binary64.CirclePlacer.gridLoop x y r m w h rf f d c) as [counts| |]
    end; cbn [bind]; [|contradiction|discriminate].
    destruct (truthy _); cbn [bind]; destruct (_ && _); discriminate.
  - cbn [bind]. destruct (_ && _); discriminate.
Qed.

Lemma whileLoop_never_throws_double (fuel : nat) :
  forall st : Binary64.ColorVisionGenerator.LoopState,
    Binary64.ColorVisionGenerator.whileLoop math options rnd luminanceMap sampleFuel fuel st
    <> Throws.
Proof.
  induction fuel as [|fuel IH]; intros st; cbn [Binary64.ColorVisionGenerator.whileLoop];
    destruct (_ <? _)%Z; try discriminate.
  pose proof (iteration_never_throws_double st) as Hit.
  destruct (Binary64.ColorVisionGenerator.iteration _ _ _ _ _ _) as [st1| |]; cbn [bind];
    [apply IH | contradiction | discriminate].
Qed.

End DoublePackingNeverThrows.

Section DoublePackingRuns.

Import PrimFloat.
Local Open Scope float_scope.

(** X30.  In double precision, run on the mask that [createLuminanceMap]
    builds from a canvas whose height, below [2 ^ 53], is the height of
    the options, [_generateCircles] never throws, whatever the other
    options, the pixel buffer, the threshold and the draws. *)
Theorem generateCircles_never_throws_on_doubles
        (math : Binary64.Math.Implementation)
        (options : Binary64.ColorVisionGenerator.Options) (rnd : nat -> float)
        (canvas : CanvasUtils.Canvas) (t : option float) (sampleFuel fuel : nat) :
  Binary64.ColorVisionGenerator.height options
  = Binary64.ofNat (CanvasUtils.height canvas) ->
  (Z.of_nat (CanvasUtils.height canvas) < 2 ^ 53)%Z ->
  Binary64.ColorVisionGenerator._generateCircles
    math options rnd (Binary64.CanvasUtils.createLuminanceMap math canvas t)
    sampleFuel fuel
  <> Throws.
Proof.
  intros Hheight Hbound.
  assert (Hrows : (CanvasUtils.height canvas
                   <= List.length (Binary64.CanvasUtils.createLuminanceMap math canvas t))%nat).
  { unfold Binary64.CanvasUtils.createLuminanceMap. now rewrite length_map, length_seq. }
  unfold Binary64.ColorVisionGenerator._generateCircles, Binary64.ColorVisionGenerator.run.
  pose proof (whileLoop_never_throws_double
                math options rnd _ sampleFuel _ Hheight Hbound Hrows fuel
                (Binary64.ColorVisionGenerator.initialState options)) as Hloop.
  destruct (Binary64.ColorVisionGenerator.whileLoop _ _ _ _ _ _ _) as [st| |];
    cbn [bind]; [discriminate | contradiction | discriminate].
Qed.

Lemma generateCircles_never_throws_on_doubles_witness :
  Binary64.ColorVisionGenerator._generateCircles
    exampleMath tightOptions tightDraws
    (Binary64.CanvasUtils.createLuminanceMap exampleMath (CanvasUtils.mkCanvas 32 32 [])
                                             None)
    64 3
  <> Throws.
Proof.
  apply (generateCircles_never_throws_on_doubles
           exampleMath tightOptions tightDraws (CanvasUtils.mkCanvas 32 32 []) None 64 3).
  - reflexivity.
  - reflexivity.
Defined.

End DoublePackingRuns.


(** ** More on the packing loop *)

Section PackingPasses.

Local Open Scope R_scope.
Import ColorVisionGenerator.

Variable options : Options.
Variable rnd : nat -> R.
Variable luminanceMap : list (list bool).
Variable sampleFuel : nat.

#[local] Abbreviation place := (place options rnd luminanceMap sampleFuel).
#[local] Abbreviation iteration := (iteration options rnd luminanceMap sampleFuel).
#[local] Abbreviation whileLoop := (whileLoop options rnd luminanceMap sampleFuel).

Lemma generateRandomPosition_drawn (c : CirclePlacer.Constraints) (k : nat) :
  snd (CirclePlacer.generateRandomPosition c rnd k) = S (S k).
Proof.
  unfold CirclePlacer.generateRandomPosition.
  now destruct (CirclePlacer.circular c).
Qed.

(** What the first half of a pass does, in full: three draws are made;
    the candidate is rejected, or it is appended with the radius drawn
    between [minRadius] and the ceiling and the colour that
    [determineCircleColor] returned, which is truthy. *)
Lemma place_spec (st : LoopState) (cs : list CirclePlacer.Circle) (a : Z) (d : nat) :
  place st = Returned (cs, a, d) ->
  d = S (S (S (drawn st)))
  /\ ((cs = circles st /\ a = (attempts st + 1)%Z)
      \/ (exists (x0 y0 : R) (color : value),
             let r := minRadius options
                      + rnd (S (S (drawn st)))
                        * (currentMaxRadius st - minRadius options) in
             cs = circles st ++ [CirclePlacer.mkCircle x0 y0 r color]
             /\ a = 0%Z
             /\ CirclePlacer.isValidPlacement x0 y0 r (circles st) (constraints options)
                = true
             /\ CirclePlacer.determineCircleColor sampleFuel x0 y0 r luminanceMap
                                                  (colorOptions options)
                = Returned color
             /\ truthy color = true)).
Proof.
  unfold ColorVisionGenerator.place.
  pose proof (generateRandomPosition_drawn (constraints options) (drawn st)) as Hd.
  destruct (CirclePlacer.generateRandomPosition _ _ _) as [position drawn1].
  cbn [snd] in Hd. subst drawn1.
  destruct (CirclePlacer.isValidPlacement _ _ _ _ _) eqn:Hvalid.
  - destruct (CirclePlacer.determineCircleColor _ _ _ _ _ _) as [color| |] eqn:Hcolor;
      cbn [bind]; try discriminate.
    destruct (truthy color) eqn:Htruthy; intros [= <- <- <-]; (split; [reflexivity|]).
    + right. exists (fst position), (snd position), color. cbv zeta.
      repeat split; assumption.
    + now left.
  - intros [= <- <- <-]. split; [reflexivity | now left].
Qed.

(** What a pass does to the counter and to the radius ceiling. *)
Lemma iteration_spec (st st' : LoopState) :
  iteration st = Returned st' ->
  exists (cs : list CirclePlacer.Circle) (a : Z) (d : nat),
    place st = Returned (cs, a, d)
    /\ circles st' = cs /\ drawn st' = d
    /\ iterations st' = S (iterations st)
    /\ (((1000 < a)%Z /\ minRadius options + 1 < currentMaxRadius st
         /\ attempts st' = 0%Z
         /\ currentMaxRadius st' = currentMaxRadius st * 0.98)
        \/ (attempts st' = a /\ currentMaxRadius st' = currentMaxRadius st)).
Proof.
  unfold ColorVisionGenerator.iteration.
  destruct (place st) as [[[cs a] d]| |]; cbn [bind]; try discriminate.
  destruct (1000 <? a)%Z eqn:Ha;
    destruct (gtb (currentMaxRadius st) (minRadius options + 1)) eqn:Hg;
    cbn [andb]; intros [= <-]; exists cs, a, d;
    cbn [circles drawn iterations attempts currentMaxRadius];
    repeat split; try (right; now split).
  left. apply Z.ltb_lt in Ha. apply gtb_true in Hg. repeat split; assumption.
Qed.

Lemma determineCircleColor_never_throws (fuel : nat) (x0 y0 r : R)
      (o : CirclePlacer.ColorOptions) :
  rowsCover (CirclePlacer.mapHeight o) luminanceMap ->
  CirclePlacer.determineCircleColor fuel x0 y0 r luminanceMap o <> Throws.
Proof.
  intros Hrows. unfold CirclePlacer.determineCircleColor, CirclePlacer.sampleCircle.
  destruct (CirclePlacer.gridLoop _ _ _ _ _ _ _ _ _ _) as [c| |] eqn:Hgrid; cbn [bind];
    try discriminate.
  now apply gridLoop_never_throws in Hgrid.
Qed.

Lemma iteration_never_throws (st : LoopState) :
  rowsCover (height options) luminanceMap -> iteration st <> Throws.
Proof.
  intros Hrows.
  unfold ColorVisionGenerator.iteration, ColorVisionGenerator.place.
  destruct (CirclePlacer.generateRandomPosition _ _ _) as [position drawn1].
  destruct (CirclePlacer.isValidPlacement _ _ _ _ _).
  - destruct (CirclePlacer.determineCircleColor _ _ _ _ _ _) as [color| |] eqn:Hcolor;
      cbn [bind].
    + destruct (truthy color); cbn [bind]; destruct (_ && _); discriminate.
    + now apply determineCircleColor_never_throws in Hcolor.
    + discriminate.
  - cbn [bind]. destruct (_ && _); discriminate.
Qed.

Lemma whileLoop_never_throws (fuel : nat) (st : LoopState) :
  rowsCover (height options) luminanceMap -> whileLoop fuel st <> Throws.
Proof.
  intros Hrows; revert st; induction fuel as [|fuel IH]; intros st;
    cbn [ColorVisionGenerator.whileLoop];
    destruct (attempts st <? maxAttempts options)%Z; try discriminate.
  destruct (iteration st) as [st1| |] eqn:Hit; cbn [bind].
  - apply IH.
  - now apply iteration_never_throws in Hit.
  - discriminate.
Qed.

(** X10.  A pass appends at most one circle and changes none, so the circles of
    the state in which the loop returns are those of the state in which it
    started, in the same order, followed by the circles placed since. *)
Theorem packing_only_appends (fuel : nat) (st st' : LoopState) :
  whileLoop fuel st = Returned st' ->
  exists placed : list CirclePlacer.Circle, circles st' = circles st ++ placed.
Proof.
  apply (whileLoop_invariant options rnd luminanceMap sampleFuel
           (fun s => exists placed, circles s = circles st ++ placed)).
  - intros s s' [placed Hs] _ Hit.
    destruct (iteration_spec _ _ Hit) as (cs & a & d & Hplace & <- & _).
    destruct (place_spec _ _ _ _ Hplace)
      as [_ [[-> _] | (x0 & y0 & color & -> & _)]].
    + now exists placed.
    + exists (placed ++ [CirclePlacer.mkCircle x0 y0
                          (minRadius options
                           + rnd (S (S (drawn s)))
                             * (currentMaxRadius s - minRadius options)) color]).
      rewrite Hs. now rewrite app_assoc.
  - exists []. now rewrite app_nil_r.
Qed.

(** Every circle placed has a truthy colour that is one of the two
    colours of the options. *)
Lemma run_colors (fuel : nat) (st : LoopState) :
  run options rnd luminanceMap sampleFuel fuel = Returned st ->
  Forall (fun c : CirclePlacer.Circle =>
            truthy (CirclePlacer.color c) = true
            /\ (CirclePlacer.color c = onColor options
                \/ CirclePlacer.color c = offColor options))
         (circles st).
Proof.
  apply (whileLoop_invariant options rnd luminanceMap sampleFuel
           (fun s => Forall (fun c : CirclePlacer.Circle =>
                               truthy (CirclePlacer.color c) = true
                               /\ (CirclePlacer.color c = onColor options
                                   \/ CirclePlacer.color c = offColor options))
                            (circles s))).
  - intros s s' Hs _ Hit.
    destruct (iteration_spec _ _ Hit) as (cs & a & d & Hplace & <- & _).
    destruct (place_spec _ _ _ _ Hplace)
      as [_ [[-> _] | (x0 & y0 & color & -> & _ & _ & Hcolor & Htruthy)]];
      [exact Hs|].
    apply Forall_app; split; [exact Hs|].
    constructor; [|constructor]. cbn [CirclePlacer.color].
    split; [exact Htruthy|].
    destruct (determineCircleColor_cases _ _ _ _ _ _ _ Hcolor) as [-> | Hc];
      [discriminate | exact Hc].
  - constructor.
Qed.

(** Three draws are made in every pass. *)
Lemma run_drawn (fuel : nat) (st : LoopState) :
  run options rnd luminanceMap sampleFuel fuel = Returned st ->
  drawn st = (3 * iterations st)%nat.
Proof.
  apply (whileLoop_invariant options rnd luminanceMap sampleFuel
           (fun s => drawn s = (3 * iterations s)%nat)).
  - intros s s' Hs _ Hit.
    destruct (iteration_spec _ _ Hit) as (cs & a & d & Hplace & _ & -> & -> & _).
    destruct (place_spec _ _ _ _ Hplace) as [-> _]. lia.
  - reflexivity.
Qed.

(** While [minRadius] is between -1 and 49, the radius ceiling stays
    between [minRadius] and [maxRadius], and so do the radii placed. *)
Lemma run_radii (fuel : nat) (st : LoopState) :
  (forall k : nat, 0 <= rnd k <= 1) ->
  -1 <= minRadius options <= 49 ->
  minRadius options <= maxRadius options ->
  run options rnd luminanceMap sampleFuel fuel = Returned st ->
  minRadius options <= currentMaxRadius st <= maxRadius options
  /\ Forall (fun c : CirclePlacer.Circle =>
               minRadius options <= CirclePlacer.radius c <= maxRadius options)
            (circles st).
Proof.
  intros Hrnd Hmin Hmax.
  apply (whileLoop_invariant options rnd luminanceMap sampleFuel
           (fun s => minRadius options <= currentMaxRadius s <= maxRadius options
                     /\ Forall (fun c : CirclePlacer.Circle =>
                                  minRadius options <= CirclePlacer.radius c
                                  <= maxRadius options)
                               (circles s))).
  - intros s s' [Hceil Hall] _ Hit.
    destruct (iteration_spec _ _ Hit) as (cs & a & d & Hplace & <- & _ & _ & Hcase).
    split.
    + destruct Hcase as [(_ & Hgt & _ & ->) | (_ & ->)]; [|exact Hceil]. lra.
    + destruct (place_spec _ _ _ _ Hplace)
        as [_ [[-> _] | (x0 & y0 & color & -> & _)]]; [exact Hall|].
      apply Forall_app; split; [exact Hall|].
      constructor; [|constructor]. cbn [CirclePlacer.radius].
      specialize (Hrnd (S (S (drawn s)))). nra.
  - cbn [initialState currentMaxRadius circles]. split; [lra | constructor].
Qed.

(** When the ceiling cannot be reduced and no circle has been placed,
    the counter is the number of passes made. *)
Lemma run_unproductive (fuel : nat) (st : LoopState) :
  maxRadius options <= minRadius options + 1 ->
  run options rnd luminanceMap sampleFuel fuel = Returned st ->
  currentMaxRadius st = maxRadius options
  /\ (circles st = [] -> attempts st = Z.of_nat (iterations st)).
Proof.
  intros Hflat.
  apply (whileLoop_invariant options rnd luminanceMap sampleFuel
           (fun s => currentMaxRadius s = maxRadius options
                     /\ (circles s = [] -> attempts s = Z.of_nat (iterations s)))).
  - intros s s' [Hceil Hcount] _ Hit.
    destruct (iteration_spec _ _ Hit) as (cs & a & d & Hplace & <- & _ & Hn & Hcase).
    destruct Hcase as [(_ & Hgt & _ & _) | (Ha & Hr)]; [lra|].
    split; [congruence|].
    destruct (place_spec _ _ _ _ Hplace)
      as [_ [[-> ->] | (x0 & y0 & color & -> & _)]].
    + intros Hnil. rewrite Ha, Hn, (Hcount Hnil). lia.
    + intros Hnil. now apply app_eq_nil in Hnil as [_ Hnil].
  - cbn. split; [reflexivity | intros _; reflexivity].
Qed.

End PackingPasses.

Section PackingRuns.

Local Open Scope R_scope.
Import ColorVisionGenerator.

Lemma smallRun_tail :
  whileLoop smallOptions draws blankMask 17 2 smallRunFirst = Returned smallRunEnd.
Proof.
  rewrite whileLoop_turn by (cbn; lia). rewrite smallRun_second. cbn [bind].
  rewrite whileLoop_turn by (cbn; lia). rewrite smallRun_third. cbn [bind].
  apply whileLoop_done. cbn. lia.
Qed.

Lemma draws_range (k : nat) : 0 <= draws k <= 1.
Proof.
  unfold draws.
  do 6 (destruct k as [|k]; [cbn [nth]; lra|]).
  destruct k; cbn [nth]; lra.
Qed.

Lemma brokenOptions_eq :
  brokenOptions
  = setColors VUndefined VUndefined (withPalette (Some "constructor"%string) smallOptions).
Proof. reflexivity. Qed.

(** With both colours undefined, the first candidate of the small run is
    valid but gets no colour, and the run ends without a circle. *)
Lemma brokenRun : run brokenOptions draws blankMask 17 1 = Returned brokenRunEnd.
Proof.
  rewrite brokenOptions_eq. unfold run.
  rewrite whileLoop_turn by (cbn; lia).
  assert (Hvalid : CirclePlacer.isValidPlacement
                     (0 + 0.1 * (100 - 0 * 2)) (0 + 0.1 * (100 - 0 * 2))
                     (4 + 0 * (4 - 4)) []
                     (constraints (setColors VUndefined VUndefined
                                     (withPalette (Some "constructor"%string) smallOptions)))
                   = true).
  { apply isValidPlacement_rectangular; cbn; try lra; reflexivity. }
  assert (Hcolor : CirclePlacer.determineCircleColor
                     17 (0 + 0.1 * (100 - 0 * 2)) (0 + 0.1 * (100 - 0 * 2))
                     (4 + 0 * (4 - 4)) blankMask
                     (colorOptions (setColors VUndefined VUndefined
                                      (withPalette (Some "constructor"%string) smallOptions)))
                   = Returned VUndefined).
  { assert (Ex : Int_part (0 + 0.1 * (100 - 0 * 2)) = 10%Z)
      by (symmetry; apply Int_part_spec; lra).
    apply (determineCircleColor_background
             17 (0 + 0.1 * (100 - 0 * 2)) (0 + 0.1 * (100 - 0 * 2)) (4 + 0 * (4 - 4))
             blankMask
             (colorOptions (setColors VUndefined VUndefined
                              (withPalette (Some "constructor"%string) smallOptions))));
      cbn [colorOptions setColors withPalette smallOptions CirclePlacer.mapWidth
           CirclePlacer.mapHeight CirclePlacer.tolerance width height tolerance];
      rewrite ?Ex; try lra; try lia;
      try exact allFalse_blankMask; try exact rowsCover_blankMask.
    replace (4 + 0 * (4 - 4)) with 4 by lra.
    rewrite samples_4_is_8. cbn [INR]. lra. }
  unfold iteration, place, CirclePlacer.generateRandomPosition.
  cbn [constraints setColors withPalette smallOptions circular margin width height
       CirclePlacer.circular CirclePlacer.margin CirclePlacer.width CirclePlacer.height
       initialState drawn circles attempts currentMaxRadius minRadius maxRadius
       draws nth fst snd] in *.
  rewrite Hvalid, Hcolor. cbn [bind truthy].
  cbn [Z.add Z.ltb Z.compare Pos.compare Pos.compare_cont andb bind iterations].
  apply whileLoop_done. cbn. lia.
Qed.

Lemma rowsCover_createLuminanceMap (canvas : CanvasUtils.Canvas) (t : option R) :
  rowsCover (INR (CanvasUtils.height canvas)) (CanvasUtils.createLuminanceMap canvas t).
Proof.
  intros py H0 H1. apply nth_error_Some.
  unfold CanvasUtils.createLuminanceMap. rewrite length_map, length_seq.
  apply INR_lt. rewrite INR_IZR_INZ, Z2Nat.id by exact H0. exact H1.
Qed.

Lemma packing_only_appends_witness :
  exists placed : list CirclePlacer.Circle,
    circles smallRunEnd = circles smallRunFirst ++ placed.
Proof.
  apply (packing_only_appends smallOptions draws blankMask 17 2
                              smallRunFirst smallRunEnd).
  exact smallRun_tail.
Defined.

(** X11.  Every circle returned has a truthy colour, which is the [onColor] or
    the [offColor] of the options. *)
Theorem generateCircles_two_colors
        (options : Options) (rnd : nat -> R) (luminanceMap : list (list bool))
        (sampleFuel fuel : nat) (cs : list CirclePlacer.Circle) :
  _generateCircles options rnd luminanceMap sampleFuel fuel = Returned cs ->
  Forall (fun c : CirclePlacer.Circle =>
            truthy (CirclePlacer.color c) = true
            /\ (CirclePlacer.color c = onColor options
                \/ CirclePlacer.color c = offColor options)) cs.
Proof.
  intros Hgen.
  destruct (generateCircles_run _ _ _ _ _ _ Hgen) as (st & Hrun & <-).
  apply (run_colors _ _ _ _ _ _ Hrun).
Qed.

Lemma generateCircles_two_colors_witness :
  Forall (fun c : CirclePlacer.Circle =>
            truthy (CirclePlacer.color c) = true
            /\ (CirclePlacer.color c = onColor smallOptions
                \/ CirclePlacer.color c = offColor smallOptions))
         [firstCircle; secondCircle].
Proof.
  apply (generateCircles_two_colors smallOptions draws blankMask 17 3).
  exact smallRun_circles.
Defined.

(** X12.  When neither colour of the options is truthy (undefined, null or the
    empty string), no circle is ever placed: a run that returns returns
    the empty list. *)
Theorem generateCircles_falsy_colors
        (options : Options) (rnd : nat -> R) (luminanceMap : list (list bool))
        (sampleFuel fuel : nat) (cs : list CirclePlacer.Circle) :
  truthy (onColor options) = false ->
  truthy (offColor options) = false ->
  _generateCircles options rnd luminanceMap sampleFuel fuel = Returned cs ->
  cs = [].
Proof.
  intros Hon Hoff Hgen.
  destruct (generateCircles_run _ _ _ _ _ _ Hgen) as (st & Hrun & <-).
  pose proof (run_colors _ _ _ _ _ _ Hrun) as Hall.
  destruct (circles st) as [|c rest]; [reflexivity|].
  inversion Hall as [|? ? [Htruthy [Hc | Hc]] _]; subst; rewrite Hc in Htruthy; congruence.
Qed.

Lemma generateCircles_falsy_colors_witness :
  circles brokenRunEnd = [].
Proof.
  apply (generateCircles_falsy_colors brokenOptions draws blankMask 17 1).
  - reflexivity.
  - reflexivity.
  - unfold _generateCircles. now rewrite brokenRun.
Defined.

(** X13.  With draws in [0, 1], [minRadius] between -1 and 49 and not above
    [maxRadius], every circle returned has a radius between [minRadius]
    and [maxRadius]. *)
Theorem generateCircles_radius_range
        (options : Options) (rnd : nat -> R) (luminanceMap : list (list bool))
        (sampleFuel fuel : nat) (cs : list CirclePlacer.Circle) :
  (forall k : nat, 0 <= rnd k <= 1) ->
  -1 <= minRadius options <= 49 ->
  minRadius options <= maxRadius options ->
  _generateCircles options rnd luminanceMap sampleFuel fuel = Returned cs ->
  Forall (fun c : CirclePlacer.Circle =>
            minRadius options <= CirclePlacer.radius c <= maxRadius options) cs.
Proof.
  intros Hrnd Hmin Hmax Hgen.
  destruct (generateCircles_run _ _ _ _ _ _ Hgen) as (st & Hrun & <-).
  apply (run_radii _ _ _ _ _ _ Hrnd Hmin Hmax Hrun).
Qed.

Lemma generateCircles_radius_range_witness :
  Forall (fun c : CirclePlacer.Circle =>
            minRadius smallOptions <= CirclePlacer.radius c <= maxRadius smallOptions)
         [firstCircle; secondCircle].
Proof.
  apply (generateCircles_radius_range smallOptions draws blankMask 17 3).
  - exact draws_range.
  - cbn. lra.
  - cbn. lra.
  - exact smallRun_circles.
Defined.

(** A run makes exactly three draws from [Math.random] in each pass. *)
Lemma run_three_draws_per_pass
        (options : Options) (rnd : nat -> R) (luminanceMap : list (list bool))
        (sampleFuel fuel : nat) (st : LoopState) :
  run options rnd luminanceMap sampleFuel fuel = Returned st ->
  drawn st = (3 * iterations st)%nat.
Proof. apply run_drawn. Qed.

Lemma run_three_draws_per_pass_witness :
  drawn smallRunEnd = (3 * iterations smallRunEnd)%nat.
Proof.
  apply (run_three_draws_per_pass smallOptions draws blankMask 17 3).
  exact smallRun.
Defined.

(** X14.  When the radius ceiling cannot be reduced ([maxRadius <= minRadius +
    1]) and the run returns without a circle, it has made exactly
    [maxAttempts] passes (none when [maxAttempts] is negative). *)
Theorem run_without_circle_exhausts_budget
        (options : Options) (rnd : nat -> R) (luminanceMap : list (list bool))
        (sampleFuel fuel : nat) (st : LoopState) :
  maxRadius options <= minRadius options + 1 ->
  run options rnd luminanceMap sampleFuel fuel = Returned st ->
  circles st = [] ->
  Z.of_nat (iterations st) = Z.max 0 (maxAttempts options).
Proof.
  intros Hflat Hrun Hnil.
  destruct (run_unproductive _ _ _ _ _ _ Hflat Hrun) as [_ Hcount].
  specialize (Hcount Hnil).
  pose proof (whileLoop_exit _ _ _ _ _ _ _ Hrun) as Hexit.
  destruct (run_counted _ _ _ _ _ _ Hrun) as [Hrange Hmax].
  lia.
Qed.

Lemma run_without_circle_exhausts_budget_witness :
  Z.of_nat (iterations brokenRunEnd) = Z.max 0 (maxAttempts brokenOptions).
Proof.
  apply (run_without_circle_exhausts_budget brokenOptions draws blankMask 17 1).
  - rewrite brokenOptions_eq.
    cbn [maxRadius minRadius setColors withPalette smallOptions]. lra.
  - exact brokenRun.
  - reflexivity.
Defined.

(** X15.  Run on the mask that [createLuminanceMap] builds from a canvas as
    high as the options say, [_generateCircles] never throws. *)
Theorem generateCircles_never_throws
        (options : Options) (rnd : nat -> R) (canvas : CanvasUtils.Canvas)
        (t : option R) (sampleFuel fuel : nat) :
  height options = INR (CanvasUtils.height canvas) ->
  _generateCircles options rnd (CanvasUtils.createLuminanceMap canvas t)
                   sampleFuel fuel <> Throws.
Proof.
  intros Hh. unfold _generateCircles, run.
  destruct (whileLoop _ _ _ _ _ _) as [st| |] eqn:Hloop; cbn [bind]; try discriminate.
  intros _. revert Hloop. apply whileLoop_never_throws.
  rewrite Hh. apply rowsCover_createLuminanceMap.
Qed.

Lemma generateCircles_never_throws_witness :
  _generateCircles smallOptions draws
                   (CanvasUtils.createLuminanceMap emptyCanvas (Some 0.5)) 17 3
  <> Throws.
Proof.
  apply (generateCircles_never_throws smallOptions draws emptyCanvas (Some 0.5) 17 3).
  cbn [height smallOptions emptyCanvas CanvasUtils.height].
  rewrite INR_IZR_INZ. reflexivity.
Defined.

End PackingRuns.

(** ** More on the luminance classifier *)

Section LuminanceRange.

Local Open Scope R_scope.

Lemma sRGBtoLin_range (c : R) : 0 <= c <= 1 -> 0 <= Luminance.sRGBtoLin c <= 1.
Proof.
  intros [H0 H1]. unfold Luminance.sRGBtoLin.
  destruct (leb c 0.04045) eqn:Hc.
  - apply leb_true in Hc. lra.
  - set (base := (c + 0.055) / 1.055).
    assert (Hbase : 0 < base <= 1) by (unfold base; lra).
    unfold Rpower. split; [left; apply exp_pos|].
    assert (Hln : ln base <= 0).
    { destruct (Rle_lt_or_eq_dec base 1 (proj2 Hbase)) as [Hlt | ->].
      - left. rewrite <- ln_1. apply ln_increasing; lra.
      - rewrite ln_1. lra. }
    rewrite <- exp_0.
    destruct (Rle_lt_or_eq_dec (2.4 * ln base) 0 ltac:(nra)) as [Hlt | ->].
    + left. now apply exp_increasing.
    + lra.
Qed.

Lemma getLuminance_range (r g b : R) :
  0 <= r <= 255 -> 0 <= g <= 255 -> 0 <= b <= 255 ->
  0 <= Luminance.getLuminance r g b <= 1.
Proof.
  intros Hr Hg Hb. unfold Luminance.getLuminance.
  pose proof (sRGBtoLin_range (r / 255) ltac:(lra)).
  pose proof (sRGBtoLin_range (g / 255) ltac:(lra)).
  pose proof (sRGBtoLin_range (b / 255) ltac:(lra)).
  cbv zeta. lra.
Qed.

Lemma byteValue_range (b : byte) : 0 <= CanvasUtils.byteValue b <= 255.
Proof.
  unfold CanvasUtils.byteValue.
  pose proof (Byte.to_N_bounded b) as Hb.
  split; [apply IZR_le | apply IZR_le]; lia.
Qed.

(** X16.  For channels between 0 and 255 the luminance is between 0 and 1. *)
Theorem getLuminance_unit_interval (r g b : R) :
  0 <= r <= 255 -> 0 <= g <= 255 -> 0 <= b <= 255 ->
  0 <= Luminance.getLuminance r g b <= 1.
Proof.
  intros Hr Hg Hb. unfold Luminance.getLuminance.
  destruct (sRGBtoLin_range (r / 255)) as [Hr0 Hr1]; [lra|].
  destruct (sRGBtoLin_range (g / 255)) as [Hg0 Hg1]; [lra|].
  destruct (sRGBtoLin_range (b / 255)) as [Hb0 Hb1]; [lra|].
  cbv zeta. split.
  - apply Rplus_le_le_0_compat; [apply Rplus_le_le_0_compat|]; nra.
  - nra.
Qed.

Lemma getLuminance_unit_interval_witness :
  0 <= Luminance.getLuminance 255 128 0 <= 1.
Proof.
  apply (getLuminance_unit_interval 255 128 0); lra.
Defined.

Lemma isDark_low_threshold (r g b : option byte) (t : R) :
  t <= 0 -> CanvasUtils.isDark r g b t = false.
Proof.
  intros Ht. unfold CanvasUtils.isDark.
  destruct r as [r|]; [|reflexivity].
  destruct g as [g|]; [|reflexivity].
  destruct b as [b|]; [|reflexivity].
  apply ltb_false.
  pose proof (getLuminance_range _ _ _ (byteValue_range r) (byteValue_range g)
                                 (byteValue_range b)).
  lra.
Qed.

Lemma isDark_high_threshold (r g b : byte) (t : R) :
  1 < t -> CanvasUtils.isDark (Some r) (Some g) (Some b) t = true.
Proof.
  intros Ht. unfold CanvasUtils.isDark. apply ltb_true.
  pose proof (getLuminance_range _ _ _ (byteValue_range r) (byteValue_range g)
                                 (byteValue_range b)).
  lra.
Qed.

(** X17.  The mask has as many rows as the canvas is high, each as long as the
    canvas is wide, and an entry exactly at the pixels of the canvas. *)
Theorem createLuminanceMap_shape (canvas : CanvasUtils.Canvas) (t : option R) :
  List.length (CanvasUtils.createLuminanceMap canvas t) = CanvasUtils.height canvas
  /\ Forall (fun row : list bool => List.length row = CanvasUtils.width canvas)
            (CanvasUtils.createLuminanceMap canvas t)
  /\ (forall x y : nat,
         maskAt (CanvasUtils.createLuminanceMap canvas t) x y <> None
         <-> (x < CanvasUtils.width canvas)%nat /\ (y < CanvasUtils.height canvas)%nat).
Proof.
  split; [|split].
  - unfold CanvasUtils.createLuminanceMap. now rewrite length_map, length_seq.
  - unfold CanvasUtils.createLuminanceMap. apply Forall_forall. intros row Hrow.
    apply in_map_iff in Hrow as (y & <- & _).
    now rewrite length_map, length_seq.
  - intros x y. split.
    + intros Hsome.
      destruct (maskAt (CanvasUtils.createLuminanceMap canvas t) x y) as [v|] eqn:Hv;
        [|congruence].
      now apply maskAt_inside in Hv.
    + intros [Hx Hy]. rewrite (maskAt_createLuminanceMap canvas t x y Hx Hy).
      discriminate.
Qed.

(** X18.  With a threshold of 0 or less no pixel is foreground; with a threshold
    above 1 every pixel of a canvas whose buffer is complete is. *)
Theorem createLuminanceMap_extreme_thresholds (canvas : CanvasUtils.Canvas) (t : R) :
  (t <= 0 -> allFalse (CanvasUtils.createLuminanceMap canvas (Some t)))
  /\ (1 < t ->
      (4 * CanvasUtils.width canvas * CanvasUtils.height canvas
       <= List.length (CanvasUtils.data canvas))%nat ->
      allTrue (INR (CanvasUtils.width canvas))
              (CanvasUtils.createLuminanceMap canvas (Some t))).
Proof.
  split.
  - intros Ht. unfold allFalse, CanvasUtils.createLuminanceMap.
    apply Forall_forall. intros row Hrow.
    apply in_map_iff in Hrow as (y & <- & _).
    apply Forall_forall. intros v Hv.
    apply in_map_iff in Hv as (x & <- & _).
    now apply isDark_low_threshold.
  - intros Ht Hdata. unfold allTrue, CanvasUtils.createLuminanceMap.
    apply Forall_forall. intros row Hrow.
    apply in_map_iff in Hrow as (y & <- & Hy). apply in_seq in Hy.
    split.
    + apply Forall_forall. intros v Hv.
      apply in_map_iff in Hv as (x & <- & Hx). apply in_seq in Hx.
      cbv zeta.
      assert (Hidx : ((y * CanvasUtils.width canvas + x) * 4 + 2
                      < List.length (CanvasUtils.data canvas))%nat) by nia.
      destruct (nth_error (CanvasUtils.data canvas)
                          ((y * CanvasUtils.width canvas + x) * 4)) as [r|] eqn:Hr;
        [|apply nth_error_None in Hr; lia].
      destruct (nth_error (CanvasUtils.data canvas)
                          ((y * CanvasUtils.width canvas + x) * 4 + 1)) as [g|] eqn:Hg;
        [|apply nth_error_None in Hg; lia].
      destruct (nth_error (CanvasUtils.data canvas)
                          ((y * CanvasUtils.width canvas + x) * 4 + 2)) as [b|] eqn:Hb;
        [|apply nth_error_None in Hb; lia].
      now apply isDark_high_threshold.
    + rewrite length_map, length_seq. lra.
Qed.

Lemma createLuminanceMap_extreme_thresholds_witness :
  (0 <= 0 -> allFalse (CanvasUtils.createLuminanceMap blackAndWhite (Some 0)))
  /\ (1 < 2 ->
      (4 * CanvasUtils.width blackAndWhite * CanvasUtils.height blackAndWhite
       <= List.length (CanvasUtils.data blackAndWhite))%nat ->
      allTrue (INR (CanvasUtils.width blackAndWhite))
              (CanvasUtils.createLuminanceMap blackAndWhite (Some 2))).
Proof.
  split.
  - apply (proj1 (createLuminanceMap_extreme_thresholds blackAndWhite 0)).
  - apply (proj2 (createLuminanceMap_extreme_thresholds blackAndWhite 2)).
Defined.

(** X19.  The mask does not depend on the alpha channel: two buffers that agree
    on their red, green and blue bytes give the same mask. *)
Theorem createLuminanceMap_ignores_alpha
        (w h : nat) (data1 data2 : list byte) (t : option R) :
  (forall i : nat, (i mod 4 <> 3)%nat -> nth_error data1 i = nth_error data2 i) ->
  CanvasUtils.createLuminanceMap (CanvasUtils.mkCanvas w h data1) t
  = CanvasUtils.createLuminanceMap (CanvasUtils.mkCanvas w h data2) t.
Proof.
  intros Hsame. unfold CanvasUtils.createLuminanceMap.
  cbn [CanvasUtils.width CanvasUtils.height CanvasUtils.data].
  apply map_ext. intros y. apply map_ext. intros x. cbv zeta.
  rewrite (Hsame ((y * w + x) * 4)%nat), (Hsame ((y * w + x) * 4 + 1)%nat),
    (Hsame ((y * w + x) * 4 + 2)%nat);
    [reflexivity | | | ].
  - rewrite Nat.add_comm, Nat.Div0.mod_add. cbn. lia.
  - rewrite Nat.add_comm, Nat.Div0.mod_add. cbn. lia.
  - rewrite Nat.Div0.mod_mul. lia.
Qed.

Lemma createLuminanceMap_ignores_alpha_witness :
  CanvasUtils.createLuminanceMap
    (CanvasUtils.mkCanvas 1 1 ["000"; "000"; "000"; "255"]%byte) (Some 0.5)
  = CanvasUtils.createLuminanceMap
      (CanvasUtils.mkCanvas 1 1 ["000"; "000"; "000"; "000"]%byte) (Some 0.5).
Proof.
  apply (createLuminanceMap_ignores_alpha 1 1).
  intros i Hi.
  destruct i as [|[|[|[|i]]]]; try reflexivity.
  - cbn in Hi. lia.
Defined.

End LuminanceRange.

(** ** Words *)

Section Words.

Local Open Scope string_scope.

Lemma append_nil_r (s : string) : s ++ EmptyString = s.
Proof. induction s as [|c s IH]; cbn; [reflexivity | now rewrite IH]. Qed.

Lemma append_assoc (s1 s2 s3 : string) : (s1 ++ s2) ++ s3 = s1 ++ (s2 ++ s3).
Proof. induction s1 as [|c s1 IH]; cbn; [reflexivity | now rewrite IH]. Qed.

Lemma rev_string_append (acc s : string) :
  rev_string acc s = rev_string EmptyString s ++ acc.
Proof.
  revert acc; induction s as [|c s IH]; intros acc; cbn [rev_string].
  - reflexivity.
  - rewrite (IH (String c acc)), (IH (String c EmptyString)).
    now rewrite append_assoc.
Qed.

Lemma rev_string_cons (c : ascii) (s : string) :
  rev_string EmptyString (String c s)
  = rev_string EmptyString s ++ String c EmptyString.
Proof. cbn [rev_string]. apply rev_string_append. Qed.

Lemma rev_string_snoc (c : ascii) (s : string) :
  rev_string EmptyString (s ++ String c EmptyString)
  = String c (rev_string EmptyString s).
Proof.
  induction s as [|d s IH].
  - reflexivity.
  - cbn [append]. rewrite !rev_string_cons, IH. reflexivity.
Qed.

Lemma rev_string_involutive (s : string) :
  rev_string EmptyString (rev_string EmptyString s) = s.
Proof.
  induction s as [|c s IH].
  - reflexivity.
  - rewrite rev_string_cons, rev_string_snoc, IH. reflexivity.
Qed.

Lemma hasWhiteSpace_append (s1 s2 : string) :
  hasWhiteSpace (s1 ++ s2) = hasWhiteSpace s1 || hasWhiteSpace s2.
Proof.
  induction s1 as [|c s1 IH]; cbn [append hasWhiteSpace].
  - reflexivity.
  - now rewrite IH, orb_assoc.
Qed.

Lemma hasWhiteSpace_rev (s : string) :
  hasWhiteSpace (rev_string EmptyString s) = hasWhiteSpace s.
Proof.
  induction s as [|c s IH].
  - reflexivity.
  - rewrite rev_string_cons, hasWhiteSpace_append, IH.
    cbn [hasWhiteSpace]. rewrite orb_false_r. apply orb_comm.
Qed.

Lemma trimStart_clean (s : string) : startsWithWhiteSpace s = false -> trimStart s = s.
Proof. destruct s as [|c s]; cbn; [reflexivity | now intros ->]. Qed.

Lemma startsWithWhiteSpace_clean (s : string) :
  hasWhiteSpace s = false -> startsWithWhiteSpace s = false.
Proof.
  destruct s as [|c s]; cbn; [reflexivity|].
  intros H. now apply orb_false_iff in H.
Qed.

Lemma trim_clean (s : string) : hasWhiteSpace s = false -> trim s = s.
Proof.
  intros Hs. unfold trim.
  rewrite (trimStart_clean s) by now apply startsWithWhiteSpace_clean.
  rewrite trimStart_clean
    by (apply startsWithWhiteSpace_clean; now rewrite hasWhiteSpace_rev).
  apply rev_string_involutive.
Qed.

Lemma splitWhiteSpace_clean (inSep : bool) (cur s : string) :
  hasWhiteSpace s = false -> splitWhiteSpace inSep cur s = [cur ++ s].
Proof.
  revert inSep cur; induction s as [|c s IH]; intros inSep cur; cbn [hasWhiteSpace].
  - intros _. cbn [splitWhiteSpace]. now rewrite append_nil_r.
  - intros H. apply orb_false_iff in H as [Hc Hs].
    cbn [splitWhiteSpace]. rewrite Hc, (IH false _ Hs), append_assoc. reflexivity.
Qed.

Lemma splitWhiteSpace_words_clean (inSep : bool) (cur s : string) :
  hasWhiteSpace cur = false ->
  Forall (fun w : string => hasWhiteSpace w = false) (splitWhiteSpace inSep cur s).
Proof.
  revert inSep cur; induction s as [|c s IH]; intros inSep cur Hcur;
    cbn [splitWhiteSpace].
  - now constructor.
  - destruct (isWhiteSpace c) eqn:Hc.
    + destruct inSep; [now apply IH|].
      constructor; [exact Hcur | now apply IH].
    + apply IH. rewrite hasWhiteSpace_append, Hcur. cbn [hasWhiteSpace].
      now rewrite Hc.
Qed.

Lemma endsWithWhiteSpace_cons (c : ascii) (s : string) :
  endsWithWhiteSpace (String c s) = false ->
  endsWithWhiteSpace s = false /\ (isWhiteSpace c = true -> s <> EmptyString).
Proof.
  destruct s as [|d s]; cbn [endsWithWhiteSpace].
  - intros Hc. split; [reflexivity | congruence].
  - intros H. split; [exact H | discriminate].
Qed.

Lemma append_not_empty (s : string) (c : ascii) : s ++ String c EmptyString <> EmptyString.
Proof. destruct s; discriminate. Qed.

Lemma splitWhiteSpace_words_not_empty (inSep : bool) (cur s : string) :
  endsWithWhiteSpace s = false ->
  (s = EmptyString -> cur <> EmptyString) ->
  inSep = true \/ cur <> EmptyString \/ startsWithWhiteSpace s = false ->
  Forall (fun w : string => w <> EmptyString) (splitWhiteSpace inSep cur s).
Proof.
  revert inSep cur; induction s as [|c s IH]; intros inSep cur Hend Hcur Hstart;
    cbn [splitWhiteSpace].
  - constructor; [now apply Hcur | constructor].
  - destruct (endsWithWhiteSpace_cons c s Hend) as [Hend' Hrest].
    destruct (isWhiteSpace c) eqn:Hc.
    + specialize (Hrest eq_refl).
      assert (Hrec : Forall (fun w : string => w <> EmptyString)
                            (splitWhiteSpace true EmptyString s)).
      { apply IH; [exact Hend' | intros Hs; contradiction | now left]. }
      destruct inSep; [exact Hrec|].
      constructor; [|exact Hrec].
      destruct Hstart as [Hs | [Hs | Hs]]; [discriminate | exact Hs |].
      cbn [startsWithWhiteSpace] in Hs. congruence.
    + apply IH; [exact Hend' | intros _; apply append_not_empty |].
      right; left. apply append_not_empty.
Qed.

Lemma startsWithWhiteSpace_trimStart (s : string) :
  startsWithWhiteSpace (trimStart s) = false.
Proof.
  induction s as [|c s IH]; cbn [trimStart]; [reflexivity|].
  destruct (isWhiteSpace c) eqn:Hc; [exact IH|].
  cbn [startsWithWhiteSpace]. exact Hc.
Qed.

Lemma endsWithWhiteSpace_snoc (s : string) (c : ascii) :
  endsWithWhiteSpace (s ++ String c EmptyString) = isWhiteSpace c.
Proof.
  induction s as [|d s IH]; [reflexivity|].
  cbn [append]. destruct s as [|e s]; [reflexivity|]. exact IH.
Qed.

Lemma endsWithWhiteSpace_rev (s : string) :
  endsWithWhiteSpace (rev_string EmptyString s) = startsWithWhiteSpace s.
Proof.
  destruct s as [|c s]; [reflexivity|].
  rewrite rev_string_cons. apply endsWithWhiteSpace_snoc.
Qed.

Lemma startsWithWhiteSpace_snoc (s : string) (c : ascii) :
  startsWithWhiteSpace (s ++ String c EmptyString)
  = match s with EmptyString => isWhiteSpace c | _ => startsWithWhiteSpace s end.
Proof. now destruct s. Qed.

Lemma rev_string_not_empty (c : ascii) (s : string) :
  rev_string EmptyString (String c s) <> EmptyString.
Proof. rewrite rev_string_cons. apply append_not_empty. Qed.

Lemma startsWithWhiteSpace_rev (s : string) :
  startsWithWhiteSpace (rev_string EmptyString s) = endsWithWhiteSpace s.
Proof.
  induction s as [|c s IH]; [reflexivity|].
  rewrite rev_string_cons, startsWithWhiteSpace_snoc.
  destruct s as [|d s]; [reflexivity|].
  change (endsWithWhiteSpace (String c (String d s)))
    with (endsWithWhiteSpace (String d s)).
  destruct (rev_string EmptyString (String d s)) eqn:Hrev.
  - now apply rev_string_not_empty in Hrev.
  - exact IH.
Qed.

Lemma endsWithWhiteSpace_trimStart (s : string) :
  endsWithWhiteSpace s = false -> endsWithWhiteSpace (trimStart s) = false.
Proof.
  induction s as [|c s IH]; [reflexivity|].
  intros Hend. cbn [trimStart].
  destruct (isWhiteSpace c); [|exact Hend].
  apply IH. now apply endsWithWhiteSpace_cons in Hend.
Qed.

Lemma splitWhiteSpace_not_nil (inSep : bool) (cur s : string) :
  splitWhiteSpace inSep cur s <> [].
Proof.
  revert inSep cur; induction s as [|c s IH]; intros inSep cur; cbn [splitWhiteSpace].
  - discriminate.
  - destruct (isWhiteSpace c); [|apply IH].
    destruct inSep; [apply IH | discriminate].
Qed.

(** [trim] leaves white space neither at the start nor at the end. *)
Lemma trim_ends (s : string) :
  startsWithWhiteSpace (trim s) = false /\ endsWithWhiteSpace (trim s) = false.
Proof.
  unfold trim. split.
  - rewrite startsWithWhiteSpace_rev. apply endsWithWhiteSpace_trimStart.
    rewrite endsWithWhiteSpace_rev. apply startsWithWhiteSpace_trimStart.
  - rewrite endsWithWhiteSpace_rev. apply startsWithWhiteSpace_trimStart.
Qed.

(** X20.  The words of a text are never none, hold no white space, and are not
    empty, except that a text that is empty once trimmed gives the one
    word that is empty. *)
Theorem splitIntoWords_words (text : string) :
  TextProcessor.splitIntoWords text <> []
  /\ Forall (fun w : string => hasWhiteSpace w = false) (TextProcessor.splitIntoWords text)
  /\ ((trim text = EmptyString /\ TextProcessor.splitIntoWords text = [EmptyString])
      \/ (trim text <> EmptyString
          /\ Forall (fun w : string => w <> EmptyString)
                    (TextProcessor.splitIntoWords text))).
Proof.
  unfold TextProcessor.splitIntoWords. split; [|split].
  - apply splitWhiteSpace_not_nil.
  - now apply splitWhiteSpace_words_clean.
  - destruct (trim_ends text) as [Hstart Hend].
    destruct (trim text) as [|c s] eqn:Htrim.
    + left. now split.
    + right. split; [discriminate|].
      apply splitWhiteSpace_words_not_empty; [exact Hend | discriminate |].
      right; right. exact Hstart.
Qed.

(** X21.  A text without white space is its own single word: it is not
    multi-line, and [renderText] draws it once, at the centre. *)
Theorem splitIntoWords_single_word (text : string) (centerX centerY fontSize : R) :
  hasWhiteSpace text = false ->
  TextProcessor.splitIntoWords text = [text]
  /\ TextProcessor.isMultiLine text = false
  /\ TextProcessor.renderText text centerX centerY fontSize
     = [TextProcessor.mkFillText text centerX centerY].
Proof.
  intros Hclean.
  assert (Hwords : TextProcessor.splitIntoWords text = [text]).
  { unfold TextProcessor.splitIntoWords.
    rewrite (trim_clean text Hclean). now rewrite splitWhiteSpace_clean. }
  split; [exact Hwords|]. split.
  - unfold TextProcessor.isMultiLine. now rewrite Hwords.
  - unfold TextProcessor.renderText. now rewrite Hwords.
Qed.

Lemma splitIntoWords_single_word_witness :
  TextProcessor.splitIntoWords "42" = ["42"]
  /\ TextProcessor.isMultiLine "42" = false
  /\ TextProcessor.renderText "42" 400 400 300
     = [TextProcessor.mkFillText "42" 400%R 400%R].
Proof.
  apply (splitIntoWords_single_word "42" 400 400 300). reflexivity.
Defined.

End Words.

(** ** Lines of text *)

Section Lines.

Local Open Scope R_scope.
Import TextProcessor.

Lemma forEachFrom_nth {A B : Type} (f : A -> nat -> B) (l : list A) (index i : nat) :
  nth_error (forEachFrom f index l) i
  = option_map (fun a => f a (index + i)%nat) (nth_error l i).
Proof.
  revert index i; induction l as [|a l IH]; intros index i; cbn [forEachFrom].
  - now destruct i.
  - destruct i as [|i]; cbn [nth_error option_map].
    + now rewrite Nat.add_0_r.
    + rewrite IH. now rewrite Nat.add_succ_comm.
Qed.

Lemma forEachFrom_length {A B : Type} (f : A -> nat -> B) (l : list A) (index : nat) :
  List.length (forEachFrom f index l) = List.length l.
Proof.
  revert index; induction l as [|a l IH]; intros index; cbn [forEachFrom List.length];
    [reflexivity | now rewrite IH].
Qed.


Lemma splitIntoWords_two : splitIntoWords "A B" = ["A"%string; "B"%string].
Proof. reflexivity. Qed.


End Lines.

(** ** Bounds on the fitted font size *)

Section FittedSize.

Local Open Scope R_scope.
Import TextProcessor.

Lemma shrink_bounds (measureText : R -> string -> string -> TextMetrics)
      (text : string) (maxWidth maxHeight : R) (fontFamily : string)
      (fuel : nat) (size v : R) :
  20 < size ->
  shrink measureText text maxWidth maxHeight fontFamily fuel size = Returned v ->
  19 < v <= size.
Proof.
  revert size; induction fuel as [|fuel IH]; intros size Hsize; cbn [shrink].
  - discriminate.
  - destruct (fits _ _ _ _ _ size); [intros [= <-]; lra|].
    destruct (gtb (size * 0.95) 20) eqn:Hgt.
    + apply gtb_true in Hgt. intros Hrun. specialize (IH _ Hgt Hrun). lra.
    + intros [= <-]. lra.
Qed.

(** X23.  The fitter never enlarges the text: from an initial size above 20 it
    returns a size above 19 and at most the initial size; from an initial
    size between 0 and 20 it makes a single pass and returns the initial
    size or 0.95 times it. *)
Theorem calculateOptimalFontSize_bounds
        (measureText : R -> string -> string -> TextMetrics)
        (text : string) (maxWidth maxHeight : R) (fontFamily : string)
        (fuel : nat) (initialFontSize v : R) :
  calculateOptimalFontSize measureText text maxWidth maxHeight fontFamily
                           fuel initialFontSize = Returned v ->
  (20 < initialFontSize -> 19 < v <= initialFontSize)
  /\ (0 <= initialFontSize <= 20 ->
      v = initialFontSize \/ v = initialFontSize * 0.95).
Proof.
  unfold calculateOptimalFontSize. intros Hrun. split.
  - intros Hbig. now apply (shrink_bounds _ _ _ _ _ _ _ _ Hbig Hrun).
  - intros Hsmall. destruct fuel as [|fuel]; cbn [shrink] in Hrun; [discriminate|].
    destruct (fits _ _ _ _ _ initialFontSize); [left; congruence|].
    replace (gtb (initialFontSize * 0.95) 20) with false in Hrun
      by (symmetry; apply gtb_false; lra).
    right. congruence.
Qed.

Lemma calculateOptimalFontSize_bounds_witness :
  (20 < 50 -> 19 < 50 <= 50)
  /\ (0 <= 50 <= 20 -> 50 = 50 \/ 50 = 50 * 0.95).
Proof.
  apply (calculateOptimalFontSize_bounds proportional "8" 100 100 "Arial" 1 50 50).
  unfold calculateOptimalFontSize; cbn [shrink].
  now rewrite proportional_fits_50.
Defined.

End FittedSize.

(** ** The region given to the text *)

Section TextRegion.

Local Open Scope R_scope.
Import ColorVisionGenerator.

Lemma calculateTextConstraints_region (o : Options) :
  margin o * 2 <= width o ->
  margin o * 2 <= height o ->
  0 <= maxTextWidth (_calculateTextConstraints o) <= width o - margin o * 2
  /\ 0 <= maxTextHeight (_calculateTextConstraints o) <= height o - margin o * 2.
Proof.
  intros Hw Hh. unfold _calculateTextConstraints.
  destruct (circular o).
  - pose proof (Rmin_l (width o) (height o)) as Hl.
    pose proof (Rmin_r (width o) (height o)) as Hr.
    assert (Hmin : margin o * 2 <= Rmin (width o) (height o))
      by (apply Rmin_glb; assumption).
    destruct (maxTextFit o); cbn [maxTextWidth maxTextHeight]; lra.
  - cbn [maxTextWidth maxTextHeight]. lra.
Qed.

(** X24.  Whenever the margins leave room on the canvas, the region given to
    the text is inside the canvas less the margins, in both modes. *)
Theorem calculateTextConstraints_within_margins (o : Options) :
  margin o * 2 <= width o ->
  margin o * 2 <= height o ->
  0 <= maxTextWidth (_calculateTextConstraints o) <= width o - margin o * 2
  /\ 0 <= maxTextHeight (_calculateTextConstraints o) <= height o - margin o * 2.
Proof.
  intros Hw Hh. unfold _calculateTextConstraints.
  destruct (circular o); cbn [maxTextWidth maxTextHeight]; [|lra].
  set (circleRadius := Rmin (width o) (height o) / 2 - margin o).
  assert (Hradius : 0 <= circleRadius)
    by (unfold circleRadius; pose proof (Rmin_glb _ _ _ Hw Hh); lra).
  assert (Hwide : circleRadius * 2 <= width o - margin o * 2)
    by (unfold circleRadius; pose proof (Rmin_l (width o) (height o)); lra).
  assert (Hhigh : circleRadius * 2 <= height o - margin o * 2)
    by (unfold circleRadius; pose proof (Rmin_r (width o) (height o)); lra).
  destruct (maxTextFit o); lra.
Qed.

Lemma calculateTextConstraints_within_margins_witness :
  0 <= maxTextWidth (_calculateTextConstraints roundOptions)
  <= width roundOptions - margin roundOptions * 2
  /\ 0 <= maxTextHeight (_calculateTextConstraints roundOptions)
     <= height roundOptions - margin roundOptions * 2.
Proof.
  apply (calculateTextConstraints_within_margins roundOptions); cbn; lra.
Defined.

(** X25.  The font size that [generate] computes either was measured to make
    the text no wider and no higher than the canvas less the margins, or
    is 20 or less. *)
Theorem adjustedFontSize_fits_margins
        (measureText : R -> string -> string -> TextProcessor.TextMetrics)
        (o : Options) (text : string) (fuel : nat) (v : R) :
  margin o * 2 <= width o ->
  margin o * 2 <= height o ->
  adjustedFontSize measureText o text fuel = Returned v ->
  (fst (TextProcessor.measure measureText text (fontFamily o) v)
   <= width o - margin o * 2
   /\ snd (TextProcessor.measure measureText text (fontFamily o) v)
      <= height o - margin o * 2)
  \/ v <= 20.
Proof.
  intros Hw Hh Hrun.
  unfold adjustedFontSize, TextProcessor.calculateOptimalFontSize in Hrun.
  destruct (shrink_result _ _ _ _ _ _ _ _ Hrun) as (k & _ & _ & [Hfits | [_ Hle]]);
    [left | now right].
  destruct (calculateTextConstraints_region o Hw Hh) as [[_ Hmw] [_ Hmh]].
  unfold TextProcessor.fits in Hfits.
  destruct (TextProcessor.measure measureText text (fontFamily o) v) as [tw th].
  apply andb_true_iff in Hfits as [Htw Hth].
  apply leb_true in Htw, Hth. cbn [fst snd]. lra.
Qed.

Lemma adjustedFontSize_round : adjustedFontSize proportional roundOptions "8" 1 = Returned 50.
Proof.
  unfold adjustedFontSize, TextProcessor.calculateOptimalFontSize.
  cbn [TextProcessor.shrink fontSize fontFamily roundOptions].
  replace (TextProcessor.fits _ _ _ _ _ 50) with true; [reflexivity|].
  symmetry. unfold TextProcessor.fits, TextProcessor.measure, _calculateTextConstraints.
  rewrite splitIntoWords_single.
  cbn [List.length Nat.ltb Nat.leb proportional TextProcessor.width String.length
       TextProcessor.actualBoundingBoxAscent TextProcessor.actualBoundingBoxDescent
       orElse INR circular maxTextFit width height margin roundOptions
       maxTextWidth maxTextHeight].
  rewrite Rmin_left by lra.
  apply andb_true_iff; split; apply leb_true; lra.
Qed.

Lemma adjustedFontSize_fits_margins_witness :
  (fst (TextProcessor.measure proportional "8" (fontFamily roundOptions) 50)
   <= width roundOptions - margin roundOptions * 2
   /\ snd (TextProcessor.measure proportional "8" (fontFamily roundOptions) 50)
      <= height roundOptions - margin roundOptions * 2)
  \/ 50 <= 20.
Proof.
  apply (adjustedFontSize_fits_margins proportional roundOptions "8" 1 50).
  - cbn. lra.
  - cbn. lra.
  - exact adjustedFontSize_round.
Defined.

End TextRegion.

(** ** The palette catalogue *)

Section Catalogue.

Import ColorVisionGenerator.
Local Open Scope string_scope.

(** X26.  For a palette name that is not empty and whose lower-case form is
    not a member inherited from [Object.prototype], the constructor is
    atomic and blind to case: either the name is valid, and both colours
    are replaced by those of the entry of the lower-case name, without a
    warning; or it is not, and the options are kept as they are, with one
    warning. *)
Theorem constructor_palette_resolution (merged : Options) (P : string) :
  palette merged = Some P ->
  P <> EmptyString ->
  existsb (String.eqb (toLowerCase P)) ColorPalettes.objectPrototype = false ->
  (ColorPalettes.isValidPalette P = true
   /\ exists p : ColorPalettes.Palette,
       ColorPalettes.ownProperty (toLowerCase P) ColorPalettes.COLOR_PALETTES = Some p
       /\ constructor merged
          = (setColors (VString (ColorPalettes.onColor p))
                       (VString (ColorPalettes.offColor p)) merged, []))
  \/ (ColorPalettes.isValidPalette P = false
      /\ constructor merged = (merged, [notFoundWarning P])).
Proof.
  intros HP Hne Hproto. unfold ColorPalettes.isValidPalette.
  destruct (ColorPalettes.ownProperty (toLowerCase P) ColorPalettes.COLOR_PALETTES)
    as [p|] eqn:Hown.
  - left. split; [reflexivity|]. exists p. split; [reflexivity|].
    now apply (constructor_known_palette merged P p).
  - right. split; [reflexivity|].
    destruct (constructor_unknown_palette merged P HP Hown Hproto) as [Hfst Hsnd].
    specialize (Hsnd Hne).
    destruct (constructor merged) as [o warnings]. cbn [fst snd] in *. congruence.
Qed.

Lemma constructor_palette_resolution_witness :
  (ColorPalettes.isValidPalette "ProtAnopia" = true
   /\ exists p : ColorPalettes.Palette,
       ColorPalettes.ownProperty (toLowerCase "ProtAnopia") ColorPalettes.COLOR_PALETTES
       = Some p
       /\ constructor (withPalette (Some "ProtAnopia") DEFAULT_OPTIONS)
          = (setColors (VString (ColorPalettes.onColor p))
                       (VString (ColorPalettes.offColor p))
                       (withPalette (Some "ProtAnopia") DEFAULT_OPTIONS), []))
  \/ (ColorPalettes.isValidPalette "ProtAnopia" = false
      /\ constructor (withPalette (Some "ProtAnopia") DEFAULT_OPTIONS)
         = (withPalette (Some "ProtAnopia") DEFAULT_OPTIONS,
            [notFoundWarning "ProtAnopia"])).
Proof.
  apply (constructor_palette_resolution
           (withPalette (Some "ProtAnopia") DEFAULT_OPTIONS) "ProtAnopia").
  - reflexivity.
  - discriminate.
  - reflexivity.
Defined.

(** X27.  Every name listed by [getPaletteNames] is valid and is resolved by
    [getPalette] to an entry of the catalogue whose two colours are not
    empty and differ. *)
Theorem getPaletteNames_resolve (paletteName : string) :
  In paletteName ColorPalettes.getPaletteNames ->
  ColorPalettes.isValidPalette paletteName = true
  /\ exists p : ColorPalettes.Palette,
      ColorPalettes.getPalette paletteName = ColorPalettes.Own p
      /\ In (paletteName, p) ColorPalettes.getAllPalettes
      /\ ColorPalettes.onColor p <> EmptyString
      /\ ColorPalettes.offColor p <> EmptyString
      /\ ColorPalettes.onColor p <> ColorPalettes.offColor p.
Proof.
  unfold ColorPalettes.getPaletteNames, ColorPalettes.getAllPalettes,
    ColorPalettes.COLOR_PALETTES.
  cbn [map fst In].
  intros H.
  repeat (destruct H as [<- | H];
          [split; [reflexivity|]; eexists; split; [reflexivity|];
           split; [cbn [In]; tauto|]; repeat split; discriminate|]).
  destruct H.
Qed.

Lemma getPaletteNames_resolve_witness :
  ColorPalettes.isValidPalette "monochrome" = true
  /\ exists p : ColorPalettes.Palette,
      ColorPalettes.getPalette "monochrome" = ColorPalettes.Own p
      /\ In ("monochrome", p) ColorPalettes.getAllPalettes
      /\ ColorPalettes.onColor p <> EmptyString
      /\ ColorPalettes.offColor p <> EmptyString
      /\ ColorPalettes.onColor p <> ColorPalettes.offColor p.
Proof.
  apply (getPaletteNames_resolve "monochrome").
  cbn. tauto.
Defined.

Lemma withName_palette (key : string) (p : ColorPalettes.Palette) :
  ColorPalettes.withName key p = p.
Proof. now destruct p. Qed.

(** X28.  [getPalettesByDeficiency] returns exactly the palettes of the
    catalogue with the given target, unchanged: the [name] of each is its
    display name, which is never the key under which the catalogue holds
    it. *)
Theorem getPalettesByDeficiency_entries (deficiencyType : string) (r : ColorPalettes.Palette) :
  (In r (ColorPalettes.getPalettesByDeficiency deficiencyType)
   <-> (In r (map snd ColorPalettes.COLOR_PALETTES)
        /\ ColorPalettes.targetDeficiency r = deficiencyType))
  /\ (forall key : string,
         In (key, r) ColorPalettes.COLOR_PALETTES -> ColorPalettes.name r <> key).
Proof.
  split.
  - unfold ColorPalettes.getPalettesByDeficiency. rewrite in_map_iff. split.
    + intros ([key p] & Hr & Hin). apply filter_In in Hin as [Hin Hd].
      cbn [fst snd] in *. rewrite withName_palette in Hr. subst p.
      apply String.eqb_eq in Hd. split; [|exact Hd].
      apply in_map_iff. now exists (key, r).
    + intros [Hin Hd]. apply in_map_iff in Hin as ([key p] & Hp & Hin).
      cbn [snd] in Hp. subst p.
      exists (key, r). cbn [fst snd]. split; [apply withName_palette|].
      apply filter_In. split; [exact Hin|]. cbn [snd]. now apply String.eqb_eq.
  - intros key. unfold ColorPalettes.COLOR_PALETTES. cbn [In]. intros H.
    repeat (destruct H as [[= <- <-] | H]; [discriminate|]).
    destruct H.
Qed.

End Catalogue.
